(** * reg_comments: the regulations.gov comment scrapers

    A shallow embedding of [extract-comments.py] (the scraper that keeps a
    checkpoint of processed identifiers and rotates its CSV files) and of
    [regulations_fda_scraping.py] (the earlier scraper without a checkpoint),
    with the properties of their request executor, checkpoint store,
    identifier discovery, detail fetch and orchestrator. *)

From stdpp Require Import base list strings gmap pretty.
From Stdlib Require Import ZArith Lia Ascii.

Set Warnings "-register-all,-clear-no-such-hyp".
Set Default Proof Using "Type".

Local Open Scope string_scope.
Local Open Scope list_scope.

(** ** Python values decoded from JSON *)

(** What [response.json()] returns.  Numbers are the integers; an object is
    the decoded [dict], kept as its items (a lookup takes the first binding
    of a key). *)
Inductive json : Type :=
  | JNull
  | JBool (b : bool)
  | JNum (n : Z)
  | JStr (s : string)
  | JArr (items : list json)
  | JObj (members : list (string * json)).

(** The exceptions the two scripts can meet. *)
Inductive exn : Type :=
  | KeyboardInterrupt
  | ValueError
  | TypeError
  | AttributeError
  | KeyError
  | JSONDecodeError
  | OSError.

(** [isinstance(e, Exception)]: of the above only [KeyboardInterrupt] derives
    from [BaseException] directly. *)
Definition is_Exception (e : exn) : bool :=
  match e with KeyboardInterrupt => false | _ => true end.

(** A Python expression either evaluates to a value or raises. *)
Inductive outcome (A : Type) : Type :=
  | Val (a : A)
  | Raise (e : exn).
Arguments Val {A} a.
Arguments Raise {A} e.

Definition obind {A B} (x : outcome A) (k : A -> outcome B) : outcome B :=
  match x with Val a => k a | Raise e => Raise e end.

Module Py.

(** Truth value of a decoded value ([bool(v)]). *)
Definition truthy (v : json) : bool :=
    match v with
    | JNull => false
    | JBool b => b
    | JNum n => negb (n =? 0)%Z
    | JStr s => negb (String.eqb s "")
    | JArr l => match l with [] => false | _ => true end
    | JObj m => match m with [] => false | _ => true end
    end.

(** [a or b]. *)
Definition or (a b : json) : json := if truthy a then a else b.

Fixpoint assoc (k : string) (m : list (string * json)) : option json :=
    match m with
    | [] => None
    | (k', v) :: m' => if String.eqb k k' then Some v else assoc k m'
    end.

(** [v[k]] for a string key [k]. *)
Definition subscript (v : json) (k : string) : outcome json :=
    match v with
    | JObj m => match assoc k m with Some x => Val x | None => Raise KeyError end
    | _ => Raise TypeError
    end.

(** [d.get(k, "")] on a dict [d]. *)
Definition get (m : list (string * json)) (k : string) : json :=
    match assoc k m with Some x => x | None => JStr "" end.

(** [s.partition(sep)[0]] for a one-character separator: the part of [s]
      before the first [sep], all of [s] when there is none. *)
Fixpoint partition_head (sep : ascii) (s : string) : string :=
    match s with
    | EmptyString => EmptyString
    | String c s' =>
        if Ascii.eqb c sep then EmptyString else String c (partition_head sep s')
    end.

Section Str.
(** [str] of a list or a dict is Python's [repr], which this development
        does not spell out: it is a parameter. *)
Variable container_repr : json -> string.

(** [str(v)]. *)
Definition str (v : json) : string :=
      match v with
      | JNull => "None"
      | JBool true => "True"
      | JBool false => "False"
      | JNum n => pretty n
      | JStr s => s
      | JArr _ | JObj _ => container_repr v
      end.
End Str.

End Py.

(** ** HTTP responses *)

(** A [requests.Response]: its status code and its body, [None] when the body
    does not decode ([response.json()] raises [JSONDecodeError]). *)
Record response : Type := Response {
  status_code : Z;
  body : option json;
}.

(** [bool(response)] is [response.ok]: the status is not a 4xx or 5xx. *)
Definition response_ok (r : response) : bool :=
  negb ((400 <=? status_code r)%Z && (status_code r <? 600)%Z).

(** [bool(resp)] for the [Optional[Response]] the executor returns. *)
Definition resp_truthy (resp : option response) : bool :=
  match resp with Some r => response_ok r | None => false end.

Definition response_json (r : response) : outcome json :=
  match body r with Some v => Val v | None => Raise JSONDecodeError end.

(** ** Comment records *)

(** The [dict] a detail fetch returns, as its items in insertion order. *)
Definition record : Type := list (string * json).

Definition API_URL : string := "https://api.regulations.gov/v4".
Definition API_COMMENTS_URL : string := API_URL +:+ "/comments".

(** The [fieldnames] of the CSV writer. *)
Definition fieldnames : list string :=
  [ "comment_id"; "tracking_number"; "country"; "state_or_province";
    "zip_code"; "document_category"; "document_subtype"; "received_date";
    "url"; "title"; "object_id"; "agency_id"; "docket_id";
    "open_for_comment"; "comment_on_document_id"; "withdrawn";
    "restrict_reason"; "restrict_reason_type"; "comment" ].

Definition comment_detail_url (comment_id : string) : string :=
  API_COMMENTS_URL +:+ "/" +:+ comment_id.

Section Detail.
Variable container_repr : json -> string.

(** The assignments of the [try] block once [comment_attributes] is known
      to be a dict, followed by the final [dict(...)]. *)
Definition build_record (comment_id : string)
      (attrs : list (string * json)) : record :=
    let get_or k := Py.or (Py.get attrs k) (JStr "") in
    [ ("comment_id", JStr comment_id);
      ("tracking_number", get_or "trackingNbr");
      ("country", get_or "country");
      ("state_or_province", get_or "stateProvinceRegion");
      ("zip_code", get_or "zip");
      ("document_category", get_or "category");
      ("document_subtype", get_or "subtype");
      ("received_date",
        JStr (Py.partition_head "T"
                (Py.str container_repr (Py.get attrs "receiveDate"))));
      ("url", JStr (comment_detail_url comment_id));
      ("title", get_or "title");
      ("object_id", get_or "objectId");
      ("agency_id", get_or "agencyId");
      ("docket_id", get_or "docketId");
      ("open_for_comment", Py.get attrs "openForComment");
      ("comment_on_document_id", get_or "commentOnDocumentId");
      ("withdrawn", Py.get attrs "withdrawn");
      ("restrict_reason", get_or "restrictReason");
      ("restrict_reason_type", get_or "restrictReasonType");
      ("comment", get_or "comment") ].

(** The body of the [try] block of [get_comment_detail_data]:
      [response.json()["data"]["attributes"]], then the [.get] calls, which
      raise [AttributeError] on anything but a dict. *)
Definition detail_try (comment_id : string) (r : response) : outcome record :=
    obind (response_json r) (fun content =>
    obind (Py.subscript content "data") (fun comment_response_content =>
    obind (Py.subscript comment_response_content "attributes")
      (fun comment_attributes =>
         match comment_attributes with
         | JObj attrs => Val (build_record comment_id attrs)
         | _ => Raise AttributeError
         end))).

End Detail.

(** ** The environment and the program state *)

(** What one call of [requests.get] does. *)
Inductive attempt : Type :=
  | ATimeout                (* raises [requests.exceptions.Timeout] *)
  | AError                  (* raises another [Exception] *)
  | AInterrupt              (* the operator interrupts the blocked call *)
  | AResp (r : response).   (* returns a response *)

Inductive message : Type :=
  | MsgTry (url : string) (num_of_try : Z)
  | MsgTimedOut (url : string)
  | MsgException (url : string)
  | MsgRateLimit (seconds : Z)
  | MsgBadStatus (status : Z)
  | MsgLoaded (n : nat)
  | MsgPageSize (page_size : Z)
  | MsgGettingIds
  | MsgProcessingPage (page_num : Z)
  | MsgFailedPage (page_num : Z)
  | MsgInvalidResponse
  | MsgDuplicate (comment_id : string)
  | MsgTotalFound (n : nat)
  | MsgFailedDetails (comment_id : string)
  | MsgInvalidDetail (comment_id : string)
  | MsgBanner
  | MsgNothingToDo
  | MsgToProcess (n total : nat)
  | MsgCreating (file_counter : Z)
  | MsgGettingData (comment_id : string) (idx : nat) (n : nat)
  | MsgCompletedFile (file_counter : Z) (n : nat)
  | MsgProgressSaved (n : nat)
  | MsgInterrupted
  | MsgErrorOccurred (e : exn)
  | MsgTotalProcessed (n : nat)
  | MsgDone.

Inductive event : Type :=
  | EvRequest (url : string)
  | EvSleep (seconds : Z)
  | EvRandomSleep (lo hi : Z)
  | EvSaveProcessedIds
  | EvPrint (m : message).

(** One CSV file of the run: the number in its name, the rows written after
    the header, how many of them a successful [flush] or [close] has pushed
    to the disk, and whether the file has been closed. *)
Record sink : Type := Sink {
  sink_counter : Z;
  sink_rows : list record;
  sink_flushed : nat;
  sink_closed : bool;
}.

(** The module globals, the files, the output so far, and what the
    environment will do next.  [net] scripts the coming HTTP calls (once it
    is used up every call raises a connection error); [faults] scripts the
    coming file operations ([Some e]: the operation raises [e]; once it is
    used up every operation succeeds).  [csv_files] lists the CSV files
    created so far, newest first: its head is the file object [f] of [main].
    [checkpoint_file] is the text of [PROCESSED_IDS_FILE], [None] while the
    file does not exist. *)
Record world : Type := World {
  net : list attempt;
  faults : list (option exn);
  processed_comment_ids : gset string;
  file_counter : Z;
  current_file_comment_count : nat;
  checkpoint_file : option string;
  csv_files : list sink;
  trace : list event;
}.

Definition set_net (x : list attempt) (w : world) : world :=
  World x (faults w) (processed_comment_ids w) (file_counter w)
    (current_file_comment_count w) (checkpoint_file w) (csv_files w) (trace w).
Definition set_faults (x : list (option exn)) (w : world) : world :=
  World (net w) x (processed_comment_ids w) (file_counter w)
    (current_file_comment_count w) (checkpoint_file w) (csv_files w) (trace w).
Definition set_processed (x : gset string) (w : world) : world :=
  World (net w) (faults w) x (file_counter w)
    (current_file_comment_count w) (checkpoint_file w) (csv_files w) (trace w).
Definition set_file_counter (x : Z) (w : world) : world :=
  World (net w) (faults w) (processed_comment_ids w) x
    (current_file_comment_count w) (checkpoint_file w) (csv_files w) (trace w).
Definition set_count (x : nat) (w : world) : world :=
  World (net w) (faults w) (processed_comment_ids w) (file_counter w)
    x (checkpoint_file w) (csv_files w) (trace w).
Definition set_checkpoint (x : option string) (w : world) : world :=
  World (net w) (faults w) (processed_comment_ids w) (file_counter w)
    (current_file_comment_count w) x (csv_files w) (trace w).
Definition set_csv (x : list sink) (w : world) : world :=
  World (net w) (faults w) (processed_comment_ids w) (file_counter w)
    (current_file_comment_count w) (checkpoint_file w) x (trace w).
Definition set_trace (x : list event) (w : world) : world :=
  World (net w) (faults w) (processed_comment_ids w) (file_counter w)
    (current_file_comment_count w) (checkpoint_file w) (csv_files w) x.

(** ** The monad of the scripts: state and exceptions *)

(** [Unmodelled]: the run left what this development describes (an identifier
    that is not a string, a write with no file open). *)
Inductive result (A : Type) : Type :=
  | Ok (a : A) (w : world)
  | Exc (e : exn) (w : world)
  | Unmodelled.
Arguments Ok {A} a w.
Arguments Exc {A} e w.
Arguments Unmodelled {A}.

Definition M (A : Type) : Type := world -> result A.

Definition ret {A} (a : A) : M A := fun w => Ok a w.
Definition raise {A} (e : exn) : M A := fun w => Exc e w.
Definition bind {A B} (m : M A) (k : A -> M B) : M B :=
  fun w => match m w with
           | Ok a w' => k a w'
           | Exc e w' => Exc e w'
           | Unmodelled => Unmodelled
           end.

Notation "'let*' x ':=' m 'in' k" := (bind m (fun x => k))
  (at level 10, x name, m at level 100, k at level 200).
Notation "m1 >> m2" := (bind m1 (fun _ => m2))
  (at level 80, right associativity).

Definition lift {A} (x : outcome A) : M A :=
  match x with Val a => ret a | Raise e => raise e end.

Definition emit (e : event) : M unit :=
  fun w => Ok tt (set_trace (trace w ++ [e]) w).
Definition print (m : message) : M unit := emit (EvPrint m).

Definition when (b : bool) (m : M unit) : M unit := if b then m else ret tt.

Definition get_state : M world := fun w => Ok w w.
Definition modify (f : world -> world) : M unit := fun w => Ok tt (f w).

(** ** Sleeping *)

(** [do_sleep(n)] for an integer, and [do_sleep((lo, hi))] for a pair, which
    sleeps a number of seconds drawn from [lo..hi]. *)
Definition do_sleep (duration : Z) : M unit := emit (EvSleep duration).
Definition do_sleep_range (lo hi : Z) : M unit := emit (EvRandomSleep lo hi).

(** ** File operations *)

(** A file operation that can fail takes the next entry of [faults]. *)
Definition file_op : M unit :=
  fun w => match faults w with
           | [] => Ok tt w
           | None :: fs => Ok tt (set_faults fs w)
           | Some e :: fs => Exc e (set_faults fs w)
           end.

Definition nl : string := String "010"%char EmptyString.

Definition append_checkpoint (s : string) : M unit :=
  fun w => Ok tt (set_checkpoint
                    (Some (match checkpoint_file w with
                           | Some t => t +:+ s
                           | None => s
                           end)) w).

(** The loop of [save_processed_ids]: one [f.write] per identifier. *)
Fixpoint write_ids (ids : list string) : M unit :=
  match ids with
  | [] => ret tt
  | comment_id :: ids' =>
      file_op >> append_checkpoint (comment_id +:+ nl) >> write_ids ids'
  end.

(** [save_processed_ids]: [open(PROCESSED_IDS_FILE, "w")] empties the file,
    then the identifiers of the set are written in the order the set yields
    them.  The implicit close of the [with] block is not a fault point. *)
Definition save_processed_ids : M unit :=
  emit EvSaveProcessedIds >>
  file_op >>
  (fun w => Ok tt (set_checkpoint (Some "") w)) >>
  (fun w => write_ids (elements (processed_comment_ids w)) w).

(** ** The request executor, [get_requests_response] *)

Inductive variant : Type :=
  | Checkpointed    (* extract-comments.py *)
  | Plain.          (* regulations_fda_scraping.py *)

Definition successful_http_status_codes : list Z := [200; 201; 202]%Z.
Definition rate_limit_status_codes : list Z := [429]%Z.

Definition status_in (codes : list Z) (status : Z) : bool :=
  existsb (Z.eqb status) codes.

(** The default of [rate_limit_wait_seconds], which no caller overrides. *)
Definition rate_limit_wait_seconds (v : variant) : Z :=
  match v with Checkpointed => 10 * 60 | Plain => 5 * 60 end%Z.

(** [do_sleep((3, 7))] in the first script, [do_sleep()] with its default
    [(5, 10)] in the second. *)
Definition random_delay (v : variant) : M unit :=
  match v with
  | Checkpointed => do_sleep_range 3 7
  | Plain => do_sleep_range 5 10
  end.

Section Executor.
Variable v : variant.
Variable url : string.
Variable add_random_delay : bool.
Variable num_of_tries : Z.

(** From the top of the loop body to the call of [requests_method]. *)
Definition before_request (num_of_try : Z) : M unit :=
  when (1 <? num_of_try)%Z (print (MsgTry url num_of_try)) >>
  when add_random_delay (random_delay v) >>
  emit (EvRequest url).

(** The loop once the script of the network is used up: every call raises,
    so each of the [left] remaining tries fails. *)
Fixpoint offline_loop (left : nat) (num_of_try : Z) (resp : option response)
  : M (option response) :=
  match left with
  | O => ret resp
  | S left' =>
      before_request num_of_try >>
      print (MsgException url) >>
      offline_loop left' (num_of_try + 1)%Z resp
  end.

(** The [while True] loop, by recursion on the script of the network, which
    is the [net] of the world at every iteration. *)
Fixpoint requests_loop (script : list attempt) (num_of_try : Z)
    (resp : option response) : M (option response) :=
  match script with
  | [] => offline_loop (Z.to_nat (num_of_tries + 1 - num_of_try)) num_of_try resp
  | a :: script' =>
      if (num_of_tries <? num_of_try)%Z then ret resp
      else
        before_request num_of_try >>
        (fun w => Ok tt (set_net script' w)) >>
        match a with
        | ATimeout =>
            print (MsgTimedOut url) >>
            requests_loop script' (num_of_try + 1)%Z resp
        | AError =>
            print (MsgException url) >>
            requests_loop script' (num_of_try + 1)%Z resp
        | AInterrupt => raise KeyboardInterrupt
        | AResp r =>
            if status_in successful_http_status_codes (status_code r)
            then ret (Some r)
            else if status_in rate_limit_status_codes (status_code r)
            then
              print (MsgRateLimit (rate_limit_wait_seconds v)) >>
              match v with
              | Checkpointed => save_processed_ids
              | Plain => ret tt
              end >>
              do_sleep (rate_limit_wait_seconds v) >>
              requests_loop script' num_of_try (Some r)
            else
              print (MsgBadStatus (status_code r)) >>
              requests_loop script' (num_of_try + 1)%Z (Some r)
        end
  end.

Definition get_requests_response : M (option response) :=
  if (num_of_tries <? 1)%Z then raise ValueError
  else fun w => requests_loop (net w) 1%Z None w.

End Executor.


(** ** The checkpoint store *)

(** The lines a text file yields when iterated, without their terminators
    ([\n], [\r] or [\r\n]). *)
Fixpoint file_lines (s : string) : list string :=
  match s with
  | EmptyString => []
  | String c s' =>
      if Ascii.eqb c "010"%char then EmptyString :: file_lines s'
      else if Ascii.eqb c "013"%char then
        match s' with
        | String c' s'' =>
            if Ascii.eqb c' "010"%char then EmptyString :: file_lines s''
            else EmptyString :: file_lines s'
        | EmptyString => [EmptyString]
        end
      else
        match file_lines s' with
        | [] => [String c EmptyString]
        | l :: ls => String c l :: ls
        end
  end.

(** The whitespace of [str.strip] among the ASCII characters. *)
Definition is_space (c : ascii) : bool :=
  let n := nat_of_ascii c in
  ((9 <=? n)%nat && (n <=? 13)%nat) || ((28 <=? n)%nat && (n <=? 32)%nat).

Fixpoint lstrip (s : string) : string :=
  match s with
  | EmptyString => EmptyString
  | String c s' => if is_space c then lstrip s' else s
  end.

Fixpoint rstrip (s : string) : string :=
  match s with
  | EmptyString => EmptyString
  | String c s' =>
      match rstrip s' with
      | EmptyString => if is_space c then EmptyString else String c EmptyString
      | r => String c r
      end
  end.

Definition strip (s : string) : string := rstrip (lstrip s).

(** [load_processed_ids]. *)
Definition load_processed_ids : M unit :=
  fun w =>
    match checkpoint_file w with
    | Some text =>
        (file_op >>
         (fun w => Ok tt (set_processed
                            (list_to_set (strip <$> file_lines text)) w)) >>
         (fun w => print (MsgLoaded (size (processed_comment_ids w))) w)) w
    | None => Ok tt w
    end.

(** ** Identifier discovery, [get_comment_ids] *)

(** What a [for] loop over a decoded value visits. *)
Definition py_iter (v : json) : outcome (list json) :=
  match v with
  | JArr items => Val items
  | JObj members => Val (JStr <$> members.*1)
  | JStr s => Val ((fun c => JStr (String c EmptyString)) <$> String.list_ascii_of_string s)
  | _ => Raise TypeError
  end.

(** The [try] block of the page loop: the page's [data] and its
    [hasNextPage]. *)
Definition page_try (r : response) : outcome (json * json) :=
  obind (response_json r) (fun response_content =>
  obind (Py.subscript response_content "data") (fun response_data =>
  obind (Py.subscript response_content "meta") (fun meta =>
  obind (Py.subscript meta "hasNextPage") (fun has_next_page =>
  Val (response_data, has_next_page))))).

Definition caught (e : exn) : bool :=
  match e with JSONDecodeError | KeyError => true | _ => false end.

(** [comment["id"]] as an identifier.  Identifiers are strings; a list or a
    dict is unhashable; another value is outside this development. *)
Definition comment_id_of (comment : json) : M string :=
  let* comment_id := lift (Py.subscript comment "id") in
  match comment_id with
  | JStr s => ret s
  | JArr _ | JObj _ => raise TypeError
  | _ => fun _ => Unmodelled
  end.

(** The [for comment in response_data] loop of the first script, on the list
    [comment_ids] and the set [comment_ids_set]. *)
Fixpoint add_comments (comments : list json)
    (comment_ids : list string) (comment_ids_set : gset string)
  : M (list string * gset string) :=
  match comments with
  | [] => ret (comment_ids, comment_ids_set)
  | comment :: comments' =>
      let* comment_id := comment_id_of comment in
      if bool_decide (comment_id ∈ comment_ids_set) then
        print (MsgDuplicate comment_id) >>
        add_comments comments' comment_ids comment_ids_set
      else
        add_comments comments' (comment_ids ++ [comment_id])
          ({[comment_id]} ∪ comment_ids_set)
  end.

(** The same loop of the second script, on the set [comment_ids] alone. *)
Fixpoint add_comments_plain (comments : list json) (comment_ids : gset string)
  : M (gset string) :=
  match comments with
  | [] => ret comment_ids
  | comment :: comments' =>
      let* comment_id := comment_id_of comment in
      if bool_decide (comment_id ∈ comment_ids) then
        print (MsgDuplicate comment_id) >>
        add_comments_plain comments' comment_ids
      else
        add_comments_plain comments' ({[comment_id]} ∪ comment_ids)
  end.

(** The [while True] loop over the pages of the first script.  Every page
    that does not end the loop has used at least one entry of [net], so
    [fuel] above the length of [net] is never used up. *)
Fixpoint pages_loop (fuel : nat) (page_num : Z)
    (comment_ids : list string) (comment_ids_set : gset string)
  : M (list string) :=
  match fuel with
  | O => fun _ => Unmodelled
  | S fuel' =>
      print (MsgProcessingPage page_num) >>
      let* response := get_requests_response Checkpointed API_COMMENTS_URL true 3 in
      match response with
      | Some r =>
          if response_ok r then
            match page_try r with
            | Val (response_data, has_next_page) =>
                let* comments := lift (py_iter response_data) in
                let* acc := add_comments comments comment_ids comment_ids_set in
                if Py.truthy has_next_page
                then pages_loop fuel' (page_num + 1)%Z acc.1 acc.2
                else ret acc.1
            | Raise e =>
                if caught e then print MsgInvalidResponse >> ret comment_ids
                else raise e
            end
          else print (MsgFailedPage page_num) >> ret comment_ids
      | None => print (MsgFailedPage page_num) >> ret comment_ids
      end
  end.

Definition page_size_ok (page_size : Z) : bool :=
  (5 <=? page_size)%Z && (page_size <=? 250)%Z.

Definition get_comment_ids (page_size : Z) : M (list string) :=
  if negb (page_size_ok page_size) then
    print (MsgPageSize page_size) >> ret []
  else
    print MsgGettingIds >>
    let* comment_ids := (fun w => pages_loop (S (length (net w))) 1 [] ∅ w) in
    print (MsgTotalFound (length comment_ids)) >>
    ret comment_ids.

(** The page loop of the second script: [None] is its [return None], [Some]
    the set at the [break]. *)
Fixpoint pages_loop_plain (fuel : nat) (page_num : Z) (comment_ids : gset string)
  : M (option (gset string)) :=
  match fuel with
  | O => fun _ => Unmodelled
  | S fuel' =>
      print (MsgProcessingPage page_num) >>
      let* response := get_requests_response Plain API_COMMENTS_URL true 2 in
      match response with
      | None => raise AttributeError
      | Some r =>
          match page_try r with
          | Val (response_data, has_next_page) =>
              let* comments := lift (py_iter response_data) in
              let* acc := add_comments_plain comments comment_ids in
              if Py.truthy has_next_page
              then pages_loop_plain fuel' (page_num + 1)%Z acc
              else ret (Some acc)
          | Raise e =>
              if caught e then print MsgInvalidResponse >> ret None
              else raise e
          end
      end
  end.

Definition get_comment_ids_plain (page_size : Z) : M (option (gset string)) :=
  if negb (page_size_ok page_size) then
    print (MsgPageSize page_size) >> ret None
  else
    print MsgGettingIds >>
    let* found := (fun w => pages_loop_plain (S (length (net w))) 1 ∅ w) in
    match found with
    | Some comment_ids =>
        print (MsgTotalFound (size comment_ids)) >> ret (Some comment_ids)
    | None => ret None
    end.

(** ** Detail fetch, [get_comment_detail_data] *)

Section Scripts.
Variable container_repr : json -> string.

(** The [try] block and its [except (json.JSONDecodeError, KeyError)]. *)
Definition detail_of_response (comment_id : string) (r : response)
  : M (option record) :=
  match detail_try container_repr comment_id r with
  | Val rec => ret (Some rec)
  | Raise e =>
      if caught e then print (MsgInvalidDetail comment_id) >> ret None
      else raise e
  end.

Definition get_comment_detail_data (v : variant) (comment_id : string)
  : M (option record) :=
  match v with
  | Checkpointed =>
      do_sleep_range 2 4 >>
      let* response :=
        get_requests_response Checkpointed (comment_detail_url comment_id) false 3 in
      match response with
      | Some r =>
          if response_ok r then detail_of_response comment_id r
          else print (MsgFailedDetails comment_id) >> ret None
      | None => print (MsgFailedDetails comment_id) >> ret None
      end
  | Plain =>
      do_sleep_range 1 2 >>
      let* response :=
        get_requests_response Plain (comment_detail_url comment_id) false 2 in
      match response with
      | Some r => detail_of_response comment_id r
      | None => raise AttributeError     (* [None.json()] *)
      end
  end.

(** ** The orchestrator of the first script, [main] *)

(** [create_new_csv]: a fault here is a failing [open]. *)
Definition create_new_csv (counter : Z) : M unit :=
  print (MsgCreating counter) >>
  file_op >>
  modify (fun w => set_csv (Sink counter [] 0 false :: csv_files w) w).

(** [f.close()]: nothing on a closed file; otherwise the file ends closed,
    with its rows on the disk unless the close fails. *)
Definition close_file : M unit :=
  fun w =>
    match csv_files w with
    | [] => Unmodelled
    | f :: older =>
        if sink_closed f then Ok tt w
        else
          match file_op w with
          | Ok _ w' =>
              Ok tt (set_csv (Sink (sink_counter f) (sink_rows f)
                                (length (sink_rows f)) true :: older) w')
          | Exc e w' =>
              Exc e (set_csv (Sink (sink_counter f) (sink_rows f)
                                (sink_flushed f) true :: older) w')
          | Unmodelled => Unmodelled
          end
    end.

(** [writer.writerow(rowdict=row)]. *)
Definition writerow (row : record) : M unit :=
  fun w =>
    match csv_files w with
    | [] => Unmodelled
    | f :: older =>
        if sink_closed f then Exc ValueError w
        else
          (file_op >>
           modify (set_csv (Sink (sink_counter f) (sink_rows f ++ [row])
                              (sink_flushed f) false :: older))) w
    end.

(** [f.flush()]. *)
Definition flush_file : M unit :=
  fun w =>
    match csv_files w with
    | [] => Unmodelled
    | f :: older =>
        if sink_closed f then Exc ValueError w
        else
          (file_op >>
           modify (set_csv (Sink (sink_counter f) (sink_rows f)
                              (length (sink_rows f)) false :: older))) w
    end.

(** The name of the file in [current_file], by its number. *)
Definition current_file (w : world) : Z :=
  match csv_files w with f :: _ => sink_counter f | [] => file_counter w end.

Variable COMMENTS_PER_FILE : nat.

(** The branch [if current_file_comment_count >= COMMENTS_PER_FILE]. *)
Definition rotate : M unit :=
  close_file >>
  (let* w := get_state in
   print (MsgCompletedFile (current_file w) (current_file_comment_count w))) >>
  modify (fun w => set_file_counter (file_counter w + 1)%Z w) >>
  modify (set_count 0) >>
  (let* w := get_state in create_new_csv (file_counter w)).

(** The branch [if comment_detail_data]. *)
Definition record_row (comment_id : string) (row : record) : M unit :=
  writerow row >>
  flush_file >>
  modify (fun w => set_count (current_file_comment_count w + 1) w) >>
  modify (fun w => set_processed ({[comment_id]} ∪ processed_comment_ids w) w) >>
  let* w := get_state in
  when (size (processed_comment_ids w) mod 50 =? 0)%nat
    (save_processed_ids >>
     let* w := get_state in
     print (MsgProgressSaved (size (processed_comment_ids w)))).

(** One iteration of the [for] loop. *)
Definition process_comment (idx n : nat) (comment_id : string) : M unit :=
  let* w := get_state in
  if bool_decide (comment_id ∈ processed_comment_ids w) then ret tt
  else
    print (MsgGettingData comment_id idx n) >>
    when (COMMENTS_PER_FILE <=? current_file_comment_count w)%nat rotate >>
    let* comment_detail_data := get_comment_detail_data Checkpointed comment_id in
    match comment_detail_data with
    | Some ((_ :: _) as row) => record_row comment_id row
    | _ => ret tt
    end.

Fixpoint for_loop (idx n : nat) (ids : list string) : M unit :=
  match ids with
  | [] => ret tt
  | comment_id :: ids' =>
      process_comment idx n comment_id >> for_loop (S idx) n ids'
  end.

(** The [finally] block. *)
Definition drain : M unit :=
  close_file >>
  save_processed_ids >>
  let* w := get_state in
  print (MsgCompletedFile (current_file w) (current_file_comment_count w)) >>
  print (MsgTotalProcessed (size (processed_comment_ids w))) >>
  print MsgDone.

(** [try: body except KeyboardInterrupt: ... except Exception as e: ...
    finally: finalizer], with handlers that only print. *)
Definition try_except_finally (body finalizer : M unit) : M unit :=
  fun w =>
    match body w with
    | Ok _ w1 => finalizer w1
    | Exc e w1 =>
        match e with
        | KeyboardInterrupt => (print MsgInterrupted >> finalizer) w1
        | _ =>
            if is_Exception e then (print (MsgErrorOccurred e) >> finalizer) w1
            else match finalizer w1 with
                 | Ok _ w2 => Exc e w2
                 | other => other
                 end
        end
    | Unmodelled => Unmodelled
    end.

(** From the first [create_new_csv] to the end of [main]. *)
Definition fetching (comments_to_process : list string) : M unit :=
  (let* w := get_state in create_new_csv (file_counter w)) >>
  try_except_finally
    (for_loop 1 (length comments_to_process) comments_to_process)
    drain.

(** [comments_to_process], the discovered identifiers not in the set. *)
Definition to_process (comment_ids : list string) (processed : gset string)
  : list string :=
  filter (fun cid => cid ∉ processed) comment_ids.

(** [main] from [if not comment_ids] on. *)
Definition process_discovered (comment_ids : list string) : M unit :=
  match comment_ids with
  | [] => ret tt
  | _ =>
      let* w := get_state in
      let comments_to_process := to_process comment_ids (processed_comment_ids w) in
      match comments_to_process with
      | [] => print MsgNothingToDo
      | _ =>
          print (MsgToProcess (length comments_to_process) (length comment_ids)) >>
          fetching comments_to_process
      end
  end.

(** [main].  [existing] holds the numbers read off the names of the CSV
    files of this run's base name already in the directory. *)
Definition main (existing : list Z) : M unit :=
  print MsgBanner >>
  load_processed_ids >>
  modify (fun w =>
    set_file_counter
      (foldl (fun fc counter => Z.max fc (counter + 1)) (file_counter w) existing) w) >>
  let* comment_ids := get_comment_ids 250 in
  process_discovered comment_ids.

End Scripts.


(** * Properties *)

(** ** The comment record *)

(** The fields filled from an upstream attribute, with the attribute's name. *)
Definition textual_fields : list (string * string) :=
  [ ("tracking_number", "trackingNbr"); ("country", "country");
    ("state_or_province", "stateProvinceRegion"); ("zip_code", "zip");
    ("document_category", "category"); ("document_subtype", "subtype");
    ("title", "title"); ("object_id", "objectId"); ("agency_id", "agencyId");
    ("docket_id", "docketId");
    ("comment_on_document_id", "commentOnDocumentId");
    ("restrict_reason", "restrictReason");
    ("restrict_reason_type", "restrictReasonType"); ("comment", "comment") ].

Definition flag_fields : list (string * string) :=
  [ ("open_for_comment", "openForComment"); ("withdrawn", "withdrawn") ].

Definition upstream_fields : list (string * string) :=
  textual_fields ++ [("received_date", "receiveDate")] ++ flag_fields.

Definition absent_or_null (attrs : list (string * json)) (a : string) : Prop :=
  Py.assoc a attrs = None \/ Py.assoc a attrs = Some JNull.

(** The claim on optional fields, for one record: every field whose upstream
    attribute is absent or null is the empty string. *)
Definition defaults_to_empty (attrs : list (string * json)) (row : record)
  : Prop :=
  Forall (fun fa => absent_or_null attrs fa.2 ->
                    Py.assoc fa.1 row = Some (JStr "")) upstream_fields.

Lemma or_empty_of_absent_or_null attrs a :
  absent_or_null attrs a -> Py.or (Py.get attrs a) (JStr "") = JStr "".
Proof. unfold Py.get. intros [-> | ->]; reflexivity. Qed.

Lemma get_of_absent attrs a : Py.assoc a attrs = None -> Py.get attrs a = JStr "".
Proof. unfold Py.get. intros ->. reflexivity. Qed.

Lemma get_of_present attrs a x : Py.assoc a attrs = Some x -> Py.get attrs a = x.
Proof. unfold Py.get. intros ->. reflexivity. Qed.

Lemma build_record_fields repr comment_id attrs :
  (build_record repr comment_id attrs).*1 = fieldnames.
Proof. reflexivity. Qed.

Lemma build_record_textual repr comment_id attrs :
  Forall (fun fa => absent_or_null attrs fa.2 ->
            Py.assoc fa.1 (build_record repr comment_id attrs) = Some (JStr ""))
    textual_fields.
Proof.
  repeat constructor; simpl; intros H;
    rewrite (or_empty_of_absent_or_null _ _ H); reflexivity.
Qed.

Lemma build_record_absent repr comment_id attrs :
  Forall (fun fa => Py.assoc fa.2 attrs = None ->
            Py.assoc fa.1 (build_record repr comment_id attrs) = Some (JStr ""))
    upstream_fields.
Proof.
  repeat constructor; simpl; intros H;
    rewrite ?(or_empty_of_absent_or_null _ _ (or_introl H)), ?(get_of_absent _ _ H);
    reflexivity.
Qed.

Lemma build_record_flags repr comment_id attrs :
  Forall (fun fa => forall x, Py.assoc fa.2 attrs = Some x ->
            Py.assoc fa.1 (build_record repr comment_id attrs) = Some x)
    flag_fields.
Proof.
  repeat constructor; simpl; intros x H; rewrite (get_of_present _ _ _ H);
    reflexivity.
Qed.

(** What [detail_try] returns when it returns. *)
Lemma detail_try_inv repr comment_id r row :
  detail_try repr comment_id r = Val row ->
  exists content data attrs,
    body r = Some content /\
    Py.subscript content "data" = Val data /\
    Py.subscript data "attributes" = Val (JObj attrs) /\
    row = build_record repr comment_id attrs.
Proof.
  unfold detail_try, response_json. intros H.
  destruct (body r) as [content|]; [|discriminate]. simpl in H.
  destruct (Py.subscript content "data") as [data|] eqn:Hd; [|discriminate].
  simpl in H.
  destruct (Py.subscript data "attributes") as [a|] eqn:Ha; [|discriminate].
  simpl in H. destruct a; try discriminate.
  injection H as <-. eauto 10.
Qed.

(** ** The checkpoint store *)

(** The text of a checkpoint file holding [ids], one per line. *)
Definition ids_text (ids : list string) : string :=
  foldr (fun comment_id acc => comment_id +:+ nl +:+ acc) "" ids.

Lemma string_app_assoc (a b c : string) : (a +:+ b) +:+ c = a +:+ (b +:+ c).
Proof.
  induction a as [|x a IH]; [reflexivity|].
  change (String x ((a +:+ b) +:+ c) = String x (a +:+ (b +:+ c))).
  by rewrite IH.
Qed.

Lemma string_app_empty_r (a : string) : a +:+ "" = a.
Proof.
  induction a as [|x a IH]; [reflexivity|].
  change (String x (a +:+ "") = String x a). by rewrite IH.
Qed.

Lemma ids_text_app (xs ys : list string) :
  ids_text (xs ++ ys) = ids_text xs +:+ ids_text ys.
Proof.
  induction xs as [|x xs IH]; simpl; [reflexivity|].
  rewrite IH, !string_app_assoc. reflexivity.
Qed.

(** The world after a flush that met no fault. *)
Definition flushed (w : world) : world :=
  World (net w) (faults w) (processed_comment_ids w) (file_counter w)
    (current_file_comment_count w)
    (Some (ids_text (elements (processed_comment_ids w))))
    (csv_files w) (trace w ++ [EvSaveProcessedIds]).

Lemma write_ids_ok ids : forall w t,
  faults w = [] -> checkpoint_file w = Some t ->
  write_ids ids w = Ok tt (set_checkpoint (Some (t +:+ ids_text ids)) w).
Proof.
  induction ids as [|x ids IH]; intros w t Hf Hc; simpl.
  - rewrite string_app_empty_r. unfold ret.
    destruct w; simpl in *; subst; reflexivity.
  - unfold bind, file_op. rewrite Hf. unfold append_checkpoint. rewrite Hc.
    rewrite (IH _ (t +:+ x +:+ nl)); [|assumption|reflexivity].
    rewrite !string_app_assoc. reflexivity.
Qed.

Lemma save_processed_ids_ok w :
  faults w = [] -> save_processed_ids w = Ok tt (flushed w).
Proof.
  intros Hf. unfold save_processed_ids, bind, emit, file_op. simpl.
  rewrite Hf.
  rewrite (write_ids_ok _ _ ""); [reflexivity|assumption|reflexivity].
Qed.

(** Whatever the file operations do, the writes of a flush leave a prefix of
    the lines after what the file held. *)
Lemma write_ids_prefix ids : forall w t,
  checkpoint_file w = Some t ->
  match write_ids ids w with
  | Ok _ w' | Exc _ w' =>
      exists k, checkpoint_file w' = Some (t +:+ ids_text (take k ids))
  | Unmodelled => False
  end.
Proof.
  induction ids as [|x ids IH]; intros w t Hc; simpl.
  - exists 0%nat. simpl. by rewrite string_app_empty_r.
  - unfold bind at 1. unfold file_op.
    destruct (faults w) as [|[e|] fs].
    + unfold bind. unfold append_checkpoint at 1. rewrite Hc.
      specialize (IH (set_checkpoint (Some (t +:+ x +:+ nl)) w) (t +:+ x +:+ nl) eq_refl).
      destruct (write_ids ids _) as [? w'|? w'|]; [| |done];
        destruct IH as [k ->]; exists (S k); simpl;
        by rewrite !string_app_assoc.
    + exists 0%nat. simpl. by rewrite string_app_empty_r.
    + unfold bind. unfold append_checkpoint at 1. simpl. rewrite Hc.
      specialize (IH (set_checkpoint (Some (t +:+ x +:+ nl)) (set_faults fs w))
                    (t +:+ x +:+ nl) eq_refl).
      destruct (write_ids ids _) as [? w'|? w'|]; [| |done];
        destruct IH as [k ->]; exists (S k); simpl;
        by rewrite !string_app_assoc.
Qed.

(** ** The request executor *)

Definition is_success (r : response) : bool :=
  status_in successful_http_status_codes (status_code r).
Definition is_rate_limit (r : response) : bool :=
  negb (is_success r) && status_in rate_limit_status_codes (status_code r).

(** An outcome after which the loop goes on: an exception of the request or
    a status that is not a success. *)
Definition retriable (a : attempt) : bool :=
  match a with
  | ATimeout | AError => true
  | AInterrupt => false
  | AResp r => negb (is_success r)
  end.

(** A network-level failure. *)
Definition raised (a : attempt) : bool :=
  match a with ATimeout | AError => true | _ => false end.

Definition rate_limited (a : attempt) : bool :=
  match a with AResp r => is_rate_limit r | _ => false end.

(** An outcome that takes one of the [num_of_tries]. *)
Definition consumes (a : attempt) : bool :=
  retriable a && negb (rate_limited a).

Fixpoint count {A} (p : A -> bool) (l : list A) : nat :=
  match l with
  | [] => 0
  | x :: l' => (if p x then 1 else 0) + count p l'
  end.

Lemma count_app {A} (p : A -> bool) (l1 l2 : list A) :
  count p (l1 ++ l2) = count p l1 + count p l2.
Proof. induction l1 as [|x l1 IH]; simpl; [reflexivity|]. rewrite IH. lia. Qed.

(** The value of [resp] after the outcomes [pre]. *)
Definition last_obtained (resp : option response) (pre : list attempt)
  : option response :=
  foldl (fun acc a => match a with AResp r => Some r | _ => acc end) resp pre.

Definition is_request (e : event) : bool :=
  match e with EvRequest _ => true | _ => false end.
Definition is_sleep (seconds : Z) (e : event) : bool :=
  match e with EvSleep s => (s =? seconds)%Z | _ => false end.
Definition is_save (e : event) : bool :=
  match e with EvSaveProcessedIds => true | _ => false end.

(** What the executor leaves alone. *)
Definition same_store (w w' : world) : Prop :=
  faults w' = faults w /\
  processed_comment_ids w' = processed_comment_ids w /\
  file_counter w' = file_counter w /\
  current_file_comment_count w' = current_file_comment_count w /\
  csv_files w' = csv_files w.

Lemma same_store_refl w : same_store w w.
Proof. repeat split. Qed.

Lemma same_store_trans w1 w2 w3 :
  same_store w1 w2 -> same_store w2 w3 -> same_store w1 w3.
Proof. unfold same_store. intuition congruence. Qed.

(** The file after the outcomes [pre]: rewritten by the first script when a
    rate limit was met, untouched otherwise. *)
Definition checkpoint_after (v : variant) (pre : list attempt) (w : world)
  : option string :=
  match v, count rate_limited pre with
  | Checkpointed, S _ => Some (ids_text (elements (processed_comment_ids w)))
  | _, _ => checkpoint_file w
  end.

#[local] Arguments status_in : simpl never.

(** The events of [pre], met from try [num_of_try] on: as many requests as
    outcomes, one wait (and in the first script one flush) per rate limit. *)
Definition events_of (v : variant) (pre : list attempt) (evs : list event) : Prop :=
  count is_request evs = length pre /\
  count (is_sleep (rate_limit_wait_seconds v)) evs = count rate_limited pre /\
  count is_save evs =
    match v with Checkpointed => count rate_limited pre | Plain => 0 end.

Definition before_events (v : variant) (url : string) (add_random_delay : bool) (t : Z) : list event :=
  (if (1 <? t)%Z then [EvPrint (MsgTry url t)] else []) ++
  (if add_random_delay
   then match v with
        | Checkpointed => [EvRandomSleep 3 7]
        | Plain => [EvRandomSleep 5 10]
        end
   else []).

Lemma before_request_ok v url add_random_delay t w :
  before_request v url add_random_delay t w
  = Ok tt (set_trace (trace w ++ before_events v url add_random_delay t ++ [EvRequest url]) w).
Proof.
  unfold before_request, before_events, when, bind, print, emit, random_delay,
    do_sleep_range, emit.
  destruct (1 <? t)%Z, add_random_delay, v; simpl;
    rewrite <- ?app_assoc; reflexivity.
Qed.

Lemma before_events_count v url add_random_delay t :
  count is_request (before_events v url add_random_delay t) = 0 /\
  count (is_sleep (rate_limit_wait_seconds v)) (before_events v url add_random_delay t) = 0 /\
  count is_save (before_events v url add_random_delay t) = 0.
Proof.
  unfold before_events. destruct (1 <? t)%Z, add_random_delay, v; simpl; auto.
Qed.


Lemma events_of_nil v : events_of v [] [].
Proof. unfold events_of. simpl. destruct v; auto. Qed.

Lemma events_of_app v pre1 pre2 (evs1 evs2 : list event) :
  events_of v pre1 evs1 -> events_of v pre2 evs2 ->
  events_of v (pre1 ++ pre2) (evs1 ++ evs2).
Proof.
  unfold events_of. intros (H1 & H2 & H3) (H4 & H5 & H6).
  rewrite !count_app, length_app, H1, H2, H3, H4, H5, H6.
  destruct v; auto.
Qed.

Lemma checkpoint_after_cons v a pre w w2 :
  processed_comment_ids w2 = processed_comment_ids w ->
  checkpoint_file w2 = checkpoint_after v [a] w ->
  checkpoint_after v pre w2 = checkpoint_after v (a :: pre) w.
Proof.
  unfold checkpoint_after. simpl. intros Hp Hc. rewrite Hp, Hc.
  destruct v, (rate_limited a), (count rate_limited pre); reflexivity.
Qed.

(** One turn of the loop on an outcome after which it goes on: the try
    number moves by one when the outcome [consumes], and not at all on a
    rate limit, which flushes (first script) and waits instead. *)
Lemma requests_loop_step v url add_random_delay num_of_tries a script t resp w :
  faults w = [] ->
  retriable a = true ->
  (t <= num_of_tries)%Z ->
  exists w' (evs : list event),
    requests_loop v url add_random_delay num_of_tries (a :: script) t resp w
    = requests_loop v url add_random_delay num_of_tries script (t + (if consumes a then 1 else 0))%Z
        (match a with AResp r => Some r | _ => resp end) w' /\
    net w' = script /\
    same_store w w' /\
    checkpoint_file w' = checkpoint_after v [a] w /\
    trace w' = trace w ++ evs /\
    events_of v [a] evs.
Proof.
  intros Hf Ha Ht.
  assert (Hlt : (num_of_tries <? t)%Z = false) by (apply Z.ltb_ge; lia).
  cbn [requests_loop]. rewrite Hlt. unfold bind at 1. rewrite before_request_ok.
  unfold bind at 1.
  destruct (before_events_count v url add_random_delay t) as (Hb1 & Hb2 & Hb3).
  destruct a as [| | |r]; try discriminate.
  - eexists _, (before_events v url add_random_delay t ++ [EvRequest url; EvPrint (MsgTimedOut url)]).
    split; [unfold bind, print, emit; reflexivity|]. cbn.
    split; [reflexivity|]. split; [repeat split|]. split; [by destruct v|].
    split; [by rewrite <- !app_assoc|].
    unfold events_of. rewrite !count_app, Hb1, Hb2, Hb3. by destruct v.
  - eexists _, (before_events v url add_random_delay t ++ [EvRequest url; EvPrint (MsgException url)]).
    split; [unfold bind, print, emit; reflexivity|]. cbn.
    split; [reflexivity|]. split; [repeat split|]. split; [by destruct v|].
    split; [by rewrite <- !app_assoc|].
    unfold events_of. rewrite !count_app, Hb1, Hb2, Hb3. by destruct v.
  - cbn in Ha. apply negb_true_iff in Ha.
    assert (Hs : status_in successful_http_status_codes (status_code r) = false)
      by exact Ha.
    rewrite Hs.
    destruct (status_in rate_limit_status_codes (status_code r)) eqn:Hrl.
    + assert (Hirl : is_rate_limit r = true)
        by (unfold is_rate_limit; rewrite Ha, Hrl; reflexivity).
      unfold consumes. cbn [retriable rate_limited]. rewrite Ha, Hirl.
      cbn [negb andb]. rewrite Z.add_0_r.
      destruct v.
      * eexists _, (before_events Checkpointed url add_random_delay t ++
          [EvRequest url;
           EvPrint (MsgRateLimit (rate_limit_wait_seconds Checkpointed));
           EvSaveProcessedIds; EvSleep (rate_limit_wait_seconds Checkpointed)]).
        split.
        { unfold bind at 1. unfold print at 1, emit at 1. unfold bind at 1.
          rewrite save_processed_ids_ok by exact Hf.
          unfold bind, do_sleep, emit. reflexivity. }
        cbn. split; [reflexivity|]. split; [repeat split|].
        unfold checkpoint_after. cbn. rewrite Hirl. cbn.
        split; [reflexivity|]. split; [by rewrite <- !app_assoc|].
        unfold events_of. rewrite !count_app, Hb1, Hb2, Hb3. cbn.
        rewrite Hirl. cbn. auto.
      * eexists _, (before_events Plain url add_random_delay t ++
          [EvRequest url; EvPrint (MsgRateLimit (rate_limit_wait_seconds Plain));
           EvSleep (rate_limit_wait_seconds Plain)]).
        split; [unfold bind, print, do_sleep, emit, ret; reflexivity|].
        cbn. split; [reflexivity|]. split; [repeat split|].
        split; [reflexivity|]. split; [by rewrite <- !app_assoc|].
        unfold events_of. rewrite !count_app, Hb1, Hb2, Hb3. cbn.
        rewrite Hirl. cbn. auto.
    + assert (Hirl : is_rate_limit r = false)
        by (unfold is_rate_limit; rewrite Ha, Hrl; reflexivity).
      unfold consumes. cbn [retriable rate_limited]. rewrite Ha, Hirl.
      cbn [negb andb].
      eexists _, (before_events v url add_random_delay t ++
          [EvRequest url; EvPrint (MsgBadStatus (status_code r))]).
      split; [unfold bind, print, emit; reflexivity|].
      cbn. split; [reflexivity|]. split; [repeat split|].
      unfold checkpoint_after. cbn. rewrite Hirl. cbn.
      split; [by destruct v|]. split; [by rewrite <- !app_assoc|].
      unfold events_of. rewrite !count_app, Hb1, Hb2, Hb3. cbn.
      rewrite Hirl. by destruct v.
Qed.

(** The loop on a run of such outcomes: each takes a try exactly when it
    [consumes], and [resp] ends as the last response obtained. *)
Lemma requests_loop_prefix v url add_random_delay num_of_tries pre : forall rest t resp w,
  faults w = [] ->
  net w = pre ++ rest ->
  forallb retriable pre = true ->
  (t + Z.of_nat (count consumes pre) <= num_of_tries)%Z ->
  exists w' (evs : list event),
    requests_loop v url add_random_delay num_of_tries (pre ++ rest) t resp w
    = requests_loop v url add_random_delay num_of_tries rest (t + Z.of_nat (count consumes pre))%Z (last_obtained resp pre) w' /\
    net w' = rest /\
    faults w' = [] /\
    same_store w w' /\
    checkpoint_file w' = checkpoint_after v pre w /\
    trace w' = trace w ++ evs /\
    events_of v pre evs.
Proof.
  induction pre as [|a pre IH]; intros rest t resp w Hf Hn Hr Ht.
  - exists w, []. simpl. rewrite Z.add_0_r, app_nil_r.
    split; [reflexivity|]. split; [assumption|]. split; [assumption|].
    split; [apply same_store_refl|]. split; [by destruct v|].
    split; [reflexivity|apply events_of_nil].
  - simpl in Hr. apply andb_prop in Hr as [Ha Hr]. simpl in Ht.
    destruct (requests_loop_step v url add_random_delay num_of_tries a (pre ++ rest) t resp w Hf Ha)
      as (w2 & evs2 & E2 & Hn2 & Hs2 & Hc2 & Ht2 & He2); [lia|].
    assert (Hf2 : faults w2 = []) by (destruct Hs2 as [-> _]; exact Hf).
    destruct (IH rest (t + (if consumes a then 1 else 0))%Z
                (match a with AResp r => Some r | _ => resp end) w2 Hf2 Hn2 Hr)
      as (w3 & evs3 & E3 & Hn3 & Hf3 & Hs3 & Hc3 & Ht3 & He3).
    { destruct (consumes a); lia. }
    exists w3, (evs2 ++ evs3).
    split.
    { simpl app. rewrite E2, E3. simpl.
      replace (t + (if consumes a then 1 else 0) + Z.of_nat (count consumes pre))%Z
        with (t + Z.of_nat ((if consumes a then 1 else 0) + count consumes pre))%Z
        by (destruct (consumes a); lia).
      reflexivity. }
    split; [assumption|]. split; [assumption|].
    split; [eapply same_store_trans; eassumption|].
    split.
    { rewrite Hc3. apply checkpoint_after_cons; [apply Hs2|exact Hc2]. }
    split; [by rewrite Ht3, Ht2, app_assoc|].
    apply (events_of_app v [a] pre); assumption.
Qed.


Lemma requests_loop_break v url delay n script t resp w :
  (n < t)%Z -> requests_loop v url delay n script t resp w = Ok resp w.
Proof.
  intros Ht. destruct script as [|a script]; simpl.
  - replace (Z.to_nat (n + 1 - t)) with 0%nat by lia. reflexivity.
  - assert (E : (n <? t)%Z = true) by (apply Z.ltb_lt; lia). by rewrite E.
Qed.

(** A success status ends the loop at once. *)
Lemma requests_loop_success v url delay n r script t resp w :
  (t <= n)%Z ->
  is_success r = true ->
  requests_loop v url delay n (AResp r :: script) t resp w
  = Ok (Some r)
      (set_net script
         (set_trace (trace w ++ before_events v url delay t ++ [EvRequest url]) w)).
Proof.
  intros Ht Hs.
  assert (Hlt : (n <? t)%Z = false) by (apply Z.ltb_ge; lia).
  cbn [requests_loop]. rewrite Hlt. unfold bind at 1. rewrite before_request_ok.
  unfold bind at 1. unfold is_success in Hs. rewrite Hs. reflexivity.
Qed.

Lemma last_obtained_app resp pre a :
  last_obtained resp (pre ++ [a])
  = match a with AResp r => Some r | _ => last_obtained resp pre end.
Proof. unfold last_obtained. rewrite foldl_app. reflexivity. Qed.

Lemma last_obtained_raised pre : forall resp,
  forallb raised pre = true -> last_obtained resp pre = resp.
Proof.
  induction pre as [|a pre IH]; intros resp H; [reflexivity|].
  simpl in H. apply andb_prop in H as [Ha H].
  destruct a; try discriminate; simpl; auto.
Qed.

Lemma forallb_app_true {A} (p : A -> bool) l1 l2 :
  forallb p (l1 ++ l2) = true -> forallb p l1 = true /\ forallb p l2 = true.
Proof. rewrite forallb_app. apply andb_prop. Qed.

(** What the executor returns, and the world it leaves. *)
Lemma executor_outcome v url delay n w pre last rest :
  (1 <= n)%Z ->
  faults w = [] ->
  net w = pre ++ last :: rest ->
  forallb retriable pre = true ->
  (match last with AResp r => is_success r | _ => false end = true /\
   (Z.of_nat (count consumes pre) < n)%Z) \/
  (consumes last = true /\ (Z.of_nat (count consumes pre) + 1 = n)%Z) ->
  exists w' (evs : list event),
    get_requests_response v url delay n w
    = Ok (last_obtained None (pre ++ [last])) w' /\
    net w' = rest /\
    faults w' = [] /\
    trace w' = trace w ++ evs /\
    count is_request evs = S (length pre) /\
    (forall r, last = AResp r -> is_success r = true ->
       last_obtained None (pre ++ [last]) = Some r) /\
    (forallb raised (pre ++ [last]) = true ->
       last_obtained None (pre ++ [last]) = None).
Proof.
  intros Hn Hf Hnet Hpre Hlast.
  assert (Hfacts :
    (forall r, last = AResp r -> is_success r = true ->
       last_obtained None (pre ++ [last]) = Some r) /\
    (forallb raised (pre ++ [last]) = true ->
       last_obtained None (pre ++ [last]) = None)).
  { split.
    - intros r -> _. by rewrite last_obtained_app.
    - intros H. by apply last_obtained_raised. }
  unfold get_requests_response.
  assert (E1 : (n <? 1)%Z = false) by (apply Z.ltb_ge; lia). rewrite E1, Hnet.
  destruct Hlast as [[Hs Hc] | [Hc Hc']].
  - destruct last as [| | |r]; try discriminate.
    destruct (requests_loop_prefix v url delay n pre (AResp r :: rest) 1 None w
                Hf Hnet Hpre) as (w1 & evs & E & Hn1 & Hf1 & Hs1 & Hc1 & Ht1 & He1);
      [lia|].
    rewrite E, requests_loop_success by (assumption || lia).
    eexists _, (evs ++ before_events v url delay _ ++ [EvRequest url]).
    split; [by rewrite last_obtained_app|]. cbn.
    split; [reflexivity|]. split; [exact Hf1|].
    split; [by rewrite Ht1, <- app_assoc|].
    split; [|exact Hfacts].
    destruct He1 as (He1 & _).
    destruct (before_events_count v url delay (1 + Z.of_nat (count consumes pre)))
      as (Hb & _).
    rewrite !count_app, He1, Hb. simpl. lia.
  - assert (Hr : retriable last = true).
    { unfold consumes in Hc. by apply andb_prop in Hc as [-> _]. }
    destruct (requests_loop_prefix v url delay n pre (last :: rest) 1 None w
                Hf Hnet Hpre) as (w1 & evs & E & Hn1 & Hf1 & Hs1 & Hc1 & Ht1 & He1);
      [lia|].
    destruct (requests_loop_step v url delay n last rest
                (1 + Z.of_nat (count consumes pre)) (last_obtained None pre) w1
                Hf1 Hr)
      as (w2 & evs2 & E2 & Hn2 & Hs2 & Hc2 & Ht2 & He2); [lia|].
    rewrite E, E2, Hc, requests_loop_break by lia.
    exists w2, (evs ++ evs2).
    split; [by rewrite last_obtained_app|]. split; [assumption|].
    split; [by destruct Hs2 as [-> _]|].
    split; [by rewrite Ht2, Ht1, app_assoc|]. split; [|exact Hfacts].
    destruct He1 as (He1 & _), He2 as (He2 & _).
    rewrite count_app, He1, He2. simpl. lia.
Qed.

(** C3.  With [num_of_tries >= 1] and outcomes [pre] after each of which the
    loop goes on, the executor takes one try per raised request or
    non-success, non-rate-limit status ([consumes]) and none otherwise: it
    returns on the first success met while tries are left, or right after
    the outcome that takes the last try, in both cases without a further
    request; what it returns is the last response obtained, the success
    itself in the first case and [None] when every request raised. *)
Theorem executor_attempt_budget v url delay n w pre last rest :
  (1 <= n)%Z ->
  faults w = [] ->
  net w = pre ++ last :: rest ->
  forallb retriable pre = true ->
  (match last with AResp r => is_success r | _ => false end = true /\
   (Z.of_nat (count consumes pre) < n)%Z) \/
  (consumes last = true /\ (Z.of_nat (count consumes pre) + 1 = n)%Z) ->
  exists w' (evs : list event),
    get_requests_response v url delay n w
    = Ok (last_obtained None (pre ++ [last])) w' /\
    net w' = rest /\
    trace w' = trace w ++ evs /\
    count is_request evs = S (length pre) /\
    (forall r, last = AResp r -> is_success r = true ->
       last_obtained None (pre ++ [last]) = Some r) /\
    (forallb raised (pre ++ [last]) = true ->
       last_obtained None (pre ++ [last]) = None).
Proof.
  intros Hn Hf Hnet Hpre Hlast.
  destruct (executor_outcome v url delay n w pre last rest Hn Hf Hnet Hpre Hlast)
    as (w' & evs & H1 & H2 & _ & H3).
  exists w', evs. auto.
Qed.

Lemma replicate_rate_limited k r :
  is_rate_limit r = true ->
  forallb retriable (replicate k (AResp r)) = true /\
  count consumes (replicate k (AResp r)) = 0 /\
  count rate_limited (replicate k (AResp r)) = k.
Proof.
  intros H.
  assert (Hs : is_success r = false).
  { unfold is_rate_limit in H. apply andb_prop in H as [H _].
    by apply negb_true_iff in H. }
  induction k as [|k (IH1 & IH2 & IH3)]; [done|].
  simpl. unfold consumes. simpl. rewrite Hs, H, IH1, IH3. simpl.
  split; [done|]. split; [|done]. exact IH2.
Qed.

(** The events of one rate-limited turn, after the request: the message,
    the flush in the first script, the wait. *)
Definition rate_limit_events (v : variant) : list event :=
  [EvPrint (MsgRateLimit (rate_limit_wait_seconds v))] ++
  match v with Checkpointed => [EvSaveProcessedIds] | Plain => [] end ++
  [EvSleep (rate_limit_wait_seconds v)].

(** C1.  A rate-limit status takes no try: the turn that meets it prints,
    flushes the checkpoint in the first script, sleeps
    [rate_limit_wait_seconds] and goes round again with the same try number.
    So after any number [k] of rate-limited responses the executor returns
    the success that follows, whatever [num_of_tries >= 1] is: [k + 1]
    requests, [k] waits; with [k = 2] this is the sequence 429, 429, 200. *)
Theorem rate_limit_takes_no_try v url delay n w k r r' rest :
  (1 <= n)%Z ->
  faults w = [] ->
  is_rate_limit r = true ->
  is_success r' = true ->
  net w = replicate k (AResp r) ++ AResp r' :: rest ->
  (forall script t resp w1,
     faults w1 = [] -> (t <= n)%Z ->
     exists w2,
       requests_loop v url delay n (AResp r :: script) t resp w1
       = requests_loop v url delay n script t (Some r) w2 /\
       trace w2 = trace w1 ++ before_events v url delay t ++ [EvRequest url]
                  ++ rate_limit_events v /\
       checkpoint_file w2 =
         match v with
         | Checkpointed => Some (ids_text (elements (processed_comment_ids w1)))
         | Plain => checkpoint_file w1
         end) /\
  exists w' (evs : list event),
    get_requests_response v url delay n w = Ok (Some r') w' /\
    net w' = rest /\
    trace w' = trace w ++ evs /\
    count is_request evs = S k /\
    count (is_sleep (rate_limit_wait_seconds v)) evs = k /\
    count is_save evs = match v with Checkpointed => k | Plain => 0 end /\
    checkpoint_file w' = checkpoint_after v (replicate k (AResp r)) w.
Proof.
  intros Hn Hf Hr Hs' Hnet.
  assert (Hs : status_in successful_http_status_codes (status_code r) = false).
  { unfold is_rate_limit in Hr. apply andb_prop in Hr as [H _].
    by apply negb_true_iff in H. }
  assert (Hrl : status_in rate_limit_status_codes (status_code r) = true).
  { unfold is_rate_limit in Hr. by apply andb_prop in Hr as [_ H]. }
  split.
  - intros script t resp w1 Hf1 Ht.
    assert (Hlt : (n <? t)%Z = false) by (apply Z.ltb_ge; lia).
    cbn [requests_loop]. rewrite Hlt. unfold bind at 1.
    rewrite before_request_ok. unfold bind at 1. rewrite Hs, Hrl.
    destruct v.
    + eexists. split.
      { unfold bind at 1. unfold print at 1, emit at 1. unfold bind at 1.
        rewrite save_processed_ids_ok by exact Hf1.
        unfold bind, do_sleep, emit. reflexivity. }
      cbn. split; [|reflexivity]. by rewrite <- !app_assoc.
    + eexists. split; [unfold bind, print, do_sleep, emit, ret; reflexivity|].
      cbn. split; [|reflexivity]. by rewrite <- !app_assoc.
  - destruct (replicate_rate_limited k r Hr) as (H1 & H2 & H3).
    unfold get_requests_response.
    assert (E1 : (n <? 1)%Z = false) by (apply Z.ltb_ge; lia). rewrite E1, Hnet.
    destruct (requests_loop_prefix v url delay n (replicate k (AResp r))
                (AResp r' :: rest) 1 None w Hf Hnet H1)
      as (w1 & evs & E & Hn1 & Hf1 & Hs1 & Hc1 & Ht1 & He1 & He2 & He3);
      [rewrite H2; lia|].
    rewrite E, requests_loop_success by (assumption || rewrite H2; lia).
    eexists _, (evs ++ before_events v url delay _ ++ [EvRequest url]).
    split; [reflexivity|]. cbn. split; [reflexivity|].
    split; [by rewrite Ht1, <- app_assoc|].
    destruct (before_events_count v url delay
                (1 + Z.of_nat (count consumes (replicate k (AResp r)))))
      as (Hb1 & Hb2 & Hb3).
    rewrite !count_app, He1, He2, He3, Hb1, Hb2, Hb3, H3, length_replicate.
    simpl. split; [lia|]. split; [lia|]. split; [destruct v; lia|exact Hc1].
Qed.

(** ** The checkpoint store: the flush *)

(** Whatever the file operations do, a flush leaves the file as it was (the
    [open] failed) or holding a prefix of the lines. *)
Lemma flush_interrupted_leaves_prefix w :
  match save_processed_ids w with
  | Ok _ w' | Exc _ w' =>
      checkpoint_file w' = checkpoint_file w \/
      exists k,
        checkpoint_file w'
        = Some (ids_text (take k (elements (processed_comment_ids w))))
  | Unmodelled => False
  end.
Proof.
  unfold save_processed_ids, bind, emit, file_op. simpl.
  destruct (faults w) as [|[e|] fs]; simpl.
  - pose proof (write_ids_prefix (elements (processed_comment_ids w))
      (set_checkpoint (Some "") (set_trace (trace w ++ [EvSaveProcessedIds]) w))
      "" eq_refl) as H.
    simpl in H. destruct (write_ids _ _) as [? w'|? w'|]; [| |done];
      destruct H as [k H]; right; exists k; exact H.
  - by left.
  - pose proof (write_ids_prefix (elements (processed_comment_ids w))
      (set_checkpoint (Some "")
         (set_faults fs (set_trace (trace w ++ [EvSaveProcessedIds]) w)))
      "" eq_refl) as H.
    simpl in H. destruct (write_ids _ _) as [? w'|? w'|]; [| |done];
      destruct H as [k H]; right; exists k; exact H.
Qed.

(** C6, as amended.  A flush that runs to its end leaves the file holding
    exactly the identifiers of the in-memory set, each once, one per line,
    in the order the set yields them; it does not change the set, and a
    second flush leaves the same file. *)
Theorem flush_writes_the_set w :
  faults w = [] ->
  exists w1 w2,
    save_processed_ids w = Ok tt w1 /\
    checkpoint_file w1 = Some (ids_text (elements (processed_comment_ids w))) /\
    NoDup (elements (processed_comment_ids w)) /\
    (forall comment_id,
       comment_id ∈ elements (processed_comment_ids w) <->
       comment_id ∈ processed_comment_ids w) /\
    processed_comment_ids w1 = processed_comment_ids w /\
    save_processed_ids w1 = Ok tt w2 /\
    checkpoint_file w2 = checkpoint_file w1.
Proof.
  intros Hf. exists (flushed w), (flushed (flushed w)).
  split; [by apply save_processed_ids_ok|].
  split; [reflexivity|]. split; [apply NoDup_elements|].
  split; [intros x; apply elem_of_elements|].
  split; [reflexivity|].
  split; [by apply save_processed_ids_ok|reflexivity].
Qed.

(** ** The detail fetch *)

(** A record the detail fetch returns is built from an [attributes] dict. *)
Lemma detail_fetch_returns_built_record repr v comment_id w row w' :
  get_comment_detail_data repr v comment_id w = Ok (Some row) w' ->
  exists attrs, row = build_record repr comment_id attrs.
Proof.
  intros H.
  assert (Hr : exists r, detail_try repr comment_id r = Val row).
  { unfold get_comment_detail_data in H.
    destruct v; unfold bind at 1 in H; unfold do_sleep_range, emit in H;
      unfold bind in H;
      destruct (get_requests_response _ _ _ _ _) as [[r|] w1|e w1|];
      try discriminate.
    - destruct (response_ok r); [|discriminate].
      unfold detail_of_response in H.
      destruct (detail_try repr comment_id r) as [rec|e] eqn:E.
      + injection H as <- _. eauto.
      + destruct (caught e); discriminate.
    - unfold detail_of_response in H.
      destruct (detail_try repr comment_id r) as [rec|e] eqn:E.
      + injection H as <- _. eauto.
      + destruct (caught e); discriminate. }
  destruct Hr as [r Hr].
  apply detail_try_inv in Hr as (content & data & attrs & _ & _ & _ & ->).
  by exists attrs.
Qed.

(** C10, as amended.  A record returned by the detail fetch of either script
    is built from the [attributes] dict of a response and holds the 19
    fields of the CSV header in order; a field read with [or ""] is the
    empty string when its attribute is absent or null; every field read from
    an attribute is the empty string when the attribute is absent;
    [open_for_comment] and [withdrawn] hold the attribute's value as it is
    when it is present, null included. *)
Theorem record_has_every_field repr v comment_id w row w' :
  get_comment_detail_data repr v comment_id w = Ok (Some row) w' ->
  exists attrs,
    row = build_record repr comment_id attrs /\
    row.*1 = fieldnames /\
    Forall (fun fa => absent_or_null attrs fa.2 ->
                      Py.assoc fa.1 row = Some (JStr "")) textual_fields /\
    Forall (fun fa => Py.assoc fa.2 attrs = None ->
                      Py.assoc fa.1 row = Some (JStr "")) upstream_fields /\
    Forall (fun fa => forall x, Py.assoc fa.2 attrs = Some x ->
                      Py.assoc fa.1 row = Some x) flag_fields.
Proof.
  intros H.
  apply detail_fetch_returns_built_record in H as [attrs ->].
  exists attrs. split; [reflexivity|].
  split; [apply build_record_fields|].
  split; [apply build_record_textual|].
  split; [apply build_record_absent|apply build_record_flags].
Qed.

(** C7, at the input on which the second script fails: when both requests of
    the detail fetch raise, the executor returns [None] and
    [get_comment_detail_data] raises [AttributeError] where the first script
    returns [None]. *)
Theorem plain_detail_fetch_raises_without_response
    repr comment_id w a1 a2 rest :
  net w = a1 :: a2 :: rest ->
  raised a1 = true ->
  raised a2 = true ->
  exists w', get_comment_detail_data repr Plain comment_id w
             = Exc AttributeError w'.
Proof.
  intros Hnet H1 H2. unfold get_comment_detail_data.
  unfold bind at 1. unfold do_sleep_range, emit.
  unfold bind, get_requests_response. cbn. rewrite Hnet.
  destruct a1; try discriminate; destruct a2; try discriminate;
    destruct rest; cbn; eexists; reflexivity.
Qed.

(** ** A program logic for the scripts *)

(** [wp m Q E w]: run from [w], [m] returns [a] in a world with [Q a], or
    raises [e] in a world with [E e]; it does not leave the model. *)
Definition wp {A} (m : M A) (Q : A -> world -> Prop) (E : exn -> world -> Prop)
    (w : world) : Prop :=
  match m w with
  | Ok a w' => Q a w'
  | Exc e w' => E e w'
  | Unmodelled => False
  end.

Lemma wp_ret {A} (a : A) Q E w : Q a w -> wp (ret a) Q E w.
Proof. done. Qed.

Lemma wp_raise {A} e (Q : A -> world -> Prop) E w : E e w -> wp (raise e) Q E w.
Proof. done. Qed.

Lemma wp_bind {A B} (m : M A) (k : A -> M B) Q E w :
  wp m (fun a => wp (k a) Q E) E w -> wp (bind m k) Q E w.
Proof. unfold wp, bind. by destruct (m w). Qed.

Lemma wp_conseq {A} (m : M A) (Q Q' : A -> world -> Prop) (E E' : exn -> world -> Prop) w :
  wp m Q E w ->
  (forall a w', Q a w' -> Q' a w') ->
  (forall e w', E e w' -> E' e w') ->
  wp m Q' E' w.
Proof. unfold wp. destruct (m w); auto. Qed.

Lemma wp_emit ev Q E w :
  Q tt (set_trace (trace w ++ [ev]) w) -> wp (emit ev) Q E w.
Proof. done. Qed.

Lemma wp_modify f Q E w : Q tt (f w) -> wp (modify f) Q E w.
Proof. done. Qed.

Lemma wp_get_state Q E w : Q w w -> wp get_state Q E w.
Proof. done. Qed.

Lemma wp_when b m Q E w :
  (b = true -> wp m Q E w) -> (b = false -> Q tt w) -> wp (when b m) Q E w.
Proof. destruct b; simpl; intros H1 H2; [by apply H1|by apply H2]. Qed.

Lemma wp_file_op Q E w :
  (forall fs, Q tt (set_faults fs w)) ->
  (forall e fs, E e (set_faults fs w)) ->
  Q tt w ->
  wp file_op Q E w.
Proof.
  intros HQ HE Hw. unfold wp, file_op. destruct (faults w) as [|[e|] fs]; auto.
Qed.

(** What only [main] itself changes: the set, the CSV files and the two
    counters. *)
Definition keeps (w w' : world) : Prop :=
  processed_comment_ids w' = processed_comment_ids w /\
  csv_files w' = csv_files w /\
  current_file_comment_count w' = current_file_comment_count w /\
  file_counter w' = file_counter w.

Definition framed {A} (m : M A) : Prop :=
  forall w, wp m (fun _ => keeps w) (fun _ => keeps w) w.

Lemma keeps_refl w : keeps w w.
Proof. by repeat split. Qed.

Lemma keeps_trans w1 w2 w3 : keeps w1 w2 -> keeps w2 w3 -> keeps w1 w3.
Proof. unfold keeps. intuition congruence. Qed.

Lemma framed_ret {A} (a : A) : framed (ret a).
Proof. intros w. apply keeps_refl. Qed.

Lemma framed_raise {A} e : framed (@raise A e).
Proof. intros w. apply keeps_refl. Qed.

Lemma framed_bind {A B} (m : M A) (k : A -> M B) :
  framed m -> (forall a, framed (k a)) -> framed (bind m k).
Proof.
  intros Hm Hk w. apply wp_bind.
  eapply wp_conseq; [apply Hm| |].
  - intros a w' Hw'. simpl.
    eapply wp_conseq; [apply (Hk a w')| |]; simpl.
    + intros b w'' Hw''. exact (keeps_trans _ _ _ Hw' Hw'').
    + intros e w'' Hw''. exact (keeps_trans _ _ _ Hw' Hw'').
  - intros e w' Hw'. exact Hw'.
Qed.

Lemma framed_emit ev : framed (emit ev).
Proof. by intros w. Qed.

Lemma framed_when b m : framed m -> framed (when b m).
Proof. destruct b; [done|]. intros _. apply framed_ret. Qed.

Lemma framed_file_op : framed file_op.
Proof. intros w. by apply wp_file_op. Qed.

Lemma framed_write_ids ids : framed (write_ids ids).
Proof.
  induction ids as [|x ids IH]; [apply framed_ret|].
  simpl. apply framed_bind; [apply framed_file_op|]. intros _.
  apply framed_bind; [|done]. by intros w.
Qed.

Lemma framed_save_processed_ids : framed save_processed_ids.
Proof.
  unfold save_processed_ids.
  apply framed_bind; [apply framed_emit|]. intros _.
  apply framed_bind; [apply framed_file_op|]. intros _.
  apply framed_bind; [by intros w|]. intros _.
  intros w. apply framed_write_ids.
Qed.

Lemma framed_before_request v url delay t : framed (before_request v url delay t).
Proof.
  unfold before_request.
  apply framed_bind; [apply framed_when, framed_emit|]. intros _.
  apply framed_bind; [|intros _; apply framed_emit].
  apply framed_when. destruct v; apply framed_emit.
Qed.

Lemma framed_offline_loop v url delay left : forall t resp,
  framed (offline_loop v url delay left t resp).
Proof.
  induction left as [|left IH]; intros t resp; [apply framed_ret|].
  simpl. apply framed_bind; [apply framed_before_request|]. intros _.
  apply framed_bind; [apply framed_emit|]. intros _. apply IH.
Qed.

Lemma framed_requests_loop v url delay n script : forall t resp,
  framed (requests_loop v url delay n script t resp).
Proof.
  induction script as [|a script IH]; intros t resp.
  - apply framed_offline_loop.
  - simpl. destruct (n <? t)%Z; [apply framed_ret|].
    apply framed_bind; [apply framed_before_request|]. intros _.
    apply framed_bind; [by intros w|]. intros _.
    destruct a as [| | |r].
    + apply framed_bind; [apply framed_emit|]. intros _. apply IH.
    + apply framed_bind; [apply framed_emit|]. intros _. apply IH.
    + apply framed_raise.
    + destruct (status_in successful_http_status_codes (status_code r));
        [apply framed_ret|].
      destruct (status_in rate_limit_status_codes (status_code r)).
      * apply framed_bind; [apply framed_emit|]. intros _.
        apply framed_bind;
          [destruct v; [apply framed_save_processed_ids|apply framed_ret]|].
        intros _. apply framed_bind; [apply framed_emit|]. intros _. apply IH.
      * apply framed_bind; [apply framed_emit|]. intros _. apply IH.
Qed.

Lemma framed_get_requests_response v url delay n :
  framed (get_requests_response v url delay n).
Proof.
  unfold get_requests_response. destruct (n <? 1)%Z; [apply framed_raise|].
  intros w. apply framed_requests_loop.
Qed.

Lemma framed_detail_of_response repr comment_id r :
  framed (detail_of_response repr comment_id r).
Proof.
  unfold detail_of_response. destruct (detail_try repr comment_id r) as [rec|e].
  - apply framed_ret.
  - destruct (caught e); [|apply framed_raise].
    apply framed_bind; [apply framed_emit|]. intros _. apply framed_ret.
Qed.

Lemma framed_get_comment_detail_data repr v comment_id :
  framed (get_comment_detail_data repr v comment_id).
Proof.
  unfold get_comment_detail_data. destruct v.
  - apply framed_bind; [apply framed_emit|]. intros _.
    apply framed_bind; [apply framed_get_requests_response|]. intros [r|].
    + destruct (response_ok r); [apply framed_detail_of_response|].
      apply framed_bind; [apply framed_emit|]. intros _. apply framed_ret.
    + apply framed_bind; [apply framed_emit|]. intros _. apply framed_ret.
  - apply framed_bind; [apply framed_emit|]. intros _.
    apply framed_bind; [apply framed_get_requests_response|]. intros [r|].
    + apply framed_detail_of_response.
    + apply framed_raise.
Qed.

(** ** The fetching loop: what every run keeps *)

Definition row_id (row : record) : option json := Py.assoc "comment_id" row.

(** The rows of a file that are on the disk. *)
Definition durable_rows (f : sink) : list record :=
  take (sink_flushed f) (sink_rows f).

(** Some file holds a row of [comment_id] among its rows [P]. *)
Definition has_row (P : sink -> list record) (comment_id : string)
    (files : list sink) : Prop :=
  exists f row, f ∈ files /\ row ∈ P f /\ row_id row = Some (JStr comment_id).

Definition fully_flushed (f : sink) : Prop :=
  sink_flushed f = length (sink_rows f).

(** Between two iterations of the loop started with the set [C]: [f] is
    there, the older files are closed, every row written is on the disk, and
    the set holds [C] and the identifiers of the rows. *)
Definition between_iterations (C : gset string) (w : world) : Prop :=
  csv_files w <> [] /\
  Forall (fun f => sink_closed f = true) (tail (csv_files w)) /\
  Forall fully_flushed (csv_files w) /\
  (forall comment_id,
     comment_id ∈ processed_comment_ids w <->
     comment_id ∈ C \/ has_row sink_rows comment_id (csv_files w)).

(** Wherever the loop is left: the set holds [C] and the identifiers of the
    rows on the disk. *)
Definition at_exit (C : gset string) (w : world) : Prop :=
  csv_files w <> [] /\
  Forall (fun f => sink_closed f = true) (tail (csv_files w)) /\
  (forall comment_id,
     comment_id ∈ processed_comment_ids w <->
     comment_id ∈ C \/ has_row durable_rows comment_id (csv_files w)).

Lemma has_row_cons P comment_id f files :
  has_row P comment_id (f :: files) <->
  (exists row, row ∈ P f /\ row_id row = Some (JStr comment_id)) \/
  has_row P comment_id files.
Proof.
  unfold has_row. split.
  - intros (g & row & Hg & Hrow & Hid). apply elem_of_cons in Hg as [->|Hg].
    + left. eauto.
    + right. eauto.
  - intros [(row & Hrow & Hid) | (g & row & Hg & Hrow & Hid)].
    + exists f, row. split; [apply elem_of_cons; by left|done].
    + exists g, row. split; [apply elem_of_cons; by right|done].
Qed.

Lemma has_row_ext P1 P2 comment_id files :
  Forall (fun f => P1 f = P2 f) files ->
  has_row P1 comment_id files <-> has_row P2 comment_id files.
Proof.
  induction 1 as [|f files Hf _ IH].
  - unfold has_row. split; intros (g & row & Hg & _); by apply elem_of_nil in Hg.
  - rewrite !has_row_cons, IH, Hf. reflexivity.
Qed.

Lemma durable_rows_fully_flushed f : fully_flushed f -> durable_rows f = sink_rows f.
Proof. unfold fully_flushed, durable_rows. intros ->. apply firstn_all. Qed.

Lemma between_iterations_at_exit C w : between_iterations C w -> at_exit C w.
Proof.
  intros (H1 & H2 & H3 & H4). split; [done|]. split; [done|].
  intros x. rewrite H4. apply or_iff_compat_l. symmetry.
  apply has_row_ext. eapply Forall_impl; [exact H3|].
  intros f. apply durable_rows_fully_flushed.
Qed.

Lemma between_iterations_keeps C w w' :
  keeps w w' -> between_iterations C w -> between_iterations C w'.
Proof.
  unfold keeps, between_iterations. intros (-> & -> & _ & _). done.
Qed.

Lemma wp_framed {A} (m : M A) Q E w :
  framed m ->
  (forall a w', keeps w w' -> Q a w') ->
  (forall e w', keeps w w' -> E e w') ->
  wp m Q E w.
Proof. intros Hm HQ HE. eapply wp_conseq; [apply Hm|exact HQ|exact HE]. Qed.

Lemma wp_get_comment_detail_data repr comment_id w :
  wp (get_comment_detail_data repr Checkpointed comment_id)
    (fun o w' => keeps w w' /\
       forall row, o = Some row ->
         row <> [] /\ row_id row = Some (JStr comment_id))
    (fun _ w' => keeps w w') w.
Proof.
  pose proof (framed_get_comment_detail_data repr Checkpointed comment_id w) as H.
  unfold wp in *.
  destruct (get_comment_detail_data repr Checkpointed comment_id w)
    as [o w'|e w'|] eqn:E; [|done|done].
  split; [done|]. intros row ->.
  apply detail_fetch_returns_built_record in E as [attrs ->]. done.
Qed.

Lemma between_iterations_same C w w' :
  processed_comment_ids w' = processed_comment_ids w ->
  csv_files w' = csv_files w ->
  between_iterations C w -> between_iterations C w'.
Proof. unfold between_iterations. intros -> ->. done. Qed.

Lemma at_exit_same C w w' :
  processed_comment_ids w' = processed_comment_ids w ->
  csv_files w' = csv_files w ->
  at_exit C w -> at_exit C w'.
Proof. unfold at_exit. intros -> ->. done. Qed.

Definition all_closed (w : world) : Prop :=
  Forall (fun f => sink_closed f = true) (csv_files w).

Lemma wp_close_file C w :
  between_iterations C w ->
  wp close_file
    (fun _ w' => between_iterations C w' /\ all_closed w')
    (fun _ w' => at_exit C w' /\ all_closed w') w.
Proof.
  intros HI. pose proof HI as (H1 & H2 & H3 & H4).
  unfold wp, close_file, all_closed.
  destruct (csv_files w) as [|f older] eqn:Hcsv; [done|].
  simpl in H2. apply Forall_cons in H3 as [H3 H3'].
  destruct (sink_closed f) eqn:Hcl.
  { split; [done|]. rewrite Hcsv. by constructor. }
  assert (Hnew : forall w1,
    processed_comment_ids w1 = processed_comment_ids w ->
    between_iterations C
      (set_csv (Sink (sink_counter f) (sink_rows f) (length (sink_rows f)) true
                  :: older) w1)).
  { intros w1 Hp. split; [done|]. split; [done|]. split.
    - constructor; [reflexivity|done].
    - intros x. simpl. rewrite Hp, H4, !has_row_cons. reflexivity. }
  assert (Hold : forall w1,
    processed_comment_ids w1 = processed_comment_ids w ->
    at_exit C
      (set_csv (Sink (sink_counter f) (sink_rows f) (sink_flushed f) true
                  :: older) w1)).
  { intros w1 Hp. split; [done|]. split; [done|].
    intros x. simpl. rewrite Hp, H4, !has_row_cons.
    unfold durable_rows at 1. simpl. fold (durable_rows f).
    rewrite (durable_rows_fully_flushed f H3).
    apply or_iff_compat_l, or_iff_compat_l, has_row_ext.
    eapply Forall_impl; [exact H3'|]. intros g Hg.
    symmetry. by apply durable_rows_fully_flushed. }
  unfold file_op. destruct (faults w) as [|[e|] fs]; simpl;
    (split; [by (apply Hnew || apply Hold)|by constructor]).
Qed.

Lemma wp_create_new_csv C counter w :
  between_iterations C w ->
  all_closed w ->
  wp (create_new_csv counter)
    (fun _ w' => between_iterations C w') (fun _ w' => at_exit C w') w.
Proof.
  intros HI Hcl. pose proof HI as (H1 & H2 & H3 & H4).
  assert (Hnew : forall w1,
    processed_comment_ids w1 = processed_comment_ids w ->
    csv_files w1 = csv_files w ->
    between_iterations C (set_csv (Sink counter [] 0 false :: csv_files w1) w1)).
  { intros w1 Hp Hc. split; [done|]. simpl. rewrite Hc. split; [exact Hcl|].
    split; [by constructor|].
    intros x. rewrite Hp, H4, has_row_cons. split; [tauto|].
    intros [?|[(row & Hrow & _)|?]]; [tauto| |tauto].
    by apply elem_of_nil in Hrow. }
  unfold create_new_csv. apply wp_bind, wp_emit, wp_bind, wp_file_op.
  - intros fs. apply wp_modify. by apply Hnew.
  - intros e fs. apply between_iterations_at_exit.
    eapply between_iterations_same; [| |exact HI]; reflexivity.
  - apply wp_modify. by apply Hnew.
Qed.

Lemma wp_rotate C w :
  between_iterations C w ->
  wp rotate (fun _ w' => between_iterations C w') (fun _ w' => at_exit C w') w.
Proof.
  intros HI. unfold rotate. apply wp_bind.
  eapply wp_conseq; [by apply wp_close_file| |by intros e w' [? _]].
  intros _ w1 [HI1 Hcl1]. simpl.
  apply wp_bind, wp_bind, wp_get_state, wp_emit, wp_bind, wp_modify, wp_bind,
    wp_modify, wp_bind, wp_get_state.
  apply wp_create_new_csv.
  - eapply between_iterations_same; [| |exact HI1]; reflexivity.
  - exact Hcl1.
Qed.

Lemma wp_record_row C comment_id row w :
  between_iterations C w ->
  row_id row = Some (JStr comment_id) ->
  wp (record_row comment_id row)
    (fun _ w' => between_iterations C w') (fun _ w' => at_exit C w') w.
Proof.
  intros HI Hid. pose proof HI as (H1 & H2 & H3 & H4).
  pose proof (between_iterations_at_exit C w HI) as HE.
  unfold record_row. apply wp_bind.
  unfold wp at 1. unfold writerow.
  destruct (csv_files w) as [|f older] eqn:Hcsv; [done|].
  destruct (sink_closed f) eqn:Hcl; [exact HE|].
  apply Forall_cons in H3 as [H3 H3']. simpl in H2.
  (* the world once the row is written, whatever became of the faults *)
  assert (Hwritten : forall w1,
    processed_comment_ids w1 = processed_comment_ids w ->
    wp (flush_file >>
        modify (fun w => set_count (current_file_comment_count w + 1) w) >>
        modify (fun w => set_processed ({[comment_id]} ∪ processed_comment_ids w) w) >>
        let* w := get_state in
        when (size (processed_comment_ids w) mod 50 =? 0)%nat
          (save_processed_ids >>
           let* w := get_state in
           print (MsgProgressSaved (size (processed_comment_ids w)))))
      (fun _ w' => between_iterations C w') (fun _ w' => at_exit C w')
      (set_csv (Sink (sink_counter f) (sink_rows f ++ [row]) (sink_flushed f) false
                  :: older) w1)).
  { intros w1 Hp.
    assert (Hfail : forall w2,
      processed_comment_ids w2 = processed_comment_ids w ->
      at_exit C
        (set_csv (Sink (sink_counter f) (sink_rows f ++ [row]) (sink_flushed f)
                    false :: older) w2)).
    { intros w2 Hp2. split; [done|]. split; [done|].
      intros x. simpl. rewrite Hp2, H4, !has_row_cons.
      unfold durable_rows at 1. simpl. rewrite H3, take_app_length.
      apply or_iff_compat_l, or_iff_compat_l, has_row_ext.
      eapply Forall_impl; [exact H3'|]. intros g Hg.
      symmetry. by apply durable_rows_fully_flushed. }
    assert (Hdone : forall w2,
      processed_comment_ids w2 = processed_comment_ids w ->
      between_iterations C
        (set_processed ({[comment_id]} ∪ processed_comment_ids w2)
           (set_csv (Sink (sink_counter f) (sink_rows f ++ [row])
                       (length (sink_rows f ++ [row])) false :: older) w2))).
    { intros w2 Hp2. split; [done|]. split; [done|]. split.
      - constructor; [reflexivity|done].
      - intros x. simpl. rewrite Hp2, elem_of_union, elem_of_singleton, H4.
        rewrite !has_row_cons. simpl. split.
        + intros [->|[?|[(r' & Hr' & Hid')|?]]]; [|tauto| |tauto].
          * right. left. exists row. split; [|done].
            apply elem_of_app. right. by apply list_elem_of_singleton.
          * right. left. exists r'. split; [|done]. apply elem_of_app. by left.
        + intros [?|[(r' & Hr' & Hid')|?]]; [tauto| |tauto].
          apply elem_of_app in Hr' as [Hr'|Hr'].
          * right. right. left. eauto.
          * apply list_elem_of_singleton in Hr' as ->.
            left. congruence. }
    apply wp_bind. unfold wp at 1. unfold flush_file. simpl.
    unfold bind at 1. unfold file_op.
    assert (Htail : forall w2,
      processed_comment_ids w2 = processed_comment_ids w ->
      wp (modify (fun w => set_count (current_file_comment_count w + 1) w) >>
          modify (fun w => set_processed ({[comment_id]} ∪ processed_comment_ids w) w) >>
          let* w := get_state in
          when (size (processed_comment_ids w) mod 50 =? 0)%nat
            (save_processed_ids >>
             let* w := get_state in
             print (MsgProgressSaved (size (processed_comment_ids w)))))
        (fun _ w' => between_iterations C w') (fun _ w' => at_exit C w')
        (set_csv (Sink (sink_counter f) (sink_rows f ++ [row])
                    (length (sink_rows f ++ [row])) false :: older) w2)).
    { intros w2 Hp2.
      apply wp_bind, wp_modify, wp_bind, wp_modify, wp_bind, wp_get_state.
      apply wp_when; intros _.
      - apply wp_framed.
        + apply framed_bind; [apply framed_save_processed_ids|]. intros _.
          apply framed_bind; [by intros ?|]. intros ?. apply framed_emit.
        + intros _ w3 Hk. eapply between_iterations_keeps; [exact Hk|].
          eapply between_iterations_same; [| |apply (Hdone w2 Hp2)]; reflexivity.
        + intros _ w3 Hk. apply between_iterations_at_exit.
          eapply between_iterations_keeps; [exact Hk|].
          eapply between_iterations_same; [| |apply (Hdone w2 Hp2)]; reflexivity.
      - eapply between_iterations_same; [| |apply (Hdone w2 Hp2)]; reflexivity. }
    simpl. destruct (faults w1) as [|[e|] fs]; simpl.
    - apply (Htail w1 Hp).
    - eapply at_exit_same; [| |apply (Hfail w1 Hp)]; reflexivity.
    - eapply wp_conseq; [apply (Htail (set_faults fs w1) Hp)|done|done]. }
  unfold bind at 1. unfold file_op. simpl.
  destruct (faults w) as [|[e|] fs]; simpl.
  - apply (Hwritten w eq_refl).
  - eapply at_exit_same; [| |exact HE]; [reflexivity|]. simpl. by rewrite Hcsv.
  - apply (Hwritten (set_faults fs w) eq_refl).
Qed.

Lemma wp_process_comment repr N C idx n comment_id w :
  between_iterations C w ->
  wp (process_comment repr N idx n comment_id)
    (fun _ w' => between_iterations C w') (fun _ w' => at_exit C w') w.
Proof.
  intros HI. unfold process_comment. apply wp_bind, wp_get_state.
  destruct (bool_decide _); [exact HI|].
  apply wp_bind, wp_emit, wp_bind.
  assert (HI1 : between_iterations C
    (set_trace (trace w ++ [EvPrint (MsgGettingData comment_id idx n)]) w)).
  { eapply between_iterations_same; [| |exact HI]; reflexivity. }
  assert (Hfetch : forall w1, between_iterations C w1 ->
    wp (let* comment_detail_data :=
          get_comment_detail_data repr Checkpointed comment_id in
        match comment_detail_data with
        | Some ((_ :: _) as row) => record_row comment_id row
        | _ => ret tt
        end)
      (fun _ w' => between_iterations C w') (fun _ w' => at_exit C w') w1).
  { intros w1 Hw1. apply wp_bind.
    eapply wp_conseq; [apply wp_get_comment_detail_data| |].
    - intros o w2 [Hk Hrow]. simpl.
      pose proof (between_iterations_keeps C w1 w2 Hk Hw1) as Hw2.
      destruct o as [[|kv row]|]; [exact Hw2| |exact Hw2].
      apply wp_record_row; [exact Hw2|]. exact (proj2 (Hrow _ eq_refl)).
    - intros e w2 Hk. simpl. apply between_iterations_at_exit.
      exact (between_iterations_keeps C w1 w2 Hk Hw1). }
  apply wp_when; intros _.
  - eapply wp_conseq; [by apply wp_rotate| |done].
    intros [] w1 Hw1. simpl. by apply Hfetch.
  - by apply Hfetch.
Qed.

Lemma wp_for_loop repr N C n ids : forall idx w,
  between_iterations C w ->
  wp (for_loop repr N idx n ids)
    (fun _ w' => between_iterations C w') (fun _ w' => at_exit C w') w.
Proof.
  induction ids as [|x ids IH]; intros idx w HI; [exact HI|].
  simpl. apply wp_bind.
  eapply wp_conseq; [by apply wp_process_comment| |done].
  intros [] w1 Hw1. simpl. by apply IH.
Qed.

(** The state in which [main] enters its [try]: one file, just created. *)
Definition first_file_open (w : world) : Prop :=
  exists counter, csv_files w = [Sink counter [] 0 false].

Lemma first_file_open_between_iterations w :
  first_file_open w -> between_iterations (processed_comment_ids w) w.
Proof.
  intros [c Hc]. unfold between_iterations. rewrite Hc.
  split; [done|]. split; [constructor|]. split; [by repeat constructor|].
  intros x. split; [tauto|]. intros [?|(f & row & Hf & Hrow & _)]; [done|].
  apply list_elem_of_singleton in Hf as ->. by apply elem_of_nil in Hrow.
Qed.

(** The events of the [finally] block. *)
Definition drain_events (w : world) : list event :=
  [ EvSaveProcessedIds;
    EvPrint (MsgCompletedFile (current_file w) (current_file_comment_count w));
    EvPrint (MsgTotalProcessed (size (processed_comment_ids w)));
    EvPrint MsgDone ].

(** The [finally] block when its file operations succeed. *)
Lemma drain_ok w :
  csv_files w <> [] ->
  faults w = [] ->
  exists w',
    drain w = Ok tt w' /\
    (Forall (fun f => sink_closed f = true) (tail (csv_files w)) -> all_closed w') /\
    processed_comment_ids w' = processed_comment_ids w /\
    csv_files w' =
      match csv_files w with
      | f :: older =>
          Sink (sink_counter f) (sink_rows f)
            (if sink_closed f then sink_flushed f else length (sink_rows f)) true
          :: older
      | [] => []
      end /\
    net w' = net w /\
    checkpoint_file w' = Some (ids_text (elements (processed_comment_ids w))) /\
    trace w' = trace w ++ drain_events w.
Proof.
  intros H1 Hf. unfold drain.
  destruct (csv_files w) as [|f older] eqn:Hcsv; [done|].
  unfold bind at 1. unfold close_file. rewrite Hcsv.
  destruct (sink_closed f) eqn:Hcl.
  - unfold bind at 1. rewrite save_processed_ids_ok by exact Hf.
    eexists. split; [reflexivity|]. unfold all_closed, drain_events, current_file.
    cbn. rewrite Hcsv.
    split; [by constructor|]. split; [done|].
    split; [destruct f; simpl in *; by subst|]. split; [done|]. split; [done|].
    by rewrite <- !app_assoc.
  - unfold file_op. rewrite Hf.
    unfold bind at 1. rewrite save_processed_ids_ok by exact Hf.
    eexists. split; [reflexivity|]. unfold all_closed, drain_events, current_file.
    cbn. rewrite Hcsv.
    split; [by constructor|]. split; [done|]. split; [done|]. split; [done|].
    split; [done|]. by rewrite <- !app_assoc.
Qed.

(** ** Runs in which every fetch returns *)

(** [fetch_script repr comment_id chunk o]: met with the outcomes [chunk] and
    no failing file operation, the detail fetch of [comment_id] uses up
    [chunk] and returns [o]. *)
Inductive fetch_script (repr : json -> string) (comment_id : string)
  : list attempt -> option record -> Prop :=
  | fetch_record pre r row :
      forallb retriable pre = true ->
      (count consumes pre < 3)%nat ->
      is_success r = true ->
      detail_try repr comment_id r = Val row ->
      fetch_script repr comment_id (pre ++ [AResp r]) (Some row)
  | fetch_malformed pre r e :
      forallb retriable pre = true ->
      (count consumes pre < 3)%nat ->
      is_success r = true ->
      detail_try repr comment_id r = Raise e ->
      caught e = true ->
      fetch_script repr comment_id (pre ++ [AResp r]) None
  | fetch_gave_up pre last :
      forallb retriable pre = true ->
      consumes last = true ->
      (count consumes pre + 1 = 3)%nat ->
      resp_truthy (last_obtained None (pre ++ [last])) = false ->
      fetch_script repr comment_id (pre ++ [last]) None.

Lemma is_success_response_ok r : is_success r = true -> response_ok r = true.
Proof.
  unfold is_success, response_ok, status_in, successful_http_status_codes.
  simpl. intros H.
  repeat (apply orb_prop in H as [H|H]); try discriminate;
    apply Z.eqb_eq in H; rewrite H; reflexivity.
Qed.

Lemma detail_fetch_script repr comment_id chunk o rest w :
  faults w = [] ->
  net w = chunk ++ rest ->
  fetch_script repr comment_id chunk o ->
  exists w',
    get_comment_detail_data repr Checkpointed comment_id w = Ok o w' /\
    net w' = rest /\ faults w' = [] /\ keeps w w'.
Proof.
  intros Hf Hnet Hs.
  pose proof (framed_get_comment_detail_data repr Checkpointed comment_id w) as Hk.
  unfold wp in Hk.
  enough (exists w', get_comment_detail_data repr Checkpointed comment_id w = Ok o w'
                     /\ net w' = rest /\ faults w' = []) as (w' & E & H1 & H2).
  { exists w'. rewrite E in Hk. auto. }
  clear Hk. unfold get_comment_detail_data.
  unfold bind at 1. unfold do_sleep_range, emit.
  set (w1 := set_trace (trace w ++ [EvRandomSleep 2 4]) w).
  assert (Hf1 : faults w1 = []) by exact Hf.
  destruct Hs as [pre r row Hpre Hc Hsucc Hrow
                 |pre r e Hpre Hc Hsucc Hrow He
                 |pre last Hpre Hlast Hc Hfalsy].
  - assert (Hnet1 : net w1 = pre ++ AResp r :: rest)
      by (simpl; rewrite Hnet, <- app_assoc; reflexivity).
    destruct (executor_outcome Checkpointed (comment_detail_url comment_id) false 3
                w1 pre (AResp r) rest ltac:(lia) Hf1 Hnet1 Hpre)
      as (w2 & evs & E & Hn2 & Hf2 & _); [left; split; [exact Hsucc|lia]|].
    unfold bind at 1. rewrite E, last_obtained_app.
    rewrite (is_success_response_ok r Hsucc).
    unfold detail_of_response. rewrite Hrow. eexists. by split.
  - assert (Hnet1 : net w1 = pre ++ AResp r :: rest)
      by (simpl; rewrite Hnet, <- app_assoc; reflexivity).
    destruct (executor_outcome Checkpointed (comment_detail_url comment_id) false 3
                w1 pre (AResp r) rest ltac:(lia) Hf1 Hnet1 Hpre)
      as (w2 & evs & E & Hn2 & Hf2 & _); [left; split; [exact Hsucc|lia]|].
    unfold bind at 1. rewrite E, last_obtained_app.
    rewrite (is_success_response_ok r Hsucc).
    unfold detail_of_response. rewrite Hrow, He.
    eexists. split; [reflexivity|]. by split.
  - assert (Hnet1 : net w1 = pre ++ last :: rest)
      by (simpl; rewrite Hnet, <- app_assoc; reflexivity).
    destruct (executor_outcome Checkpointed (comment_detail_url comment_id) false 3
                w1 pre last rest ltac:(lia) Hf1 Hnet1 Hpre)
      as (w2 & evs & E & Hn2 & Hf2 & _); [right; split; [exact Hlast|lia]|].
    unfold bind at 1. rewrite E.
    destruct (last_obtained None (pre ++ [last])) as [r|].
    + simpl in Hfalsy. rewrite Hfalsy. eexists. split; [reflexivity|]. by split.
    + eexists. split; [reflexivity|]. by split.
Qed.

(** The file [f] is open and holds as many rows as the counter says, at most
    [N]; the older files are closed and hold [N] rows each. *)
Definition rotation_state (N : nat) (w : world) : Prop :=
  exists f older,
    csv_files w = f :: older /\
    sink_closed f = false /\
    length (sink_rows f) = current_file_comment_count w /\
    current_file_comment_count w <= N /\
    Forall (fun g => sink_closed g = true /\ length (sink_rows g) = N) older.

(** The rows written in the run, oldest first. *)
Definition out_rows (w : world) : list record :=
  concat (sink_rows <$> reverse (csv_files w)).

#[local] Arguments save_processed_ids : simpl never.
#[local] Arguments Nat.modulo : simpl never.

Lemma rotate_ok w f older :
  csv_files w = f :: older ->
  sink_closed f = false ->
  faults w = [] ->
  exists w',
    rotate w = Ok tt w' /\
    csv_files w' =
      Sink (file_counter w + 1) [] 0 false
      :: Sink (sink_counter f) (sink_rows f) (length (sink_rows f)) true :: older /\
    current_file_comment_count w' = 0 /\
    file_counter w' = (file_counter w + 1)%Z /\
    processed_comment_ids w' = processed_comment_ids w /\
    net w' = net w /\ faults w' = [].
Proof.
  intros Hcsv Hcl Hf.
  unfold rotate, close_file, create_new_csv, bind, get_state, print, emit,
    modify, file_op.
  rewrite Hcsv, Hcl, Hf. simpl. rewrite Hf. simpl.
  eexists. split; [reflexivity|]. simpl. by rewrite Hf.
Qed.

Lemma record_row_ok comment_id row w f older :
  csv_files w = f :: older ->
  sink_closed f = false ->
  faults w = [] ->
  exists w',
    record_row comment_id row w = Ok tt w' /\
    csv_files w' =
      Sink (sink_counter f) (sink_rows f ++ [row])
        (length (sink_rows f ++ [row])) false :: older /\
    current_file_comment_count w' = current_file_comment_count w + 1 /\
    file_counter w' = file_counter w /\
    processed_comment_ids w' = {[comment_id]} ∪ processed_comment_ids w /\
    net w' = net w /\ faults w' = [].
Proof.
  intros Hcsv Hcl Hf.
  unfold record_row, writerow, flush_file, bind, get_state, modify, file_op.
  rewrite Hcsv, Hcl, Hf. simpl. rewrite Hf. simpl.
  unfold when.
  destruct (size ({[comment_id]} ∪ processed_comment_ids w) mod 50 =? 0)%nat.
  - rewrite save_processed_ids_ok by exact Hf. unfold print, emit. simpl.
    eexists. split; [reflexivity|]. simpl. by rewrite Hf.
  - eexists. split; [reflexivity|]. simpl. by rewrite Hf.
Qed.

Lemma out_rows_cons w f older :
  csv_files w = f :: older ->
  out_rows w = concat (sink_rows <$> reverse older) ++ sink_rows f.
Proof.
  unfold out_rows. intros ->.
  rewrite reverse_cons, fmap_app, concat_app. simpl. by rewrite app_nil_r.
Qed.

Lemma fetch_script_record_nonempty repr comment_id chunk row :
  fetch_script repr comment_id chunk (Some row) -> row <> [].
Proof.
  inversion 1 as [pre r row' _ _ _ Hrow| |]; subst.
  apply detail_try_inv in Hrow as (? & ? & ? & _ & _ & _ & ->). done.
Qed.

(** One iteration on an identifier not yet in the set, with its fetch
    scripted and no failing file operation. *)
Lemma process_comment_plan repr N idx n comment_id chunk o rest w :
  1 <= N ->
  faults w = [] ->
  net w = chunk ++ rest ->
  fetch_script repr comment_id chunk o ->
  comment_id ∉ processed_comment_ids w ->
  rotation_state N w ->
  exists w',
    process_comment repr N idx n comment_id w = Ok tt w' /\
    faults w' = [] /\ net w' = rest /\
    rotation_state N w' /\
    processed_comment_ids w' =
      match o with
      | Some _ => {[comment_id]} ∪ processed_comment_ids w
      | None => processed_comment_ids w
      end /\
    out_rows w' = out_rows w ++ match o with Some row => [row] | None => [] end /\
    (is_Some o -> 1 <= current_file_comment_count w').
Proof.
  intros HN Hf Hnet Hs Hnotin (f & older & Hcsv & Hcl & Hlen & Hle & Hold).
  unfold process_comment. unfold bind at 1. unfold get_state.
  rewrite bool_decide_eq_false_2 by exact Hnotin.
  unfold bind at 1. unfold print, emit.
  set (w1 := set_trace (trace w ++ [EvPrint (MsgGettingData comment_id idx n)]) w).
  (* the world in which the fetch starts *)
  assert (Hrot : exists w2 f2 older2,
    when (N <=? current_file_comment_count w)%nat rotate w1 = Ok tt w2 /\
    csv_files w2 = f2 :: older2 /\ sink_closed f2 = false /\
    length (sink_rows f2) = current_file_comment_count w2 /\
    current_file_comment_count w2 < N /\
    Forall (fun g => sink_closed g = true /\ length (sink_rows g) = N) older2 /\
    processed_comment_ids w2 = processed_comment_ids w /\
    net w2 = net w /\ faults w2 = [] /\ out_rows w2 = out_rows w).
  { destruct (N <=? current_file_comment_count w)%nat eqn:Hge; simpl.
    - apply Nat.leb_le in Hge.
      destruct (rotate_ok w1 f older Hcsv Hcl Hf)
        as (w2 & E & Hc2 & Hn2 & Hfc2 & Hp2 & Hnet2 & Hf2).
      eexists w2, _, _. split; [exact E|]. split; [exact Hc2|].
      split; [reflexivity|]. split; [by rewrite Hn2|]. split; [lia|].
      split; [constructor; [split; [reflexivity|simpl; lia]|exact Hold]|].
      split; [exact Hp2|]. split; [exact Hnet2|]. split; [exact Hf2|].
      rewrite (out_rows_cons w2 _ _ Hc2), (out_rows_cons w f older Hcsv).
      rewrite reverse_cons, fmap_app, concat_app. simpl.
      by rewrite !app_nil_r.
    - apply Nat.leb_gt in Hge.
      exists w1, f, older. split; [reflexivity|]. split; [exact Hcsv|].
      split; [exact Hcl|]. split; [exact Hlen|]. split; [exact Hge|].
      split; [exact Hold|]. split; [reflexivity|]. split; [reflexivity|].
      split; [exact Hf|].
      by rewrite (out_rows_cons w1 f older Hcsv), (out_rows_cons w f older Hcsv). }
  destruct Hrot as (w2 & f2 & older2 & E2 & Hc2 & Hcl2 & Hlen2 & Hlt2 & Hold2
                    & Hp2 & Hnet2 & Hf2 & Hout2).
  unfold bind at 1. rewrite E2.
  rewrite Hnet in Hnet2.
  destruct (detail_fetch_script repr comment_id chunk o rest w2 Hf2 Hnet2 Hs)
    as (w3 & E3 & Hnet3 & Hf3 & Hp3 & Hc3 & Hn3 & Hfc3).
  unfold bind at 1. rewrite E3.
  destruct o as [row|].
  - pose proof (fetch_script_record_nonempty _ _ _ _ Hs) as Hne.
    destruct row as [|kv row]; [done|].
    rewrite Hc2 in Hc3.
    destruct (record_row_ok comment_id (kv :: row) w3 f2 older2 Hc3 Hcl2 Hf3)
      as (w4 & E4 & Hc4 & Hn4 & Hfc4 & Hp4 & Hnet4 & Hf4).
    exists w4. split; [exact E4|]. split; [exact Hf4|].
    split; [by rewrite Hnet4|].
    split.
    { exists (Sink (sink_counter f2) (sink_rows f2 ++ [kv :: row])
                (length (sink_rows f2 ++ [kv :: row])) false), older2.
      split; [exact Hc4|]. split; [reflexivity|]. simpl.
      rewrite length_app, Hn4, Hn3, Hlen2. simpl.
      split; [reflexivity|]. split; [lia|exact Hold2]. }
    split; [by rewrite Hp4, Hp3, Hp2|].
    split; [|intros _; lia].
    rewrite (out_rows_cons w4 _ _ Hc4), <- Hout2, (out_rows_cons w2 f2 older2 Hc2).
    simpl. by rewrite app_assoc.
  - exists w3. split; [reflexivity|]. split; [exact Hf3|]. split; [exact Hnet3|].
    rewrite Hc2 in Hc3.
    split.
    { exists f2, older2. split; [exact Hc3|]. split; [exact Hcl2|].
      rewrite Hn3. split; [exact Hlen2|]. split; [lia|exact Hold2]. }
    split; [by rewrite Hp3, Hp2|].
    split; [|intros [? [=]]].
    rewrite app_nil_r, <- Hout2.
    by rewrite (out_rows_cons w3 f2 older2 Hc3), (out_rows_cons w2 f2 older2 Hc2).
Qed.

(** A scripted run: for each identifier in turn, the outcomes its fetch
    meets and what the fetch returns. *)
Definition plan : Type := list (string * list attempt * option record).

Definition plan_ids (p : plan) : list string := (fun x => x.1.1) <$> p.
Definition plan_net (p : plan) : list attempt := concat ((fun x => x.1.2) <$> p).
Definition plan_rows (p : plan) : list record := omap (fun x => x.2) p.
Definition plan_written (p : plan) : list string :=
  omap (fun x => match x.2 with Some _ => Some x.1.1 | None => None end) p.
Definition scripted (repr : json -> string) (p : plan) : Prop :=
  Forall (fun x => fetch_script repr x.1.1 x.1.2 x.2) p.
Definition ends_with_record (p : plan) : Prop :=
  match last p with Some x => is_Some x.2 | None => False end.

Lemma for_loop_plan repr N n (p : plan) : forall idx w rest,
  1 <= N ->
  faults w = [] ->
  net w = plan_net p ++ rest ->
  scripted repr p ->
  NoDup (plan_ids p) ->
  (forall comment_id, comment_id ∈ plan_ids p ->
     comment_id ∉ processed_comment_ids w) ->
  rotation_state N w ->
  exists w',
    for_loop repr N idx n (plan_ids p) w = Ok tt w' /\
    faults w' = [] /\ net w' = rest /\
    rotation_state N w' /\
    processed_comment_ids w' = list_to_set (plan_written p) ∪ processed_comment_ids w /\
    out_rows w' = out_rows w ++ plan_rows p /\
    (ends_with_record p -> 1 <= current_file_comment_count w').
Proof.
  induction p as [|[[comment_id chunk] o] p IH];
    intros idx w rest HN Hf Hnet Hs Hnd Hnew Hrot.
  - exists w. simpl in *. split; [reflexivity|]. split; [exact Hf|].
    split; [exact Hnet|]. split; [exact Hrot|].
    split; [set_solver|]. split; [by rewrite app_nil_r|done].
  - apply Forall_cons in Hs as [Hs Hs']. simpl in Hs.
    change (plan_ids ((comment_id, chunk, o) :: p))
      with (comment_id :: plan_ids p) in *.
    apply NoDup_cons in Hnd as [Hnotin Hnd].
    assert (Hnet1 : net w = chunk ++ (plan_net p ++ rest)).
    { rewrite Hnet. unfold plan_net. simpl. by rewrite <- app_assoc. }
    destruct (process_comment_plan repr N idx n comment_id chunk o
                (plan_net p ++ rest) w HN Hf Hnet1 Hs)
      as (w1 & E1 & Hf1 & Hnet1' & Hrot1 & Hp1 & Hout1 & Hcnt1);
      [apply Hnew; apply elem_of_cons; by left|exact Hrot|].
    destruct (IH (S idx) w1 rest HN Hf1 Hnet1' Hs' Hnd)
      as (w2 & E2 & Hf2 & Hnet2 & Hrot2 & Hp2 & Hout2 & Hcnt2);
      [|exact Hrot1|].
    { intros x Hx. rewrite Hp1.
      assert (x ∉ processed_comment_ids w)
        by (apply Hnew; apply elem_of_cons; by right).
      assert (x <> comment_id) by (intros ->; done).
      destruct o; set_solver. }
    exists w2. split.
    { simpl. unfold bind. rewrite E1. exact E2. }
    split; [exact Hf2|]. split; [exact Hnet2|]. split; [exact Hrot2|].
    split.
    { rewrite Hp2, Hp1. unfold plan_written. simpl.
      destruct o; simpl; set_solver. }
    split.
    { rewrite Hout2, Hout1, <- app_assoc. unfold plan_rows. simpl.
      by destruct o. }
    unfold ends_with_record. destruct p as [|y p].
    + simpl. intros Ho. simpl in E2. injection E2 as <-. by apply Hcnt1.
    + intros Hlast. apply Hcnt2. exact Hlast.
Qed.

(** ** The orchestrator *)

(** C5.  From the state in which [main] enters its [try], however the loop
    is left (it ends, the operator interrupts it, or an exception escapes
    it), the [try] statement returns instead of raising as soon as the file
    operations of the [finally] block themselves succeed: every CSV file is
    closed, the checkpoint file holds the set as it was when the loop was
    left, and the summary is printed last. *)
Theorem every_exit_of_the_loop_drains repr N ids w :
  first_file_open w ->
  exists w1 (handler_events : list event),
    (for_loop repr N 1 (length ids) ids w = Ok tt w1 /\ handler_events = [] \/
     for_loop repr N 1 (length ids) ids w = Exc KeyboardInterrupt w1 /\
       handler_events = [EvPrint MsgInterrupted] \/
     exists e, is_Exception e = true /\
       for_loop repr N 1 (length ids) ids w = Exc e w1 /\
       handler_events = [EvPrint (MsgErrorOccurred e)]) /\
    (faults w1 = [] ->
     exists w2,
       try_except_finally (for_loop repr N 1 (length ids) ids) drain w = Ok tt w2 /\
       all_closed w2 /\
       processed_comment_ids w2 = processed_comment_ids w1 /\
       checkpoint_file w2
       = Some (ids_text (elements (processed_comment_ids w1))) /\
       trace w2 = trace w1 ++ handler_events ++ drain_events w1).
Proof.
  intros Hopen.
  pose proof (wp_for_loop repr N (processed_comment_ids w) (length ids) ids 1 w
                (first_file_open_between_iterations w Hopen)) as Hwp.
  unfold wp in Hwp. unfold try_except_finally.
  destruct (for_loop repr N 1 (length ids) ids w) as [[] w1|e w1|] eqn:E; [| |done].
  - exists w1, []. split; [by left|]. intros Hf.
    apply between_iterations_at_exit in Hwp as (Hne & Hcl & _).
    destruct (drain_ok w1 Hne Hf) as (w2 & E2 & H1 & H2 & _ & _ & H3 & H4).
    exists w2. auto.
  - destruct Hwp as (Hne & Hcl & _).
    assert (Hdrain : forall ev, faults w1 = [] ->
      exists w2,
        (emit ev >> drain) w1 = Ok tt w2 /\
        all_closed w2 /\
        processed_comment_ids w2 = processed_comment_ids w1 /\
        checkpoint_file w2
        = Some (ids_text (elements (processed_comment_ids w1))) /\
        trace w2 = trace w1 ++ [ev] ++ drain_events w1).
    { intros ev Hf. unfold bind, emit.
      destruct (drain_ok (set_trace (trace w1 ++ [ev]) w1) Hne Hf)
        as (w2 & E2 & H1 & H2 & _ & _ & H3 & H4).
      exists w2. split; [exact E2|]. split; [by apply H1|].
      split; [exact H2|]. split; [exact H3|].
      rewrite H4. simpl. by rewrite <- app_assoc. }
    destruct e.
    + exists w1, [EvPrint MsgInterrupted]. split; [right; by left|].
      apply Hdrain.
    + exists w1, [EvPrint (MsgErrorOccurred ValueError)].
      split; [right; right; eexists; split; [|split; reflexivity]; reflexivity|].
      apply Hdrain.
    + exists w1, [EvPrint (MsgErrorOccurred TypeError)].
      split; [right; right; eexists; split; [|split; reflexivity]; reflexivity|].
      apply Hdrain.
    + exists w1, [EvPrint (MsgErrorOccurred AttributeError)].
      split; [right; right; eexists; split; [|split; reflexivity]; reflexivity|].
      apply Hdrain.
    + exists w1, [EvPrint (MsgErrorOccurred KeyError)].
      split; [right; right; eexists; split; [|split; reflexivity]; reflexivity|].
      apply Hdrain.
    + exists w1, [EvPrint (MsgErrorOccurred JSONDecodeError)].
      split; [right; right; eexists; split; [|split; reflexivity]; reflexivity|].
      apply Hdrain.
    + exists w1, [EvPrint (MsgErrorOccurred OSError)].
      split; [right; right; eexists; split; [|split; reflexivity]; reflexivity|].
      apply Hdrain.
Qed.

Lemma length_concat_rows N (files : list sink) :
  Forall (fun g => sink_closed g = true /\ length (sink_rows g) = N) files ->
  length (concat (sink_rows <$> reverse files)) = N * length files.
Proof.
  induction 1 as [|g files [_ Hg] _ IH]; [simpl; lia|].
  rewrite reverse_cons, fmap_app, concat_app, length_app, IH. simpl.
  rewrite app_nil_r, Hg. lia.
Qed.

(** [fetching] on a scripted run with no failing file operation. *)
Lemma fetching_plan repr N (p : plan) w rest :
  1 <= N ->
  csv_files w = [] ->
  current_file_comment_count w = 0 ->
  faults w = [] ->
  net w = plan_net p ++ rest ->
  scripted repr p ->
  NoDup (plan_ids p) ->
  (forall comment_id, comment_id ∈ plan_ids p ->
     comment_id ∉ processed_comment_ids w) ->
  exists w' f older,
    fetching repr N (plan_ids p) w = Ok tt w' /\
    net w' = rest /\
    processed_comment_ids w' = list_to_set (plan_written p) ∪ processed_comment_ids w /\
    checkpoint_file w' = Some (ids_text (elements (processed_comment_ids w'))) /\
    out_rows w' = plan_rows p /\
    csv_files w' = f :: older /\
    sink_closed f = true /\
    length (sink_rows f) <= N /\
    (ends_with_record p -> 1 <= length (sink_rows f)) /\
    Forall (fun g => sink_closed g = true /\ length (sink_rows g) = N) older.
Proof.
  intros HN Hcsv Hcnt Hf Hnet Hs Hnd Hnew.
  unfold fetching. unfold bind at 1. unfold bind at 1. unfold get_state.
  unfold create_new_csv, bind, print, emit, file_op, modify. simpl.
  rewrite Hf.
  change (csv_files (set_trace (trace w ++ [EvPrint (MsgCreating (file_counter w))]) w))
    with (csv_files w).
  rewrite Hcsv.
  set (w1 := set_csv [Sink (file_counter w) [] 0 false]
               (set_trace (trace w ++ [EvPrint (MsgCreating (file_counter w))]) w)).
  assert (Hrot1 : rotation_state N w1).
  { exists (Sink (file_counter w) [] 0 false), []. simpl.
    rewrite Hcnt. repeat split; auto with lia. }
  destruct (for_loop_plan repr N (length (plan_ids p)) p 1 w1 rest HN Hf Hnet Hs
              Hnd Hnew Hrot1)
    as (w2 & E2 & Hf2 & Hnet2 & (f & older & Hc2 & Hcl2 & Hlen2 & Hle2 & Hold2)
        & Hp2 & Hout2 & Hcnt2).
  unfold try_except_finally. rewrite E2.
  destruct (drain_ok w2 ltac:(by rewrite Hc2) Hf2)
    as (w3 & E3 & _ & Hp3 & Hc3 & Hnet3 & Hck3 & _).
  rewrite Hc2, Hcl2 in Hc3.
  exists w3, (Sink (sink_counter f) (sink_rows f) (length (sink_rows f)) true), older.
  split; [exact E3|]. split; [by rewrite Hnet3|].
  split; [by rewrite Hp3, Hp2|]. split; [by rewrite Hck3, Hp3|].
  split.
  { rewrite (out_rows_cons w3 _ _ Hc3). simpl.
    rewrite <- (out_rows_cons w2 f older Hc2), Hout2. reflexivity. }
  split; [exact Hc3|]. split; [reflexivity|]. simpl.
  split; [lia|]. split; [|exact Hold2].
  intros He. rewrite Hlen2. by apply Hcnt2.
Qed.

(** C9.  With a threshold [N >= 1] and a scripted run that writes [M]
    records and ends on a written record, [fetching] leaves exactly
    [ceil(M/N)] CSV files, all closed; each holds at most [N] rows, and all
    but the newest hold exactly [N]. *)
Theorem rotation_produces_ceil_sinks repr N (p : plan) w rest :
  1 <= N ->
  csv_files w = [] ->
  current_file_comment_count w = 0 ->
  faults w = [] ->
  net w = plan_net p ++ rest ->
  scripted repr p ->
  NoDup (plan_ids p) ->
  (forall comment_id, comment_id ∈ plan_ids p ->
     comment_id ∉ processed_comment_ids w) ->
  ends_with_record p ->
  exists w',
    fetching repr N (plan_ids p) w = Ok tt w' /\
    out_rows w' = plan_rows p /\
    length (csv_files w') = (length (plan_rows p) + N - 1) / N /\
    Forall (fun f => length (sink_rows f) <= N /\ sink_closed f = true)
      (csv_files w') /\
    Forall (fun f => length (sink_rows f) = N) (tail (csv_files w')).
Proof.
  intros HN Hcsv Hcnt Hf Hnet Hs Hnd Hnew Hend.
  destruct (fetching_plan repr N p w rest HN Hcsv Hcnt Hf Hnet Hs Hnd Hnew)
    as (w' & f & older & E & _ & _ & _ & Hout & Hc & Hcl & Hle & Hge & Hold).
  specialize (Hge Hend).
  exists w'. split; [exact E|]. split; [exact Hout|]. rewrite Hc. simpl.
  split.
  - assert (HM : length (plan_rows p) = N * length older + length (sink_rows f)).
    { rewrite <- Hout, (out_rows_cons w' f older Hc), length_app.
      by rewrite (length_concat_rows N older Hold). }
    rewrite HM.
    apply (Nat.div_unique _ _ _ (length (sink_rows f) - 1)); lia.
  - split.
    + constructor; [by split|].
      eapply Forall_impl; [exact Hold|]. intros g [Hg1 Hg2]. split; [lia|done].
    + eapply Forall_impl; [exact Hold|]. by intros g [_ Hg].
Qed.

Lemma to_process_spec D (C : gset string) comment_id :
  comment_id ∈ to_process D C <-> comment_id ∈ D /\ comment_id ∉ C.
Proof. unfold to_process. rewrite list_elem_of_filter. tauto. Qed.

Lemma plan_all_records repr (p : plan) :
  scripted repr p ->
  Forall (fun x => is_Some x.2) p ->
  plan_written p = plan_ids p /\
  row_id <$> plan_rows p = (fun comment_id => Some (JStr comment_id)) <$> plan_ids p.
Proof.
  induction p as [|[[comment_id chunk] o] p IH]; intros Hs Hall; [done|].
  apply Forall_cons in Hs as [Hs Hs']. apply Forall_cons in Hall as [Ho Hall].
  simpl in Hs, Ho. destruct Ho as [row ->].
  destruct (IH Hs' Hall) as [IH1 IH2].
  change (plan_written ((comment_id, chunk, Some row) :: p))
    with (comment_id :: plan_written p).
  change (plan_rows ((comment_id, chunk, Some row) :: p))
    with (row :: plan_rows p).
  change (plan_ids ((comment_id, chunk, Some row) :: p))
    with (comment_id :: plan_ids p).
  rewrite IH1, !fmap_cons, IH2. split; [reflexivity|]. f_equal.
  inversion Hs as [pre r row' _ _ _ Hrow| |]; subst.
  apply detail_try_inv in Hrow as (? & ? & ? & _ & _ & _ & ->). reflexivity.
Qed.

(** C2, as amended.  For a loaded set [C] and a discovered list [D] that is
    not empty (and holds no identifier twice), [main] goes on with exactly
    the identifiers of [D] not in [C], in the order of [D].  When there is
    none it prints the nothing-to-do message and returns, leaving the
    checkpoint file as it is.  When every one of them is fetched and
    written, the rows written are theirs, in order, and the set and the
    checkpoint file end as [C] united with the identifiers of [D]. *)
Theorem resume_processes_the_difference repr N D (p : plan) w rest :
  1 <= N ->
  D <> [] ->
  NoDup D ->
  csv_files w = [] ->
  current_file_comment_count w = 0 ->
  faults w = [] ->
  plan_ids p = to_process D (processed_comment_ids w) ->
  scripted repr p ->
  Forall (fun x => is_Some x.2) p ->
  net w = plan_net p ++ rest ->
  (forall comment_id,
     comment_id ∈ to_process D (processed_comment_ids w) <->
     comment_id ∈ D /\ comment_id ∉ processed_comment_ids w) /\
  (to_process D (processed_comment_ids w) = [] ->
   process_discovered repr N D w
   = Ok tt (set_trace (trace w ++ [EvPrint MsgNothingToDo]) w)) /\
  exists w',
    process_discovered repr N D w = Ok tt w' /\
    row_id <$> out_rows w'
    = (fun comment_id => Some (JStr comment_id))
        <$> to_process D (processed_comment_ids w) /\
    processed_comment_ids w' = processed_comment_ids w ∪ list_to_set D /\
    checkpoint_file w' =
      match to_process D (processed_comment_ids w) with
      | [] => checkpoint_file w
      | _ => Some (ids_text (elements (processed_comment_ids w ∪ list_to_set D)))
      end.
Proof.
  intros HN HD Hnd Hcsv Hcnt Hf Hids Hs Hall Hnet.
  split; [intros x; apply to_process_spec|].
  assert (Hset : list_to_set (to_process D (processed_comment_ids w))
                 ∪ processed_comment_ids w
                 = processed_comment_ids w ∪ list_to_set D).
  { apply set_eq. intros x.
    rewrite !elem_of_union, !elem_of_list_to_set, to_process_spec.
    destruct (decide (x ∈ processed_comment_ids w)); tauto. }
  assert (Hnil : to_process D (processed_comment_ids w) = [] ->
    process_discovered repr N D w
    = Ok tt (set_trace (trace w ++ [EvPrint MsgNothingToDo]) w)).
  { intros E. unfold process_discovered. destruct D as [|d D]; [done|].
    unfold bind, get_state. by rewrite E. }
  split; [exact Hnil|].
  destruct (to_process D (processed_comment_ids w)) as [|c cs] eqn:Eto.
  - eexists. split; [by apply Hnil|]. unfold out_rows. simpl. rewrite Hcsv.
    split; [reflexivity|]. split; [|reflexivity].
    rewrite <- Hset. simpl. set_solver.
  - assert (Hnd' : NoDup (plan_ids p)).
    { rewrite Hids, <- Eto. by apply NoDup_filter. }
    assert (Hnew : forall x, x ∈ plan_ids p -> x ∉ processed_comment_ids w).
    { intros x. rewrite Hids, <- Eto, to_process_spec. tauto. }
    set (w1 := set_trace
                 (trace w ++ [EvPrint (MsgToProcess (length (plan_ids p)) (length D))])
                 w).
    destruct (fetching_plan repr N p w1 rest HN Hcsv Hcnt Hf Hnet Hs Hnd' Hnew)
      as (w' & f & older & E & _ & Hp & Hck & Hout & _).
    destruct (plan_all_records repr p Hs Hall) as [Hw Hr].
    exists w'. split.
    { unfold process_discovered. destruct D as [|d D]; [done|].
      unfold bind at 1. unfold get_state. rewrite Eto.
      unfold bind, print, emit. rewrite <- Hids. exact E. }
    split; [by rewrite Hout, Hr, Hids|].
    assert (Hp' : processed_comment_ids w'
                  = processed_comment_ids w ∪ list_to_set D).
    { rewrite Hp, Hw, Hids. exact Hset. }
    split; [exact Hp'|]. by rewrite Hck, Hp'.
Qed.

Lemma elem_of_concat {A} (x : A) (ls : list (list A)) :
  x ∈ concat ls <-> exists l, x ∈ l /\ l ∈ ls.
Proof.
  induction ls as [|l ls IH]; simpl.
  - split; [intros H; by apply elem_of_nil in H|].
    intros (l & _ & H). by apply elem_of_nil in H.
  - rewrite elem_of_app, IH. split.
    + intros [H|(l' & H1 & H2)].
      * exists l. split; [done|]. apply elem_of_cons. by left.
      * exists l'. split; [done|]. apply elem_of_cons. by right.
    + intros (l' & H1 & H2). apply elem_of_cons in H2 as [->|H2]; eauto.
Qed.

Lemma has_row_out_rows comment_id w :
  has_row sink_rows comment_id (csv_files w) <->
  exists row, row ∈ out_rows w /\ row_id row = Some (JStr comment_id).
Proof.
  unfold has_row, out_rows. split.
  - intros (f & row & Hf & Hrow & Hid). exists row. split; [|exact Hid].
    apply (proj2 (elem_of_concat _ _)). exists (sink_rows f).
    split; [exact Hrow|].
    apply (proj2 (list_elem_of_fmap _ _ _)). exists f. split; [reflexivity|].
    by apply (proj2 (elem_of_reverse _ _)).
  - intros (row & Hrow & Hid).
    apply (proj1 (elem_of_concat _ _)) in Hrow as (rows & Hrow & Hrows).
    apply (proj1 (list_elem_of_fmap _ _ _)) in Hrows as (f & -> & Hf).
    apply (proj1 (elem_of_reverse _ _)) in Hf. exists f, row. auto.
Qed.

Lemma plan_written_ids (p : plan) comment_id :
  comment_id ∈ plan_written p -> comment_id ∈ plan_ids p.
Proof.
  unfold plan_written, plan_ids. intros H.
  apply list_elem_of_omap in H as ([[c chunk] o] & Hx & Ho).
  apply list_elem_of_fmap. exists (c, chunk, o). split; [|exact Hx].
  simpl in Ho. destruct o; [|discriminate]. by injection Ho.
Qed.

Lemma plan_rows_ids repr (p : plan) row :
  scripted repr p ->
  row ∈ plan_rows p ->
  exists comment_id,
    comment_id ∈ plan_written p /\ row_id row = Some (JStr comment_id).
Proof.
  unfold plan_rows, plan_written. intros Hs H.
  apply list_elem_of_omap in H as ([[c chunk] o] & Hx & Ho). simpl in Ho. subst o.
  exists c. split.
  - apply list_elem_of_omap. exists (c, chunk, Some row). by split.
  - eapply Forall_forall in Hs; [|exact Hx]. simpl in Hs.
    inversion Hs as [pre r row' _ _ _ Hrow| |]; subst.
    apply detail_try_inv in Hrow as (? & ? & ? & _ & _ & _ & ->). reflexivity.
Qed.

Lemma plan_none_not_written (p : plan) x :
  NoDup (plan_ids p) -> x ∈ p -> x.2 = None -> x.1.1 ∉ plan_written p.
Proof.
  induction p as [|y p IH]; intros Hnd Hx Hnone; [by apply elem_of_nil in Hx|].
  change (plan_ids (y :: p)) with (y.1.1 :: plan_ids p) in Hnd.
  apply NoDup_cons in Hnd as [Hy Hnd].
  apply elem_of_cons in Hx as [->|Hx].
  - unfold plan_written. simpl. rewrite Hnone. fold (plan_written p).
    intros H. by apply Hy, plan_written_ids.
  - assert (Hne : x.1.1 <> y.1.1).
    { intros E. apply Hy. rewrite <- E. unfold plan_ids.
      apply list_elem_of_fmap. by exists x. }
    unfold plan_written. simpl. fold (plan_written p).
    destruct (y.2).
    + intros H. apply elem_of_cons in H as [H|H]; [done|]. by apply (IH Hnd Hx).
    + by apply IH.
Qed.

(** C4.  Left in any way at all (it ends or an exception escapes it,
    whatever the network and the file system do), the loop has added to the
    set exactly the identifiers of the rows it has written and flushed to
    the disk; and in a scripted run an identifier whose fetch returns
    nothing is neither in the set nor in any CSV file when the loop ends. *)
Theorem checkpointed_iff_written repr N ids w :
  first_file_open w ->
  match for_loop repr N 1 (length ids) ids w with
  | Ok _ w1 | Exc _ w1 =>
      forall comment_id,
        comment_id ∈ processed_comment_ids w1 <->
        comment_id ∈ processed_comment_ids w \/
        has_row durable_rows comment_id (csv_files w1)
  | Unmodelled => False
  end /\
  forall (p : plan) rest comment_id chunk,
    ids = plan_ids p ->
    1 <= N ->
    current_file_comment_count w = 0 ->
    faults w = [] ->
    net w = plan_net p ++ rest ->
    scripted repr p ->
    NoDup ids ->
    (forall comment_id, comment_id ∈ ids -> comment_id ∉ processed_comment_ids w) ->
    (comment_id, chunk, None) ∈ p ->
    exists w1,
      for_loop repr N 1 (length ids) ids w = Ok tt w1 /\
      (comment_id ∉ processed_comment_ids w1) /\
      ~ has_row sink_rows comment_id (csv_files w1).
Proof.
  intros Hopen. split.
  - pose proof (wp_for_loop repr N (processed_comment_ids w) (length ids) ids 1 w
                  (first_file_open_between_iterations w Hopen)) as Hwp.
    unfold wp in Hwp.
    destruct (for_loop repr N 1 (length ids) ids w) as [[] w1|e w1|]; [| |done].
    + by apply between_iterations_at_exit in Hwp as (_ & _ & H).
    + by destruct Hwp as (_ & _ & H).
  - intros p rest comment_id chunk -> HN Hcnt Hf Hnet Hs Hnd Hnew Hx.
    destruct Hopen as [c Hc].
    assert (Hrot : rotation_state N w).
    { exists (Sink c [] 0 false), []. rewrite Hcnt. simpl.
      repeat split; auto with lia. }
    destruct (for_loop_plan repr N (length (plan_ids p)) p 1 w rest HN Hf Hnet Hs
                Hnd Hnew Hrot)
      as (w1 & E & _ & _ & _ & Hp & Hout & _).
    exists w1. split; [exact E|].
    pose proof (plan_none_not_written p (comment_id, chunk, None) Hnd Hx eq_refl)
      as Hnw.
    simpl in Hnw.
    assert (Hxid : comment_id ∈ plan_ids p).
    { unfold plan_ids. apply list_elem_of_fmap.
      by exists (comment_id, chunk, None). }
    split.
    + rewrite Hp, elem_of_union, elem_of_list_to_set.
      intros [H|H]; [done|]. by apply (Hnew _ Hxid).
    + rewrite has_row_out_rows. intros (row & Hrow & Hid).
      rewrite Hout in Hrow. unfold out_rows in Hrow. rewrite Hc in Hrow.
      simpl in Hrow.
      destruct (plan_rows_ids repr p row Hs Hrow) as (y & Hy & Hid').
      rewrite Hid in Hid'. injection Hid' as <-. done.
Qed.

(** ** Identifier discovery *)

(** The identifiers of the comments of a page, when each is a string. *)
Fixpoint string_ids (comments : list json) : option (list string) :=
  match comments with
  | [] => Some []
  | comment :: comments' =>
      match Py.subscript comment "id", string_ids comments' with
      | Val (JStr s), Some ids => Some (s :: ids)
      | _, _ => None
      end
  end.

(** [acc] with the new identifiers among [ids] appended, each once. *)
Definition add_new (acc ids : list string) : list string :=
  foldl (fun acc comment_id =>
           if bool_decide (comment_id ∈ acc) then acc else acc ++ [comment_id])
    acc ids.

(** A page that is served at once, decodes, lists comments with string
    identifiers and announces a next page: its identifiers. *)
Definition full_page (r : response) : option (list string) :=
  if is_success r then
    match page_try r with
    | Val (JArr comments, has_next_page) =>
        if Py.truthy has_next_page then string_ids comments else None
    | _ => None
    end
  else None.

(** The identifiers accumulated over such pages, from [acc] on. *)
Fixpoint discovered (pages : list response) (acc : list string)
  : option (list string) :=
  match pages with
  | [] => Some acc
  | r :: pages' =>
      match full_page r with
      | Some ids => discovered pages' (add_new acc ids)
      | None => None
      end
  end.

(** A page whose body does not decode or lacks an expected key. *)
Definition malformed_page (r : response) : Prop :=
  exists e, page_try r = Raise e /\ caught e = true.

Lemma get_requests_response_success v url delay n r script w :
  (1 <= n)%Z ->
  net w = AResp r :: script ->
  is_success r = true ->
  get_requests_response v url delay n w
  = Ok (Some r)
      (set_net script
         (set_trace (trace w ++ before_events v url delay 1 ++ [EvRequest url]) w)).
Proof.
  intros Hn Hnet Hs. unfold get_requests_response.
  assert (E : (n <? 1)%Z = false) by (apply Z.ltb_ge; lia).
  rewrite E, Hnet. apply requests_loop_success; [lia|exact Hs].
Qed.

Lemma add_comments_ok comments : forall ids l w,
  string_ids comments = Some ids ->
  exists w',
    add_comments comments l (list_to_set l) w
    = Ok (add_new l ids, list_to_set (add_new l ids)) w' /\
    net w' = net w.
Proof.
  induction comments as [|c comments IH]; intros ids l w H; simpl in H.
  - injection H as <-. by exists w.
  - destruct (Py.subscript c "id") as [[| | |s| |]|] eqn:Hc; try discriminate.
    destruct (string_ids comments) as [ids'|] eqn:Hids; [|discriminate].
    injection H as <-. simpl.
    unfold bind at 1. unfold comment_id_of. unfold bind at 1. rewrite Hc. simpl.
    unfold add_new. simpl. fold (add_new).
    destruct (decide (s ∈ l)) as [Hin|Hnin].
    + rewrite (bool_decide_eq_true_2 (s ∈ (list_to_set l : gset string)))
        by (by apply elem_of_list_to_set).
      rewrite (bool_decide_eq_true_2 _ Hin).
      unfold bind, print, emit.
      destruct (IH ids' l
                  (set_trace (trace w ++ [EvPrint (MsgDuplicate s)]) w) eq_refl)
        as (w' & E & Hn).
      exists w'. by split.
    + rewrite (bool_decide_eq_false_2 (s ∈ (list_to_set l : gset string)))
        by (by rewrite elem_of_list_to_set).
      rewrite (bool_decide_eq_false_2 _ Hnin).
      replace ({[s]} ∪ list_to_set l : gset string)
        with (list_to_set (l ++ [s]) : gset string)
        by (rewrite list_to_set_app_L; set_solver).
      apply IH. reflexivity.
Qed.

Lemma add_comments_plain_ok comments : forall ids (s : gset string) w,
  string_ids comments = Some ids ->
  exists w',
    add_comments_plain comments s w = Ok (list_to_set ids ∪ s) w' /\
    net w' = net w.
Proof.
  induction comments as [|c comments IH]; intros ids s w H; simpl in H.
  - injection H as <-. exists w. split; [|done]. simpl. unfold ret. f_equal.
    set_solver.
  - destruct (Py.subscript c "id") as [[| | |x| |]|] eqn:Hc; try discriminate.
    destruct (string_ids comments) as [ids'|] eqn:Hids; [|discriminate].
    injection H as <-. simpl.
    unfold bind at 1. unfold comment_id_of. unfold bind at 1. rewrite Hc. simpl.
    destruct (decide (x ∈ s)) as [Hin|Hnin].
    + rewrite (bool_decide_eq_true_2 _ Hin). unfold bind, print, emit.
      destruct (IH ids' s
                  (set_trace (trace w ++ [EvPrint (MsgDuplicate x)]) w) eq_refl)
        as (w' & E & Hn).
      exists w'. split; [|done]. rewrite E. f_equal. set_solver.
    + rewrite (bool_decide_eq_false_2 _ Hnin).
      destruct (IH ids' ({[x]} ∪ s) w eq_refl) as (w' & E & Hn).
      exists w'. split; [|done]. rewrite E. f_equal. set_solver.
Qed.

Lemma full_page_inv r ids :
  full_page r = Some ids ->
  exists comments has_next_page,
    is_success r = true /\
    page_try r = Val (JArr comments, has_next_page) /\
    Py.truthy has_next_page = true /\
    string_ids comments = Some ids.
Proof.
  unfold full_page. destruct (is_success r); [|discriminate].
  destruct (page_try r) as [[[| | | |comments|] hnp]|]; try discriminate.
  destruct (Py.truthy hnp) eqn:Ht; [|discriminate]. eauto 10.
Qed.

(** The page loop of the first script over full pages followed by a
    malformed one. *)
Lemma pages_loop_malformed r rest pages : forall fuel page_num l w acc,
  length pages < fuel ->
  net w = (AResp <$> pages) ++ AResp r :: rest ->
  discovered pages l = Some acc ->
  is_success r = true ->
  malformed_page r ->
  exists w' (t : list event),
    pages_loop fuel page_num l (list_to_set l) w = Ok acc w' /\
    net w' = rest /\
    trace w' = t ++ [EvPrint MsgInvalidResponse].
Proof.
  induction pages as [|g pages IH];
    intros fuel page_num l w acc Hfuel Hnet Hd Hs (e & He & Hc).
  - destruct fuel as [|fuel]; [simpl in Hfuel; lia|].
    simpl in Hd. injection Hd as <-. simpl in Hnet.
    cbn [pages_loop]. unfold bind at 1. unfold print at 1, emit at 1.
    unfold bind at 1.
    rewrite (get_requests_response_success Checkpointed API_COMMENTS_URL true 3 r rest)
      by (done || lia).
    rewrite (is_success_response_ok r Hs), He, Hc.
    unfold bind, print, emit. eexists _, _. split; [reflexivity|].
    split; reflexivity.
  - destruct fuel as [|fuel]; [simpl in Hfuel; lia|].
    simpl in Hd. destruct (full_page g) as [ids|] eqn:Hg; [|discriminate].
    apply full_page_inv in Hg as (comments & hnp & Hgs & Hgp & Hgt & Hgi).
    simpl in Hnet.
    cbn [pages_loop]. unfold bind at 1. unfold print at 1, emit at 1.
    unfold bind at 1.
    rewrite (get_requests_response_success Checkpointed API_COMMENTS_URL true 3 g
               ((AResp <$> pages) ++ AResp r :: rest)) by (done || lia).
    rewrite (is_success_response_ok g Hgs), Hgp. simpl py_iter.
    unfold bind at 1. unfold lift at 1, ret at 1. unfold bind at 1.
    match goal with
    | |- context [add_comments comments l (list_to_set l) ?w1] =>
        destruct (add_comments_ok comments ids l w1 Hgi) as (w2 & E2 & Hn2)
    end.
    rewrite E2, Hgt. cbn [fst snd].
    apply IH; [simpl in Hfuel; lia|exact Hn2|exact Hd|exact Hs|by exists e].
Qed.

(** The same for the page loop of the second script. *)
Lemma pages_loop_plain_malformed r rest pages : forall fuel page_num s w acc,
  length pages < fuel ->
  net w = (AResp <$> pages) ++ AResp r :: rest ->
  discovered pages [] = Some acc ->
  is_success r = true ->
  malformed_page r ->
  exists w' (t : list event),
    pages_loop_plain fuel page_num s w = Ok None w' /\
    net w' = rest /\
    trace w' = t ++ [EvPrint MsgInvalidResponse].
Proof.
  enough (forall fuel page_num (s : gset string) w,
    length pages < fuel ->
    net w = (AResp <$> pages) ++ AResp r :: rest ->
    Forall (fun g => is_Some (full_page g)) pages ->
    is_success r = true ->
    malformed_page r ->
    exists w' (t : list event),
      pages_loop_plain fuel page_num s w = Ok None w' /\
      net w' = rest /\
      trace w' = t ++ [EvPrint MsgInvalidResponse]) as H.
  { intros fuel page_num s w acc Hfuel Hnet Hd. apply H; [done|done|].
    clear -Hd. revert Hd. generalize (@nil string).
    induction pages as [|g pages IH]; intros l Hd; [constructor|].
    simpl in Hd. destruct (full_page g) as [ids|] eqn:Hg; [|discriminate].
    constructor; [by rewrite Hg|]. by eapply IH. }
  induction pages as [|g pages IH];
    intros fuel page_num s w Hfuel Hnet Hall Hs (e & He & Hc).
  - destruct fuel as [|fuel]; [simpl in Hfuel; lia|]. simpl in Hnet.
    cbn [pages_loop_plain]. unfold bind at 1. unfold print at 1, emit at 1.
    unfold bind at 1.
    rewrite (get_requests_response_success Plain API_COMMENTS_URL true 2 r rest)
      by (done || lia).
    rewrite He, Hc.
    unfold bind, print, emit. eexists _, _. split; [reflexivity|].
    split; reflexivity.
  - destruct fuel as [|fuel]; [simpl in Hfuel; lia|].
    apply Forall_cons in Hall as [[ids Hg] Hall].
    apply full_page_inv in Hg as (comments & hnp & Hgs & Hgp & Hgt & Hgi).
    simpl in Hnet.
    cbn [pages_loop_plain]. unfold bind at 1. unfold print at 1, emit at 1.
    unfold bind at 1.
    rewrite (get_requests_response_success Plain API_COMMENTS_URL true 2 g
               ((AResp <$> pages) ++ AResp r :: rest)) by (done || lia).
    rewrite Hgp. simpl py_iter.
    unfold bind at 1. unfold lift at 1, ret at 1. unfold bind at 1.
    match goal with
    | |- context [add_comments_plain comments s ?w1] =>
        destruct (add_comments_plain_ok comments ids s w1 Hgi) as (w2 & E2 & Hn2)
    end.
    rewrite E2, Hgt.
    apply IH; [simpl in Hfuel; lia|exact Hn2|exact Hall|exact Hs|by exists e].
Qed.

(** C8.  When the listing pages served so far were full and the next one is
    served but malformed (its body does not decode, or lacks [data], [meta]
    or [hasNextPage]), [get_comment_ids] of the first script prints, asks
    for no further page and returns the identifiers accumulated so far; that
    of the second script prints and returns [None]: no identifier at all. *)
Theorem malformed_page_ends_discovery page_size w pages r rest acc :
  page_size_ok page_size = true ->
  net w = (AResp <$> pages) ++ AResp r :: rest ->
  discovered pages [] = Some acc ->
  is_success r = true ->
  malformed_page r ->
  (exists w' (t : list event),
     get_comment_ids page_size w = Ok acc w' /\
     net w' = rest /\
     trace w' = t ++ [EvPrint MsgInvalidResponse;
                      EvPrint (MsgTotalFound (length acc))]) /\
  (exists w' (t : list event),
     get_comment_ids_plain page_size w = Ok None w' /\
     net w' = rest /\
     trace w' = t ++ [EvPrint MsgInvalidResponse]).
Proof.
  intros Hps Hnet Hd Hs Hm.
  assert (Hlen : length pages < S (length (net w))).
  { rewrite Hnet, length_app, length_fmap. lia. }
  split.
  - unfold get_comment_ids. rewrite Hps. change (negb true) with false. cbv iota.
    unfold bind at 1. unfold print at 1, emit at 1. unfold bind at 1.
    set (w1 := set_trace (trace w ++ [EvPrint MsgGettingIds]) w).
    destruct (pages_loop_malformed r rest pages (S (length (net w1))) 1 []
                w1 acc Hlen Hnet Hd Hs Hm) as (w' & t & E & Hn & Ht).
    change (list_to_set [] : gset string) with (∅ : gset string) in E.
    rewrite E. unfold bind, print, emit.
    eexists _, t. split; [reflexivity|]. split; [exact Hn|]. simpl.
    by rewrite Ht, <- app_assoc.
  - unfold get_comment_ids_plain. rewrite Hps. change (negb true) with false.
    cbv iota.
    unfold bind at 1. unfold print at 1, emit at 1. unfold bind at 1.
    set (w1 := set_trace (trace w ++ [EvPrint MsgGettingIds]) w).
    destruct (pages_loop_plain_malformed r rest pages (S (length (net w1))) 1 ∅
                w1 acc Hlen Hnet Hd Hs Hm) as (w' & t & E & Hn & Ht).
    rewrite E. exists w', t. by split.
Qed.

(** * Concrete runs *)

Definition no_repr : json -> string := fun _ => "".

Definition r429 : response := Response 429 None.
Definition r500 : response := Response 500 None.
Definition r200 : response := Response 200 None.

(** A detail response with an [attributes] dict. *)
Definition detail_response (attrs : list (string * json)) : response :=
  Response 200 (Some (JObj [("data", JObj [("attributes", JObj attrs)])])).

(** A listing response. *)
Definition listing_response (ids : list string) (has_next_page : bool)
  : response :=
  Response 200
    (Some (JObj [("data", JArr ((fun s => JObj [("id", JStr s)]) <$> ids));
                 ("meta", JObj [("hasNextPage", JBool has_next_page)])])).

(** A fresh process: nothing scripted, no file, the globals as the module
    sets them. *)
Definition fresh : world := World [] [] ∅ 1 0 None [] [].

(** The sequence 429, 429, 200 of the specification, with one try. *)
Example rate_limit_429_429_200 :
  exists w',
    get_requests_response Checkpointed "u" false 1
      (set_net [AResp r429; AResp r429; AResp r200] fresh) = Ok (Some r200) w' /\
    trace w' =
      [ EvRequest "u"; EvPrint (MsgRateLimit 600); EvSaveProcessedIds; EvSleep 600;
        EvRequest "u"; EvPrint (MsgRateLimit 600); EvSaveProcessedIds; EvSleep 600;
        EvRequest "u" ] /\
    checkpoint_file w' = Some "".
Proof. eexists. split; [vm_compute; reflexivity|]. split; reflexivity. Qed.

Lemma rate_limit_takes_no_try_witness :
  (1 <= 1)%Z /\
  faults (set_net [AResp r429; AResp r429; AResp r200] fresh) = [] /\
  is_rate_limit r429 = true /\
  is_success r200 = true /\
  exists w' (evs : list event),
    get_requests_response Checkpointed "u" false 1
      (set_net [AResp r429; AResp r429; AResp r200] fresh) = Ok (Some r200) w' /\
    net w' = [] /\
    trace w' = trace (set_net [AResp r429; AResp r429; AResp r200] fresh) ++ evs /\
    count is_request evs = 3 /\
    count (is_sleep (rate_limit_wait_seconds Checkpointed)) evs = 2 /\
    count is_save evs = 2 /\
    checkpoint_file w' = Some "".
Proof.
  split; [lia|]. split; [reflexivity|]. split; [reflexivity|].
  split; [reflexivity|].
  exact (proj2 (rate_limit_takes_no_try Checkpointed "u" false 1
                  (set_net [AResp r429; AResp r429; AResp r200] fresh)
                  2 r429 r200 [] ltac:(lia) eq_refl eq_refl eq_refl eq_refl)).
Defined.

Lemma executor_attempt_budget_witness :
  (1 <= 3)%Z /\
  faults (set_net [AResp r500; ATimeout; AError; AResp r200] fresh) = [] /\
  forallb retriable [AResp r500; ATimeout] = true /\
  exists w' (evs : list event),
    get_requests_response Plain "u" false 3
      (set_net [AResp r500; ATimeout; AError; AResp r200] fresh)
    = Ok (Some r500) w' /\
    net w' = [AResp r200] /\
    count is_request evs = 3.
Proof.
  split; [lia|]. split; [reflexivity|]. split; [reflexivity|].
  destruct (executor_attempt_budget Plain "u" false 3
              (set_net [AResp r500; ATimeout; AError; AResp r200] fresh)
              [AResp r500; ATimeout] AError [AResp r200]
              ltac:(lia) eq_refl eq_refl eq_refl
              (or_intror (conj eq_refl eq_refl)))
    as (w' & evs & H1 & H2 & _ & H3 & _).
  exists w', evs. split; [exact H1|]. split; [exact H2|exact H3].
Defined.

(** C6 as stated fails: the operator interrupts the flush at its first
    [write], after [open] has emptied the file; the file then holds neither
    what it held nor the set. *)
Definition interrupted_flush : world :=
  World [] [None; Some KeyboardInterrupt] {["A"; "B"]} 1 0
    (Some ("A" +:+ nl +:+ "B" +:+ nl)) [] [].

Lemma flush_is_not_atomic :
  exists w',
    save_processed_ids interrupted_flush = Exc KeyboardInterrupt w' /\
    checkpoint_file w' = Some "" /\
    checkpoint_file w' <> checkpoint_file interrupted_flush /\
    checkpoint_file w'
    <> Some (ids_text (elements (processed_comment_ids interrupted_flush))).
Proof.
  eexists. split; [vm_compute; reflexivity|]. split; [reflexivity|].
  split; [discriminate|]. vm_compute. discriminate.
Qed.

Lemma flush_writes_the_set_witness :
  faults (set_processed {["A"; "B"]} fresh) = [] /\
  exists w1,
    save_processed_ids (set_processed {["A"; "B"]} fresh) = Ok tt w1 /\
    checkpoint_file w1
    = Some (ids_text (elements ({["A"; "B"]} : gset string))).
Proof.
  split; [reflexivity|].
  destruct (flush_writes_the_set (set_processed {["A"; "B"]} fresh) eq_refl)
    as (w1 & w2 & H1 & H2 & _).
  exists w1. split; [exact H1|exact H2].
Defined.

(** C10 as stated fails: a null [withdrawn] stays null in the record. *)
Lemma null_flag_is_kept_null :
  exists row w',
    get_comment_detail_data no_repr Checkpointed "X"
      (set_net [AResp (detail_response [("withdrawn", JNull)])] fresh)
    = Ok (Some row) w' /\
    Py.assoc "withdrawn" row = Some JNull /\
    ~ defaults_to_empty [("withdrawn", JNull)] row.
Proof.
  eexists _, _. split; [vm_compute; reflexivity|]. split; [reflexivity|].
  intros H. unfold defaults_to_empty in H.
  rewrite Forall_forall in H.
  specialize (H ("withdrawn", "withdrawn")).
  assert (Hin : ("withdrawn", "withdrawn") ∈ upstream_fields).
  { unfold upstream_fields. apply elem_of_app. right. apply elem_of_app. right.
    apply elem_of_cons. right. apply elem_of_cons. by left. }
  specialize (H Hin (or_intror eq_refl)). discriminate H.
Qed.

Lemma record_has_every_field_witness :
  exists row,
    row.*1 = fieldnames /\
    Py.assoc "comment" row = Some (JStr "") /\
    Py.assoc "open_for_comment" row = Some (JBool false).
Proof.
  destruct (record_has_every_field no_repr Plain "X"
              (set_net [AResp (detail_response
                                 [("comment", JNull); ("openForComment", JBool false)])]
                 fresh)
              (build_record no_repr "X"
                 [("comment", JNull); ("openForComment", JBool false)])
              _ ltac:(vm_compute; reflexivity))
    as (attrs & _ & H1 & _).
  eexists. split; [exact H1|]. split; reflexivity.
Defined.

Lemma plain_detail_fetch_raises_without_response_witness :
  raised ATimeout = true /\
  raised AError = true /\
  exists w',
    get_comment_detail_data no_repr Plain "X" (set_net [ATimeout; AError] fresh)
    = Exc AttributeError w'.
Proof.
  split; [reflexivity|]. split; [reflexivity|].
  exact (plain_detail_fetch_raises_without_response no_repr "X"
           (set_net [ATimeout; AError] fresh) ATimeout AError []
           eq_refl eq_refl eq_refl).
Defined.

(** C2 as stated fails on an empty discovered list: the difference is empty
    and [main] returns without the nothing-to-do message. *)
Lemma empty_discovery_reports_nothing :
  to_process [] (processed_comment_ids fresh) = [] /\
  process_discovered no_repr 500 [] fresh = Ok tt fresh /\
  EvPrint MsgNothingToDo ∉ trace fresh.
Proof.
  split; [reflexivity|]. split; [reflexivity|]. simpl. apply not_elem_of_nil.
Qed.

(** A fetch served at once with a record, and one served with a body that
    does not decode. *)
Definition good_fetch (comment_id : string)
  : string * list attempt * option record :=
  (comment_id,
   [AResp (detail_response [("title", JStr comment_id)])],
   Some (build_record no_repr comment_id [("title", JStr comment_id)])).

Definition failed_fetch (comment_id : string)
  : string * list attempt * option record :=
  (comment_id, [AResp r200], None).

Lemma good_fetch_scripted comment_id :
  fetch_script no_repr comment_id (good_fetch comment_id).1.2
    (good_fetch comment_id).2.
Proof.
  apply (fetch_record no_repr comment_id []
           (detail_response [("title", JStr comment_id)])); try reflexivity.
  simpl. lia.
Qed.

Lemma failed_fetch_scripted comment_id :
  fetch_script no_repr comment_id (failed_fetch comment_id).1.2
    (failed_fetch comment_id).2.
Proof.
  apply (fetch_malformed no_repr comment_id [] r200 JSONDecodeError);
    try reflexivity.
  simpl. lia.
Qed.

(** The crash-recovery example of the specification: the checkpoint holds A
    and B, discovery finds A, B, C, D. *)
Definition resumed : world :=
  set_processed {["A"; "B"]}
    (set_net (plan_net [good_fetch "C"; good_fetch "D"]) fresh).

Lemma resume_processes_the_difference_witness :
  1 <= 500 /\
  ["A"; "B"; "C"; "D"] <> [] /\
  NoDup ["A"; "B"; "C"; "D"] /\
  plan_ids [good_fetch "C"; good_fetch "D"]
  = to_process ["A"; "B"; "C"; "D"] (processed_comment_ids resumed) /\
  exists w',
    process_discovered no_repr 500 ["A"; "B"; "C"; "D"] resumed = Ok tt w' /\
    row_id <$> out_rows w' = [Some (JStr "C"); Some (JStr "D")] /\
    processed_comment_ids w' = {["A"; "B"]} ∪ list_to_set ["A"; "B"; "C"; "D"].
Proof.
  assert (Hnd : NoDup ["A"; "B"; "C"; "D"]).
  { repeat (apply NoDup_cons_2; [set_solver|]). apply NoDup_nil_2. }
  assert (Hids : plan_ids [good_fetch "C"; good_fetch "D"]
                 = to_process ["A"; "B"; "C"; "D"] (processed_comment_ids resumed))
    by (vm_compute; reflexivity).
  split; [lia|]. split; [discriminate|]. split; [exact Hnd|].
  split; [exact Hids|].
  destruct (resume_processes_the_difference no_repr 500 ["A"; "B"; "C"; "D"]
              [good_fetch "C"; good_fetch "D"] resumed []
              ltac:(lia) ltac:(discriminate) Hnd eq_refl eq_refl eq_refl Hids)
    as (_ & _ & w' & H1 & H2 & H3 & _).
  - repeat constructor; apply good_fetch_scripted.
  - repeat constructor; by eexists.
  - vm_compute. reflexivity.
  - exists w'. split; [exact H1|]. split; [|exact H3].
    rewrite H2, <- Hids. reflexivity.
Defined.

Lemma rotation_produces_ceil_sinks_witness :
  1 <= 2 /\
  ends_with_record [good_fetch "A"; good_fetch "B"; good_fetch "C"] /\
  exists w',
    fetching no_repr 2 ["A"; "B"; "C"]
      (set_net (plan_net [good_fetch "A"; good_fetch "B"; good_fetch "C"]) fresh)
    = Ok tt w' /\
    length (csv_files w') = 2 /\
    (length ∘ sink_rows) <$> csv_files w' = [1; 2].
Proof.
  split; [lia|]. split; [by eexists|].
  destruct (rotation_produces_ceil_sinks no_repr 2
              [good_fetch "A"; good_fetch "B"; good_fetch "C"]
              (set_net (plan_net [good_fetch "A"; good_fetch "B"; good_fetch "C"])
                 fresh) []
              ltac:(lia) eq_refl eq_refl eq_refl)
    as (w' & H1 & _ & H2 & _).
  - vm_compute. reflexivity.
  - repeat constructor; apply good_fetch_scripted.
  - repeat (apply NoDup_cons_2; [set_solver|]). apply NoDup_nil_2.
  - intros x _. apply not_elem_of_empty.
  - by eexists.
  - exists w'. split; [exact H1|]. split; [exact H2|].
    assert (E : fetching no_repr 2 ["A"; "B"; "C"]
              (set_net (plan_net [good_fetch "A"; good_fetch "B"; good_fetch "C"])
                 fresh)
              = Ok tt w') by exact H1.
    vm_compute in E. injection E as <-. reflexivity.
Defined.

(** [main] at its [try], one file just created, with A fetched and X served
    a body that does not decode. *)
Definition at_try (script : list attempt) : world :=
  set_csv [Sink 1 [] 0 false] (set_net script fresh).

Lemma checkpointed_iff_written_witness :
  first_file_open (at_try (plan_net [good_fetch "A"; failed_fetch "X"])) /\
  exists w1,
    for_loop no_repr 500 1 2 ["A"; "X"]
      (at_try (plan_net [good_fetch "A"; failed_fetch "X"])) = Ok tt w1 /\
    ("A" ∈ processed_comment_ids w1) /\
    ("X" ∉ processed_comment_ids w1) /\
    ~ has_row sink_rows "X" (csv_files w1).
Proof.
  assert (Hopen : first_file_open
                    (at_try (plan_net [good_fetch "A"; failed_fetch "X"])))
    by (by exists 1%Z).
  split; [exact Hopen|].
  destruct (checkpointed_iff_written no_repr 500 ["A"; "X"]
              (at_try (plan_net [good_fetch "A"; failed_fetch "X"])) Hopen)
    as [_ HB].
  destruct (HB [good_fetch "A"; failed_fetch "X"] [] "X" [AResp r200]
              eq_refl ltac:(lia) eq_refl eq_refl)
    as (w1 & H1 & H2 & H3).
  - vm_compute. reflexivity.
  - constructor; [apply good_fetch_scripted|].
    constructor; [apply failed_fetch_scripted|constructor].
  - repeat (apply NoDup_cons_2; [set_solver|]). apply NoDup_nil_2.
  - intros x _. apply not_elem_of_empty.
  - apply elem_of_cons. right. apply elem_of_cons. by left.
  - exists w1. split; [exact H1|]. split; [|by split].
    assert (E : for_loop no_repr 500 1 2 ["A"; "X"]
                  (at_try (plan_net [good_fetch "A"; failed_fetch "X"]))
                = Ok tt w1) by exact H1.
    vm_compute in E. injection E as <-. simpl. set_solver.
Defined.

Lemma every_exit_of_the_loop_drains_witness :
  first_file_open (at_try [AInterrupt]) /\
  exists w2,
    try_except_finally (for_loop no_repr 500 1 1 ["A"]) drain (at_try [AInterrupt])
    = Ok tt w2 /\
    all_closed w2 /\
    checkpoint_file w2 = Some "" /\
    exists t,
      trace w2 = t ++ [EvPrint MsgInterrupted] ++ drain_events (at_try [AInterrupt]).
Proof.
  assert (Hopen : first_file_open (at_try [AInterrupt])) by (by exists 1%Z).
  split; [exact Hopen|].
  destruct (every_exit_of_the_loop_drains no_repr 500 ["A"] (at_try [AInterrupt])
              Hopen) as (w1 & evs & Hexit & Hdrain).
  assert (E : for_loop no_repr 500 1 1 ["A"] (at_try [AInterrupt])
              = Exc KeyboardInterrupt
                  (set_trace
                     [EvPrint (MsgGettingData "A" 1 1); EvRandomSleep 2 4;
                      EvRequest (comment_detail_url "A")]
                     (at_try []))) by (vm_compute; reflexivity).
  assert (Hw1 : w1 = set_trace
                       [EvPrint (MsgGettingData "A" 1 1); EvRandomSleep 2 4;
                        EvRequest (comment_detail_url "A")]
                       (at_try []) /\ evs = [EvPrint MsgInterrupted]).
  { simpl length in Hexit. rewrite E in Hexit.
    destruct Hexit as [[H _]|[[H ->]|(e & He & H & _)]]; try discriminate.
    - injection H as <-. by split.
    - injection H as <- <-. discriminate He. }
  destruct Hw1 as [-> ->].
  destruct (Hdrain eq_refl) as (w2 & H1 & H2 & _ & H3 & H4).
  exists w2. split; [exact H1|]. split; [exact H2|]. split; [exact H3|].
  eexists. exact H4.
Defined.

Lemma malformed_page_ends_discovery_witness :
  page_size_ok 250 = true /\
  discovered [listing_response ["A"; "B"] true] [] = Some ["A"; "B"] /\
  is_success r200 = true /\
  malformed_page r200 /\
  (exists w',
     get_comment_ids 250
       (set_net [AResp (listing_response ["A"; "B"] true); AResp r200] fresh)
     = Ok ["A"; "B"] w') /\
  (exists w',
     get_comment_ids_plain 250
       (set_net [AResp (listing_response ["A"; "B"] true); AResp r200] fresh)
     = Ok None w').
Proof.
  assert (Hm : malformed_page r200) by (exists JSONDecodeError; by split).
  split; [reflexivity|]. split; [reflexivity|]. split; [reflexivity|].
  split; [exact Hm|].
  destruct (malformed_page_ends_discovery 250
              (set_net [AResp (listing_response ["A"; "B"] true); AResp r200] fresh)
              [listing_response ["A"; "B"] true] r200 [] ["A"; "B"]
              eq_refl eq_refl eq_refl eq_refl Hm)
    as [(w1 & t1 & H1 & _) (w2 & t2 & H2 & _)].
  split; [by exists w1|by exists w2].
Defined.

(** ** The fuel of the page loops *)

(** [m] leaves the script of the network as it is. *)
Definition net_kept {A} (m : M A) : Prop :=
  forall w, wp m (fun _ w' => net w' = net w) (fun _ w' => net w' = net w) w.

Lemma net_kept_ret {A} (a : A) : net_kept (ret a).
Proof. by intros w. Qed.

Lemma net_kept_raise {A} e : net_kept (@raise A e).
Proof. by intros w. Qed.

Lemma net_kept_emit ev : net_kept (emit ev).
Proof. by intros w. Qed.

Lemma net_kept_bind {A B} (m : M A) (k : A -> M B) :
  net_kept m -> (forall a, net_kept (k a)) -> net_kept (bind m k).
Proof.
  intros Hm Hk w. apply wp_bind.
  eapply wp_conseq; [apply Hm| |].
  - intros a w' Hw'. simpl.
    eapply wp_conseq; [apply (Hk a w')| |]; simpl; intros; congruence.
  - intros e w' Hw'. exact Hw'.
Qed.

Lemma net_kept_when b m : net_kept m -> net_kept (when b m).
Proof. destruct b; [done|]. intros _. apply net_kept_ret. Qed.

Lemma net_kept_file_op : net_kept file_op.
Proof. intros w. by apply wp_file_op. Qed.

Lemma net_kept_write_ids ids : net_kept (write_ids ids).
Proof.
  induction ids as [|x ids IH]; [apply net_kept_ret|].
  simpl. apply net_kept_bind; [apply net_kept_file_op|]. intros _.
  apply net_kept_bind; [|done]. by intros w.
Qed.

Lemma net_kept_save_processed_ids : net_kept save_processed_ids.
Proof.
  unfold save_processed_ids.
  apply net_kept_bind; [apply net_kept_emit|]. intros _.
  apply net_kept_bind; [apply net_kept_file_op|]. intros _.
  apply net_kept_bind; [by intros w|]. intros _.
  intros w. apply net_kept_write_ids.
Qed.

Lemma net_kept_before_request v url delay t :
  net_kept (before_request v url delay t).
Proof.
  unfold before_request.
  apply net_kept_bind; [apply net_kept_when, net_kept_emit|]. intros _.
  apply net_kept_bind; [|intros _; apply net_kept_emit].
  apply net_kept_when. destruct v; apply net_kept_emit.
Qed.

Lemma offline_loop_net v url delay left : forall t resp w,
  wp (offline_loop v url delay left t resp)
    (fun o w' => o = resp /\ net w' = net w) (fun _ _ => True) w.
Proof.
  induction left as [|left IH]; intros t resp w; [by split|].
  simpl. apply wp_bind.
  eapply wp_conseq; [apply net_kept_before_request| |done].
  intros [] w1 Hw1. simpl. apply wp_bind, wp_emit.
  eapply wp_conseq; [apply IH| |done].
  intros o w2 [-> Hw2]. simpl in Hw2. split; [done|congruence].
Qed.

(** The executor returns the [resp] it was entered with, the script
    untouched, or it has used up at least one scripted outcome. *)
Lemma requests_loop_net v url delay n script : forall t resp w,
  net w = script ->
  wp (requests_loop v url delay n script t resp)
    (fun o w' => (o = resp /\ net w' = script) \/ length (net w') < length script)
    (fun _ _ => True) w.
Proof.
  induction script as [|a script IH]; intros t resp w Hnet.
  - eapply wp_conseq; [apply offline_loop_net| |done].
    intros o w' [-> Hw']. left. split; [done|congruence].
  - simpl. destruct (n <? t)%Z; [left; by split|].
    apply wp_bind.
    eapply wp_conseq; [apply net_kept_before_request| |done].
    intros [] w1 _. simpl. apply wp_bind, wp_modify.
    assert (Hrec : forall t' resp' w2, net w2 = script ->
      wp (requests_loop v url delay n script t' resp')
        (fun o w' => (o = resp /\ net w' = a :: script) \/
                     length (net w') < length (a :: script))
        (fun _ _ => True) w2).
    { intros t' resp' w2 Hw2.
      eapply wp_conseq; [by apply IH| |done].
      intros o w' [[_ Hw']|Hw']; right; simpl; [rewrite Hw'|]; lia. }
    destruct a as [| | |r].
    + apply wp_bind, wp_emit. by apply Hrec.
    + apply wp_bind, wp_emit. by apply Hrec.
    + done.
    + destruct (status_in successful_http_status_codes (status_code r)).
      { right. simpl. lia. }
      destruct (status_in rate_limit_status_codes (status_code r)).
      * apply wp_bind, wp_emit, wp_bind.
        eapply wp_conseq;
          [destruct v; [apply net_kept_save_processed_ids|apply net_kept_ret]
          | |done].
        intros [] w2 Hw2. simpl in Hw2. simpl. apply wp_bind, wp_emit.
        apply Hrec. simpl. exact Hw2.
      * apply wp_bind, wp_emit. by apply Hrec.
Qed.

Lemma get_requests_response_net v url delay n w :
  wp (get_requests_response v url delay n)
    (fun o w' => (o = None /\ net w' = net w) \/ length (net w') < length (net w))
    (fun _ _ => True) w.
Proof.
  unfold get_requests_response. destruct (n <? 1)%Z; [done|].
  by apply requests_loop_net.
Qed.

Lemma comment_id_of_net comment w s w' :
  comment_id_of comment w = Ok s w' -> w' = w.
Proof.
  unfold comment_id_of, bind, lift.
  destruct (Py.subscript comment "id") as [[| | | | |]|]; simpl;
    try discriminate.
  by intros [= _ ->].
Qed.

Lemma add_comments_net comments : forall l s w acc w',
  add_comments comments l s w = Ok acc w' -> net w' = net w.
Proof.
  induction comments as [|c comments IH]; intros l s w acc w' H; simpl in H.
  - by injection H as _ <-.
  - unfold bind at 1 in H.
    destruct (comment_id_of c w) as [x w1|e w1|] eqn:Hc; try discriminate.
    apply comment_id_of_net in Hc as ->.
    destruct (bool_decide (x ∈ s)).
    + unfold bind, print, emit in H. by apply IH in H.
    + by apply IH in H.
Qed.

Lemma add_comments_plain_net comments : forall s w acc w',
  add_comments_plain comments s w = Ok acc w' -> net w' = net w.
Proof.
  induction comments as [|c comments IH]; intros s w acc w' H; simpl in H.
  - by injection H as _ <-.
  - unfold bind at 1 in H.
    destruct (comment_id_of c w) as [x w1|e w1|] eqn:Hc; try discriminate.
    apply comment_id_of_net in Hc as ->.
    destruct (bool_decide (x ∈ s)).
    + unfold bind, print, emit in H. by apply IH in H.
    + by apply IH in H.
Qed.

Lemma bind_cong {A B} (m : M A) (k1 k2 : A -> M B) w :
  (forall a w', m w = Ok a w' -> k1 a w' = k2 a w') ->
  bind m k1 w = bind m k2 w.
Proof. unfold bind. intros H. destruct (m w); auto. Qed.

(** Any fuel above the length of the script gives the same run: the
    [Unmodelled] of the loops at fuel [0] is never met from
    [get_comment_ids] and [get_comment_ids_plain]. *)
Lemma pages_loop_fuel fuel1 : forall fuel2 page_num l s w,
  length (net w) < fuel1 ->
  length (net w) < fuel2 ->
  pages_loop fuel1 page_num l s w = pages_loop fuel2 page_num l s w.
Proof.
  induction fuel1 as [|fuel1 IH]; intros fuel2 page_num l s w H1 H2; [lia|].
  destruct fuel2 as [|fuel2]; [lia|].
  cbn [pages_loop]. apply bind_cong. intros [] w1 Hw1.
  unfold print, emit in Hw1. injection Hw1 as <-.
  apply bind_cong. intros o w2 Hw2.
  pose proof (get_requests_response_net Checkpointed API_COMMENTS_URL true 3
                (set_trace (trace w ++ [EvPrint (MsgProcessingPage page_num)]) w))
    as Hnet.
  unfold wp in Hnet. rewrite Hw2 in Hnet. simpl in Hnet.
  destruct o as [r|]; [|reflexivity].
  destruct Hnet as [[? _]|Hlt]; [discriminate|].
  destruct (response_ok r); [|reflexivity].
  destruct (page_try r) as [[data hnp]|e]; [|reflexivity].
  apply bind_cong. intros comments w3 Hw3.
  assert (w3 = w2) as ->.
  { unfold lift in Hw3. destruct (py_iter data); [by injection Hw3|discriminate]. }
  apply bind_cong. intros acc w4 Hw4. apply add_comments_net in Hw4.
  destruct (Py.truthy hnp); [|reflexivity].
  apply IH; rewrite Hw4; lia.
Qed.

Lemma pages_loop_plain_fuel fuel1 : forall fuel2 page_num s w,
  length (net w) < fuel1 ->
  length (net w) < fuel2 ->
  pages_loop_plain fuel1 page_num s w = pages_loop_plain fuel2 page_num s w.
Proof.
  induction fuel1 as [|fuel1 IH]; intros fuel2 page_num s w H1 H2; [lia|].
  destruct fuel2 as [|fuel2]; [lia|].
  cbn [pages_loop_plain]. apply bind_cong. intros [] w1 Hw1.
  unfold print, emit in Hw1. injection Hw1 as <-.
  apply bind_cong. intros o w2 Hw2.
  pose proof (get_requests_response_net Plain API_COMMENTS_URL true 2
                (set_trace (trace w ++ [EvPrint (MsgProcessingPage page_num)]) w))
    as Hnet.
  unfold wp in Hnet. rewrite Hw2 in Hnet. simpl in Hnet.
  destruct o as [r|]; [|reflexivity].
  destruct Hnet as [[? _]|Hlt]; [discriminate|].
  destruct (page_try r) as [[data hnp]|e]; [|reflexivity].
  apply bind_cong. intros comments w3 Hw3.
  assert (w3 = w2) as ->.
  { unfold lift in Hw3. destruct (py_iter data); [by injection Hw3|discriminate]. }
  apply bind_cong. intros acc w4 Hw4. apply add_comments_plain_net in Hw4.
  destruct (Py.truthy hnp); [|reflexivity].
  apply IH; rewrite Hw4; lia.
Qed.

(** * Further properties of the two scripts *)

(** ** The checkpoint store: saving and loading *)

Definition is_newline (c : ascii) : bool :=
  Ascii.eqb c "010"%char || Ascii.eqb c "013"%char.

(** No line terminator occurs in [s]. *)
Fixpoint no_newline (s : string) : bool :=
  match s with
  | EmptyString => true
  | String c s' => negb (is_newline c) && no_newline s'
  end.

Lemma file_lines_line s rest :
  no_newline s = true ->
  file_lines (s +:+ nl +:+ rest) = s :: file_lines rest.
Proof.
  induction s as [|c s IH]; intros H; [reflexivity|].
  simpl in H. apply andb_prop in H as [Hc Hs].
  apply negb_true_iff in Hc. unfold is_newline in Hc.
  apply orb_false_elim in Hc as [Hc1 Hc2].
  change (String c s +:+ nl +:+ rest) with (String c (s +:+ nl +:+ rest)).
  cbn [file_lines]. rewrite Hc1, Hc2, (IH Hs). reflexivity.
Qed.

Lemma file_lines_ids_text ids :
  Forall (fun s => no_newline s = true) ids ->
  file_lines (ids_text ids) = ids.
Proof.
  induction 1 as [|x ids Hx _ IH]; [reflexivity|].
  change (ids_text (x :: ids)) with (x +:+ nl +:+ ids_text ids).
  by rewrite (file_lines_line x _ Hx), IH.
Qed.

(** X1.  Saving and loading is a round trip.  When no identifier of the set holds
    a line terminator or starts or ends with white space, and no file
    operation fails, [load_processed_ids] run on the file written by
    [save_processed_ids] restores the set, whatever set the loading process
    starts with. *)
Theorem checkpoint_round_trip w (S0 : gset string) :
  faults w = [] ->
  (forall comment_id, comment_id ∈ processed_comment_ids w ->
     no_newline comment_id = true /\ strip comment_id = comment_id) ->
  exists w1 w2,
    save_processed_ids w = Ok tt w1 /\
    load_processed_ids (set_processed S0 w1) = Ok tt w2 /\
    processed_comment_ids w2 = processed_comment_ids w /\
    checkpoint_file w2 = checkpoint_file w1.
Proof.
  intros Hf Hclean. exists (flushed w). eexists.
  split; [by apply save_processed_ids_ok|].
  unfold load_processed_ids. cbn [checkpoint_file set_processed flushed].
  unfold bind, file_op, modify, print, emit. cbn. rewrite Hf.
  split; [reflexivity|]. cbn. split; [|reflexivity].
  rewrite file_lines_ids_text.
  - rewrite <- (list_to_set_elements_L (processed_comment_ids w)) at 2.
    f_equal. apply list_eq_Forall2, Forall2_fmap_l, Forall_Forall2_diag.
    apply Forall_forall. intros x Hx. apply Hclean. by apply elem_of_elements.
  - apply Forall_forall. intros x Hx. apply Hclean. by apply elem_of_elements.
Qed.

Lemma checkpoint_round_trip_witness :
  faults (set_processed {["FDA-1"; "FDA-2"]} fresh) = [] /\
  exists w1 w2,
    save_processed_ids (set_processed {["FDA-1"; "FDA-2"]} fresh) = Ok tt w1 /\
    load_processed_ids (set_processed ∅ w1) = Ok tt w2 /\
    processed_comment_ids w2 = {["FDA-1"; "FDA-2"]}.
Proof.
  split; [reflexivity|].
  destruct (checkpoint_round_trip (set_processed {["FDA-1"; "FDA-2"]} fresh) ∅
              eq_refl) as (w1 & w2 & H1 & H2 & H3 & _).
  - intros x Hx. simpl in Hx.
    apply elem_of_union in Hx as [Hx|Hx]; apply elem_of_singleton in Hx;
      subst x; split; reflexivity.
  - exists w1, w2. split; [exact H1|]. split; [exact H2|exact H3].
Defined.

(** ** The request executor: interrupts and the number of requests *)

(** X2.  An interrupt while a request blocks is not one of the failures the loop
    retries: after outcomes that leave tries, it leaves the executor as
    [KeyboardInterrupt], and no further outcome of the script is used. *)
Theorem interrupt_leaves_the_executor v url delay n w pre rest :
  (1 <= n)%Z ->
  faults w = [] ->
  net w = pre ++ AInterrupt :: rest ->
  forallb retriable pre = true ->
  (Z.of_nat (count consumes pre) < n)%Z ->
  exists w',
    get_requests_response v url delay n w = Exc KeyboardInterrupt w' /\
    net w' = rest /\
    keeps w w'.
Proof.
  intros Hn Hf Hnet Hpre Hc.
  pose proof (framed_get_requests_response v url delay n w) as Hk.
  unfold wp in Hk.
  enough (exists w', get_requests_response v url delay n w
                     = Exc KeyboardInterrupt w' /\ net w' = rest)
    as (w' & E & Hrest).
  { exists w'. rewrite E in Hk. auto. }
  clear Hk. unfold get_requests_response.
  assert (E1 : (n <? 1)%Z = false) by (apply Z.ltb_ge; lia). rewrite E1, Hnet.
  destruct (requests_loop_prefix v url delay n pre (AInterrupt :: rest) 1 None w
              Hf Hnet Hpre) as (w1 & evs & E & _); [lia|].
  rewrite E. cbn [requests_loop].
  assert (Hlt : (n <? 1 + Z.of_nat (count consumes pre))%Z = false)
    by (apply Z.ltb_ge; lia).
  rewrite Hlt. unfold bind at 1. rewrite before_request_ok.
  unfold bind, modify, raise. eexists. split; reflexivity.
Qed.

Lemma interrupt_leaves_the_executor_witness :
  (1 <= 3)%Z /\
  forallb retriable [ATimeout; AResp r429] = true /\
  exists w',
    get_requests_response Checkpointed "u" false 3
      (set_net [ATimeout; AResp r429; AInterrupt; AResp r200] fresh)
    = Exc KeyboardInterrupt w' /\
    net w' = [AResp r200].
Proof.
  split; [lia|]. split; [reflexivity|].
  destruct (interrupt_leaves_the_executor Checkpointed "u" false 3
              (set_net [ATimeout; AResp r429; AInterrupt; AResp r200] fresh)
              [ATimeout; AResp r429] [AResp r200]
              ltac:(lia) eq_refl eq_refl eq_refl ltac:(simpl; lia))
    as (w' & H1 & H2 & _).
  exists w'. by split.
Defined.

(** From [w] to [w'] the trace grew by at most [k] requests. *)
Definition at_most_requests (k : nat) (w w' : world) : Prop :=
  exists evs : list event,
    trace w' = trace w ++ evs /\ count is_request evs <= k.

Lemma at_most_requests_refl k w : at_most_requests k w w.
Proof. exists []. rewrite app_nil_r. split; [done|simpl; lia]. Qed.


(** [m] issues no request. *)
Definition quiet {A} (m : M A) : Prop :=
  forall w, wp m (fun _ => at_most_requests 0 w) (fun _ => at_most_requests 0 w) w.

Lemma quiet_ret {A} (a : A) : quiet (ret a).
Proof. intros w. apply at_most_requests_refl. Qed.



Lemma quiet_when b m : quiet m -> quiet (when b m).
Proof. destruct b; [done|]. intros _. apply quiet_ret. Qed.










(** ** Identifier discovery: complete runs, duplicates, failures *)

(** A page served at once that decodes, lists comments with string
    identifiers and announces no next page: its identifiers. *)
Definition last_page (r : response) : option (list string) :=
  if is_success r then
    match page_try r with
    | Val (JArr comments, has_next_page) =>
        if Py.truthy has_next_page then None else string_ids comments
    | _ => None
    end
  else None.

Lemma last_page_inv r ids :
  last_page r = Some ids ->
  exists comments has_next_page,
    is_success r = true /\
    page_try r = Val (JArr comments, has_next_page) /\
    Py.truthy has_next_page = false /\
    string_ids comments = Some ids.
Proof.
  unfold last_page. destruct (is_success r); [|discriminate].
  destruct (page_try r) as [[[| | | |comments|] hnp]|]; try discriminate.
  destruct (Py.truthy hnp) eqn:Ht; [discriminate|]. eauto 10.
Qed.

Lemma add_new_snoc acc ids x :
  add_new acc (ids ++ [x])
  = if bool_decide (x ∈ add_new acc ids) then add_new acc ids
    else add_new acc ids ++ [x].
Proof. unfold add_new. by rewrite foldl_app. Qed.

Lemma elem_of_add_new ids : forall acc x,
  x ∈ add_new acc ids <-> x ∈ acc \/ x ∈ ids.
Proof.
  induction ids as [|y ids IH]; intros acc x; simpl.
  - rewrite elem_of_nil. tauto.
  - change (add_new acc (y :: ids))
      with (add_new (if bool_decide (y ∈ acc) then acc else acc ++ [y]) ids).
    rewrite IH, elem_of_cons. case_bool_decide as Hy.
    + split; [tauto|]. intros [?|[->|?]]; tauto.
    + rewrite elem_of_app, list_elem_of_singleton. tauto.
Qed.

Lemma NoDup_add_new ids : forall acc, NoDup acc -> NoDup (add_new acc ids).
Proof.
  induction ids as [|y ids IH]; intros acc Hnd; [done|].
  change (add_new acc (y :: ids))
    with (add_new (if bool_decide (y ∈ acc) then acc else acc ++ [y]) ids).
  apply IH. case_bool_decide as Hy; [done|].
  apply NoDup_app. split; [done|]. split; [|apply NoDup_singleton].
  intros x Hx Hx'. apply list_elem_of_singleton in Hx' as ->. done.
Qed.

(** The loop over the items of a page only prints. *)
Lemma add_comments_store comments : forall l s w acc w',
  add_comments comments l s w = Ok acc w' -> same_store w w'.
Proof.
  induction comments as [|comment comments IH]; intros l s w acc w' H.
  - simpl in H. injection H as _ <-. apply same_store_refl.
  - simpl in H. unfold bind at 1 in H.
    destruct (comment_id_of comment w) as [comment_id w1|e w1|] eqn:E;
      try discriminate.
    apply comment_id_of_net in E as ->.
    destruct (bool_decide _).
    + unfold bind at 1 in H. unfold print at 1 in H. unfold emit at 1 in H.
      apply IH in H. exact H.
    + by apply IH in H.
Qed.

Lemma pages_loop_complete r ids rest pages : forall fuel page_num l w acc,
  length pages < fuel ->
  net w = (AResp <$> pages) ++ AResp r :: rest ->
  discovered pages l = Some acc ->
  last_page r = Some ids ->
  exists w',
    pages_loop fuel page_num l (list_to_set l) w = Ok (add_new acc ids) w' /\
    net w' = rest /\
    same_store w w'.
Proof.
  induction pages as [|g pages IH];
    intros fuel page_num l w acc Hfuel Hnet Hd Hlast.
  - destruct fuel as [|fuel]; [simpl in Hfuel; lia|].
    simpl in Hd. injection Hd as <-. simpl in Hnet.
    apply last_page_inv in Hlast as (comments & hnp & Hs & Hp & Ht & Hi).
    cbn [pages_loop]. unfold bind at 1. unfold print at 1, emit at 1.
    unfold bind at 1.
    rewrite (get_requests_response_success Checkpointed API_COMMENTS_URL true 3 r rest)
      by (done || lia).
    rewrite (is_success_response_ok r Hs), Hp. simpl py_iter.
    unfold bind at 1. unfold lift at 1, ret at 1. unfold bind at 1.
    match goal with
    | |- context [add_comments comments l (list_to_set l) ?w1] =>
        destruct (add_comments_ok comments ids l w1 Hi) as (w2 & E2 & Hn2);
        pose proof (add_comments_store _ _ _ _ _ _ E2) as Hs2
    end.
    rewrite E2, Ht. cbn [fst]. exists w2. split; [done|]. split; [done|].
    eapply same_store_trans; [|exact Hs2]. repeat split.
  - destruct fuel as [|fuel]; [simpl in Hfuel; lia|].
    simpl in Hd. destruct (full_page g) as [gids|] eqn:Hg; [|discriminate].
    apply full_page_inv in Hg as (comments & hnp & Hgs & Hgp & Hgt & Hgi).
    simpl in Hnet.
    cbn [pages_loop]. unfold bind at 1. unfold print at 1, emit at 1.
    unfold bind at 1.
    rewrite (get_requests_response_success Checkpointed API_COMMENTS_URL true 3 g
               ((AResp <$> pages) ++ AResp r :: rest)) by (done || lia).
    rewrite (is_success_response_ok g Hgs), Hgp. simpl py_iter.
    unfold bind at 1. unfold lift at 1, ret at 1. unfold bind at 1.
    match goal with
    | |- context [add_comments comments l (list_to_set l) ?w1] =>
        destruct (add_comments_ok comments gids l w1 Hgi) as (w2 & E2 & Hn2);
        pose proof (add_comments_store _ _ _ _ _ _ E2) as Hs2
    end.
    rewrite E2, Hgt. cbn [fst snd].
    destruct (IH fuel (page_num + 1)%Z (add_new l gids) w2 acc)
      as (w3 & E3 & Hn3 & Hs3);
      [simpl in Hfuel; lia|exact Hn2|exact Hd|exact Hlast|].
    exists w3. split; [exact E3|]. split; [exact Hn3|].
    eapply same_store_trans; [|exact Hs3].
    eapply same_store_trans; [|exact Hs2]. repeat split.
Qed.

(** [get_comment_ids] over full pages and a last page. *)
Lemma get_comment_ids_complete page_size w pages r ids rest acc :
  page_size_ok page_size = true ->
  net w = (AResp <$> pages) ++ AResp r :: rest ->
  discovered pages [] = Some acc ->
  last_page r = Some ids ->
  exists w',
    get_comment_ids page_size w = Ok (add_new acc ids) w' /\
    net w' = rest /\
    same_store w w'.
Proof.
  intros Hps Hnet Hd Hlast.
  assert (Hlen : length pages < S (length (net w))).
  { rewrite Hnet, length_app, length_fmap. lia. }
  unfold get_comment_ids. rewrite Hps. change (negb true) with false. cbv iota.
  unfold bind at 1. unfold print at 1, emit at 1. unfold bind at 1.
  set (w1 := set_trace (trace w ++ [EvPrint MsgGettingIds]) w).
  destruct (pages_loop_complete r ids rest pages (S (length (net w1))) 1 []
              w1 acc Hlen Hnet Hd Hlast) as (w' & E & Hn & Hs).
  change (list_to_set [] : gset string) with (∅ : gset string) in E.
  rewrite E. unfold bind, print, emit. eexists. split; [reflexivity|].
  split; [exact Hn|]. destruct Hs as (H1 & H2 & H3 & H4 & H5). by repeat split.
Qed.

Lemma list_to_set_add_new ids acc :
  (list_to_set (add_new acc ids) : gset string)
  = list_to_set ids ∪ list_to_set acc.
Proof.
  apply set_eq. intros x.
  rewrite elem_of_union, !elem_of_list_to_set, elem_of_add_new. tauto.
Qed.

Lemma pages_loop_plain_complete r ids rest pages : forall fuel page_num l w acc,
  length pages < fuel ->
  net w = (AResp <$> pages) ++ AResp r :: rest ->
  discovered pages l = Some acc ->
  last_page r = Some ids ->
  exists w',
    pages_loop_plain fuel page_num (list_to_set l) w
    = Ok (Some (list_to_set (add_new acc ids))) w' /\
    net w' = rest.
Proof.
  induction pages as [|g pages IH];
    intros fuel page_num l w acc Hfuel Hnet Hd Hlast.
  - destruct fuel as [|fuel]; [simpl in Hfuel; lia|].
    simpl in Hd. injection Hd as <-. simpl in Hnet.
    apply last_page_inv in Hlast as (comments & hnp & Hs & Hp & Ht & Hi).
    cbn [pages_loop_plain]. unfold bind at 1. unfold print at 1, emit at 1.
    unfold bind at 1.
    rewrite (get_requests_response_success Plain API_COMMENTS_URL true 2 r rest)
      by (done || lia).
    rewrite Hp. simpl py_iter.
    unfold bind at 1. unfold lift at 1, ret at 1. unfold bind at 1.
    match goal with
    | |- context [add_comments_plain comments (list_to_set l) ?w1] =>
        destruct (add_comments_plain_ok comments ids (list_to_set l) w1 Hi)
          as (w2 & E2 & Hn2)
    end.
    rewrite E2, Ht. exists w2. split; [|done].
    unfold ret. by rewrite list_to_set_add_new.
  - destruct fuel as [|fuel]; [simpl in Hfuel; lia|].
    simpl in Hd. destruct (full_page g) as [gids|] eqn:Hg; [|discriminate].
    apply full_page_inv in Hg as (comments & hnp & Hgs & Hgp & Hgt & Hgi).
    simpl in Hnet.
    cbn [pages_loop_plain]. unfold bind at 1. unfold print at 1, emit at 1.
    unfold bind at 1.
    rewrite (get_requests_response_success Plain API_COMMENTS_URL true 2 g
               ((AResp <$> pages) ++ AResp r :: rest)) by (done || lia).
    rewrite Hgp. simpl py_iter.
    unfold bind at 1. unfold lift at 1, ret at 1. unfold bind at 1.
    match goal with
    | |- context [add_comments_plain comments (list_to_set l) ?w1] =>
        destruct (add_comments_plain_ok comments gids (list_to_set l) w1 Hgi)
          as (w2 & E2 & Hn2)
    end.
    rewrite E2, Hgt. rewrite <- list_to_set_add_new.
    apply IH; [simpl in Hfuel; lia|exact Hn2|exact Hd|exact Hlast].
Qed.

(** X4.  A complete discovery.  When every listing page is served at once and
    well formed, and the last one announces no next page, [get_comment_ids]
    asks for exactly these pages and returns their identifiers, each once,
    in the order of first appearance; the second script returns the same
    identifiers as a set. *)
Theorem discovery_walks_every_page page_size w pages r ids rest acc :
  page_size_ok page_size = true ->
  net w = (AResp <$> pages) ++ AResp r :: rest ->
  discovered pages [] = Some acc ->
  last_page r = Some ids ->
  NoDup (add_new acc ids) /\
  (forall x, x ∈ add_new acc ids <-> x ∈ acc \/ x ∈ ids) /\
  (exists w',
     get_comment_ids page_size w = Ok (add_new acc ids) w' /\ net w' = rest) /\
  (exists w',
     get_comment_ids_plain page_size w
     = Ok (Some (list_to_set (add_new acc ids))) w' /\ net w' = rest).
Proof.
  intros Hps Hnet Hd Hlast.
  assert (Hacc : NoDup acc).
  { clear -Hd. revert Hd.
    assert (H : NoDup (@nil string)) by constructor. revert H.
    generalize (@nil string). induction pages as [|g pages IH]; intros l Hl Hd.
    - simpl in Hd. by injection Hd as <-.
    - simpl in Hd. destruct (full_page g) as [gids|]; [|discriminate].
      eapply IH; [|exact Hd]. by apply NoDup_add_new. }
  split; [by apply NoDup_add_new|]. split; [intros x; apply elem_of_add_new|].
  assert (Hlen : length pages < S (length (net w))).
  { rewrite Hnet, length_app, length_fmap. lia. }
  split.
  - destruct (get_comment_ids_complete page_size w pages r ids rest acc
                Hps Hnet Hd Hlast) as (w' & E & Hn & _).
    by exists w'.
  - unfold get_comment_ids_plain. rewrite Hps. change (negb true) with false.
    cbv iota.
    unfold bind at 1. unfold print at 1, emit at 1. unfold bind at 1.
    set (w1 := set_trace (trace w ++ [EvPrint MsgGettingIds]) w).
    destruct (pages_loop_plain_complete r ids rest pages (S (length (net w1))) 1 []
                w1 acc Hlen Hnet Hd Hlast) as (w' & E & Hn).
    change (list_to_set [] : gset string) with (∅ : gset string) in E.
    rewrite E. unfold bind, print, emit. eexists. split; [reflexivity|exact Hn].
Qed.

Lemma discovery_walks_every_page_witness :
  page_size_ok 250 = true /\
  discovered [listing_response ["A"; "B"] true] [] = Some ["A"; "B"] /\
  last_page (listing_response ["B"; "C"] false) = Some ["B"; "C"] /\
  exists w',
    get_comment_ids 250
      (set_net [AResp (listing_response ["A"; "B"] true);
                AResp (listing_response ["B"; "C"] false)] fresh)
    = Ok ["A"; "B"; "C"] w'.
Proof.
  split; [reflexivity|]. split; [reflexivity|]. split; [reflexivity|].
  destruct (discovery_walks_every_page 250
              (set_net [AResp (listing_response ["A"; "B"] true);
                        AResp (listing_response ["B"; "C"] false)] fresh)
              [listing_response ["A"; "B"] true]
              (listing_response ["B"; "C"] false) ["B"; "C"] [] ["A"; "B"]
              eq_refl eq_refl eq_refl eq_refl)
    as (_ & _ & (w' & H & _) & _).
  exists w'. exact H.
Defined.

Lemma add_comments_inv comments : forall l (s : gset string) w acc w',
  NoDup l -> s = list_to_set l ->
  add_comments comments l s w = Ok acc w' ->
  NoDup acc.1 /\ acc.2 = list_to_set acc.1.
Proof.
  induction comments as [|comment comments IH]; intros l s w acc w' Hnd Hs H.
  - simpl in H. injection H as <- <-. done.
  - simpl in H. unfold bind at 1 in H.
    destruct (comment_id_of comment w) as [comment_id w1|e w1|]; try discriminate.
    case_bool_decide as Hin.
    + unfold bind at 1 in H. unfold print at 1 in H. unfold emit at 1 in H.
      by apply IH in H.
    + apply IH in H; [done| |].
      * apply NoDup_app. split; [done|]. split; [|apply NoDup_singleton].
        intros x Hx Hx'. apply list_elem_of_singleton in Hx' as ->.
        apply Hin. rewrite Hs. by apply elem_of_list_to_set.
      * rewrite Hs, list_to_set_app_L. simpl. set_solver.
Qed.

Lemma pages_loop_NoDup : forall fuel page_num l (s : gset string) w ids w',
  NoDup l -> s = list_to_set l ->
  pages_loop fuel page_num l s w = Ok ids w' -> NoDup ids.
Proof.
  induction fuel as [|fuel IH]; intros page_num l s w ids w' Hnd Hs H;
    [discriminate|].
  cbn [pages_loop] in H. unfold bind at 1 in H.
  unfold print at 1, emit at 1 in H. unfold bind at 1 in H.
  match type of H with
  | context [get_requests_response ?a ?b ?c ?d ?w1] =>
      destruct (get_requests_response a b c d w1) as [[r|] w2|e w2|]
  end; try discriminate.
  - destruct (response_ok r).
    + destruct (page_try r) as [[response_data has_next_page]|e].
      * unfold bind at 1 in H.
        destruct (lift (py_iter response_data) w2) as [comments w3|e w3|];
          try discriminate.
        unfold bind at 1 in H.
        destruct (add_comments comments l s w3) as [acc w4|e w4|] eqn:E;
          try discriminate.
        apply add_comments_inv in E as [Hnd' Hs']; [|done|done].
        destruct (Py.truthy has_next_page).
        -- by eapply IH in H.
        -- unfold ret in H. by injection H as <- _.
      * destruct (caught e); [|discriminate].
        unfold bind, print, emit, ret in H. by injection H as <- _.
    + unfold bind, print, emit, ret in H. by injection H as <- _.
  - unfold bind, print, emit, ret in H. by injection H as <- _.
Qed.

(** X5.  Whatever the listing pages hold and however the discovery ends, the list
    [get_comment_ids] returns names no identifier twice. *)
Theorem discovery_has_no_duplicates page_size w ids w' :
  get_comment_ids page_size w = Ok ids w' -> NoDup ids.
Proof.
  unfold get_comment_ids. destruct (negb (page_size_ok page_size)).
  - unfold bind, print, emit, ret. intros H. injection H as <- _. constructor.
  - unfold bind at 1. unfold print at 1, emit at 1. unfold bind at 1.
    match goal with
    | |- context [pages_loop ?f 1 [] ∅ ?w1] =>
        destruct (pages_loop f 1 [] ∅ w1) as [found w2|e w2|] eqn:E
    end; try discriminate.
    unfold bind, print, emit, ret. intros H. injection H as <- _.
    eapply pages_loop_NoDup; [| |exact E]; [constructor|done].
Qed.

Lemma discovery_has_no_duplicates_witness :
  exists w',
    get_comment_ids 250
      (set_net [AResp (listing_response ["A"; "B"; "A"] true);
                AResp (listing_response ["B"; "C"] true); AError] fresh)
    = Ok ["A"; "B"; "C"] w' /\
    NoDup ["A"; "B"; "C"].
Proof.
  eexists. split; [vm_compute; reflexivity|].
  eapply (discovery_has_no_duplicates 250
            (set_net [AResp (listing_response ["A"; "B"; "A"] true);
                      AResp (listing_response ["B"; "C"] true); AError] fresh)).
  vm_compute. reflexivity.
Defined.

(** ** The request executor: failures of the network stay inside *)

Lemma wp_before_request v url delay t Q E w :
  Q tt (set_trace (trace w ++ before_events v url delay t ++ [EvRequest url]) w) ->
  wp (before_request v url delay t) Q E w.
Proof. intros H. unfold wp. by rewrite before_request_ok. Qed.

Lemma offline_loop_contains v url delay left : forall t resp w,
  wp (offline_loop v url delay left t resp)
    (fun o w' => o = resp /\ faults w' = faults w) (fun _ _ => False) w.
Proof.
  induction left as [|left IH]; intros t resp w; [done|].
  simpl. apply wp_bind, wp_before_request, wp_bind, wp_emit.
  eapply wp_conseq; [apply IH| |done]. intros o w' [-> Hf]. done.
Qed.

Lemma requests_loop_contains v url delay n script : forall t resp w,
  faults w = [] ->
  AInterrupt ∉ script ->
  wp (requests_loop v url delay n script t resp)
    (fun o w' => faults w' = [] /\
       (o = resp \/ exists r, o = Some r /\ AResp r ∈ script))
    (fun _ _ => False) w.
Proof.
  induction script as [|a script IH]; intros t resp w Hf Hni.
  - simpl. eapply wp_conseq; [apply offline_loop_contains| |done].
    intros o w' [-> Hf']. split; [congruence|by left].
  - assert (Hni' : AInterrupt ∉ script).
    { intros H. apply Hni. apply elem_of_cons. by right. }
    assert (Hstep : forall w1 resp1,
      faults w1 = [] ->
      (resp1 = resp \/ exists r, resp1 = Some r /\ AResp r ∈ a :: script) ->
      forall t1,
      wp (requests_loop v url delay n script t1 resp1)
        (fun o w' => faults w' = [] /\
           (o = resp \/ exists r, o = Some r /\ AResp r ∈ a :: script))
        (fun _ _ => False) w1).
    { intros w1 resp1 Hf1 Hr1 t1.
      eapply wp_conseq; [by apply IH| |done].
      intros o w' [Hf' [->|(r & -> & Hr)]]; (split; [done|]); [exact Hr1|].
      right. exists r. split; [done|]. apply elem_of_cons. by right. }
    simpl. destruct (n <? t)%Z; [split; [done|by left]|].
    apply wp_bind, wp_before_request, wp_bind. unfold wp at 1.
    destruct a as [| | |r].
    + apply wp_bind, wp_emit, Hstep; [done|by left].
    + apply wp_bind, wp_emit, Hstep; [done|by left].
    + exfalso. apply Hni. apply elem_of_cons. by left.
    + assert (Hr : exists r0, Some r = Some r0 /\ AResp r0 ∈ AResp r :: script).
      { exists r. split; [done|]. apply elem_of_cons. by left. }
      destruct (status_in successful_http_status_codes (status_code r)).
      { split; [done|]. by right. }
      destruct (status_in rate_limit_status_codes (status_code r)).
      * apply wp_bind, wp_emit, wp_bind.
        destruct v.
        -- unfold wp at 1. rewrite save_processed_ids_ok by done.
           apply wp_bind, wp_emit, Hstep; [done|by right].
        -- apply wp_ret, wp_bind, wp_emit, Hstep; [done|by right].
      * apply wp_bind, wp_emit, Hstep; [done|by right].
Qed.

(** X6.  No failure of the network leaves the executor.  With [num_of_tries >= 1],
    working file operations and no interrupt, [get_requests_response] returns
    whatever the requests do (timeouts, connection errors, any status): it
    raises nothing, and what it returns is [None] or a response the network
    gave. *)
Theorem request_failures_stay_inside v url delay n w :
  (1 <= n)%Z ->
  faults w = [] ->
  AInterrupt ∉ net w ->
  exists resp w',
    get_requests_response v url delay n w = Ok resp w' /\
    faults w' = [] /\
    (resp = None \/ exists r, resp = Some r /\ AResp r ∈ net w).
Proof.
  intros Hn Hf Hni. unfold get_requests_response.
  assert (E1 : (n <? 1)%Z = false) by (apply Z.ltb_ge; lia). rewrite E1.
  pose proof (requests_loop_contains v url delay n (net w) 1 None w Hf Hni) as H.
  unfold wp in H.
  destruct (requests_loop v url delay n (net w) 1 None w) as [o w'|e w'|];
    [|done|done].
  exists o, w'. split; [done|]. exact H.
Qed.

Lemma request_failures_stay_inside_witness :
  exists resp w',
    get_requests_response Checkpointed "u" true 3
      (set_net [ATimeout; AResp r429; AResp r500; AError] fresh) = Ok resp w' /\
    faults w' = [] /\
    (resp = None \/
     exists r, resp = Some r /\
       AResp r ∈ [ATimeout; AResp r429; AResp r500; AError]).
Proof.
  apply (request_failures_stay_inside Checkpointed "u" true 3
           (set_net [ATimeout; AResp r429; AResp r500; AError] fresh)).
  - lia.
  - reflexivity.
  - simpl. intros H. repeat (apply elem_of_cons in H as [H|H]; [discriminate|]).
    by apply elem_of_nil in H.
Defined.

(** ** Identifier discovery: what ends it early *)

Lemma discovered_full pages : forall l acc,
  discovered pages l = Some acc -> Forall (fun g => is_Some (full_page g)) pages.
Proof.
  induction pages as [|g pages IH]; intros l acc Hd; [constructor|].
  simpl in Hd. destruct (full_page g) as [ids|] eqn:Hg; [|discriminate].
  constructor; [by rewrite Hg|]. by eapply IH.
Qed.

(** Over full pages the loop of the first script goes on, with the
    identifiers accumulated. *)
Lemma pages_loop_full_pages rest pages : forall fuel page_num l w acc,
  length pages < fuel ->
  net w = (AResp <$> pages) ++ rest ->
  discovered pages l = Some acc ->
  exists w2 page_num' fuel',
    pages_loop fuel page_num l (list_to_set l) w
    = pages_loop (S fuel') page_num' acc (list_to_set acc) w2 /\
    net w2 = rest.
Proof.
  induction pages as [|g pages IH]; intros fuel page_num l w acc Hfuel Hnet Hd.
  - destruct fuel as [|fuel]; [simpl in Hfuel; lia|].
    simpl in Hd. injection Hd as <-. by exists w, page_num, fuel.
  - destruct fuel as [|fuel]; [simpl in Hfuel; lia|].
    simpl in Hd. destruct (full_page g) as [ids|] eqn:Hg; [|discriminate].
    apply full_page_inv in Hg as (comments & hnp & Hgs & Hgp & Hgt & Hgi).
    simpl in Hnet.
    cbn [pages_loop]. unfold bind at 1. unfold print at 1, emit at 1.
    unfold bind at 1.
    rewrite (get_requests_response_success Checkpointed API_COMMENTS_URL true 3 g
               ((AResp <$> pages) ++ rest)) by (done || lia).
    rewrite (is_success_response_ok g Hgs), Hgp. simpl py_iter.
    unfold bind at 1. unfold lift at 1, ret at 1. unfold bind at 1.
    match goal with
    | |- context [add_comments comments l (list_to_set l) ?w1] =>
        destruct (add_comments_ok comments ids l w1 Hgi) as (w2 & E2 & Hn2)
    end.
    rewrite E2, Hgt. cbn [fst snd].
    apply IH; [simpl in Hfuel; lia|exact Hn2|exact Hd].
Qed.

Lemma pages_loop_plain_full_pages rest pages : forall fuel page_num (s : gset string) w,
  length pages < fuel ->
  net w = (AResp <$> pages) ++ rest ->
  Forall (fun g => is_Some (full_page g)) pages ->
  exists w2 page_num' fuel' (s' : gset string),
    pages_loop_plain fuel page_num s w
    = pages_loop_plain (S fuel') page_num' s' w2 /\
    net w2 = rest.
Proof.
  induction pages as [|g pages IH]; intros fuel page_num s w Hfuel Hnet Hall.
  - destruct fuel as [|fuel]; [simpl in Hfuel; lia|].
    by exists w, page_num, fuel, s.
  - destruct fuel as [|fuel]; [simpl in Hfuel; lia|].
    apply Forall_cons in Hall as [[ids Hg] Hall].
    apply full_page_inv in Hg as (comments & hnp & Hgs & Hgp & Hgt & Hgi).
    simpl in Hnet.
    cbn [pages_loop_plain]. unfold bind at 1. unfold print at 1, emit at 1.
    unfold bind at 1.
    rewrite (get_requests_response_success Plain API_COMMENTS_URL true 2 g
               ((AResp <$> pages) ++ rest)) by (done || lia).
    rewrite Hgp. simpl py_iter.
    unfold bind at 1. unfold lift at 1, ret at 1. unfold bind at 1.
    match goal with
    | |- context [add_comments_plain comments s ?w1] =>
        destruct (add_comments_plain_ok comments ids s w1 Hgi) as (w2 & E2 & Hn2)
    end.
    rewrite E2, Hgt.
    apply IH; [simpl in Hfuel; lia|exact Hn2|exact Hall].
Qed.

(** As many raised requests as there are tries: the executor returns
    [None]. *)
Lemma requests_loop_all_raised v url delay n rest tries : forall t w,
  forallb raised tries = true ->
  (t + Z.of_nat (length tries) = n + 1)%Z ->
  net w = tries ++ rest ->
  exists w',
    requests_loop v url delay n (tries ++ rest) t None w = Ok None w' /\
    net w' = rest.
Proof.
  induction tries as [|a tries IH]; intros t w Hr Ht Hnet.
  - simpl in Ht, Hnet. simpl app. destruct rest as [|b rest].
    + simpl. replace (n + 1 - t)%Z with 0%Z by lia. simpl. by exists w.
    + cbn [requests_loop].
      assert (E : (n <? t)%Z = true) by (apply Z.ltb_lt; lia).
      rewrite E. by exists w.
  - simpl in Hr. apply andb_prop in Hr as [Ha Hr].
    rewrite length_cons in Ht.
    assert (E : (n <? t)%Z = false) by (apply Z.ltb_ge; lia).
    change ((a :: tries) ++ rest) with (a :: (tries ++ rest)).
    cbn [requests_loop]. rewrite E.
    unfold bind at 1. rewrite before_request_ok. unfold bind at 1.
    destruct a as [| | |r]; try discriminate;
      unfold bind at 1; unfold print at 1, emit at 1;
      (apply IH; [exact Hr|lia|reflexivity]).
Qed.

Lemma executor_all_raised v url delay n tries rest w :
  (1 <= n)%Z ->
  forallb raised tries = true ->
  Z.of_nat (length tries) = n ->
  net w = tries ++ rest ->
  exists w',
    get_requests_response v url delay n w = Ok None w' /\ net w' = rest.
Proof.
  intros Hn Hr Hl Hnet. unfold get_requests_response.
  assert (E : (n <? 1)%Z = false) by (apply Z.ltb_ge; lia).
  rewrite E, Hnet. apply requests_loop_all_raised; [done|lia|done].
Qed.

(** X7.  When the listing pages served so far were full and every try for the
    next one raises (a timeout or another error of the request), the first
    script ends the discovery and returns the identifiers found so far; the
    second script, which does not test the response, fails with
    [AttributeError]. *)
Theorem unanswered_page_ends_discovery page_size w pages tries rest acc :
  page_size_ok page_size = true ->
  net w = (AResp <$> pages) ++ tries ++ rest ->
  discovered pages [] = Some acc ->
  forallb raised tries = true ->
  (length tries = 3 ->
   exists w' (t : list event),
     get_comment_ids page_size w = Ok acc w' /\
     net w' = rest /\
     trace w' = t ++ [EvPrint (MsgTotalFound (length acc))]) /\
  (length tries = 2 ->
   exists w',
     get_comment_ids_plain page_size w = Exc AttributeError w' /\
     net w' = rest).
Proof.
  intros Hps Hnet Hd Hraised.
  assert (Hlen : length pages < S (length (net w))).
  { rewrite Hnet, length_app, length_fmap. lia. }
  split; intros Htries.
  - unfold get_comment_ids. rewrite Hps. change (negb true) with false. cbv iota.
    unfold bind at 1. unfold print at 1, emit at 1. unfold bind at 1.
    set (w1 := set_trace (trace w ++ [EvPrint MsgGettingIds]) w).
    destruct (pages_loop_full_pages (tries ++ rest) pages (S (length (net w1))) 1 []
                w1 acc Hlen Hnet Hd) as (w2 & pn & fuel & E & Hn).
    change (list_to_set [] : gset string) with (∅ : gset string) in E.
    rewrite E. cbn [pages_loop]. unfold bind at 1. unfold print at 1, emit at 1.
    unfold bind at 1.
    match goal with
    | |- context [get_requests_response Checkpointed ?u ?d 3 ?w3] =>
        destruct (executor_all_raised Checkpointed u d 3 tries rest w3)
          as (w4 & E4 & Hn4); [lia|done|lia|exact Hn|]
    end.
    rewrite E4. unfold bind, print, emit, ret. simpl.
    eexists _, _. split; [reflexivity|]. split; [exact Hn4|reflexivity].
  - unfold get_comment_ids_plain. rewrite Hps. change (negb true) with false.
    cbv iota.
    unfold bind at 1. unfold print at 1, emit at 1. unfold bind at 1.
    set (w1 := set_trace (trace w ++ [EvPrint MsgGettingIds]) w).
    destruct (pages_loop_plain_full_pages (tries ++ rest) pages
                (S (length (net w1))) 1 ∅ w1 Hlen Hnet (discovered_full _ _ _ Hd))
      as (w2 & pn & fuel & s' & E & Hn).
    rewrite E. cbn [pages_loop_plain]. unfold bind at 1.
    unfold print at 1, emit at 1. unfold bind at 1.
    match goal with
    | |- context [get_requests_response Plain ?u ?d 2 ?w3] =>
        destruct (executor_all_raised Plain u d 2 tries rest w3)
          as (w4 & E4 & Hn4); [lia|done|lia|exact Hn|]
    end.
    rewrite E4. unfold raise. by exists w4.
Qed.

Lemma unanswered_page_ends_discovery_witness :
  page_size_ok 250 = true /\
  (exists w' (t : list event),
     get_comment_ids 250
       (set_net [AResp (listing_response ["A"; "B"] true);
                 ATimeout; AError; ATimeout] fresh) = Ok ["A"; "B"] w' /\
     net w' = [] /\
     trace w' = t ++ [EvPrint (MsgTotalFound 2)]) /\
  (exists w',
     get_comment_ids_plain 250
       (set_net [AResp (listing_response ["A"; "B"] true);
                 ATimeout; AError] fresh) = Exc AttributeError w' /\
     net w' = []).
Proof.
  split; [reflexivity|]. split.
  - apply (unanswered_page_ends_discovery 250
             (set_net [AResp (listing_response ["A"; "B"] true);
                       ATimeout; AError; ATimeout] fresh)
             [listing_response ["A"; "B"] true] [ATimeout; AError; ATimeout] []
             ["A"; "B"] eq_refl eq_refl eq_refl eq_refl).
    reflexivity.
  - apply (unanswered_page_ends_discovery 250
             (set_net [AResp (listing_response ["A"; "B"] true);
                       ATimeout; AError] fresh)
             [listing_response ["A"; "B"] true] [ATimeout; AError] []
             ["A"; "B"] eq_refl eq_refl eq_refl eq_refl).
    reflexivity.
Defined.

Lemma add_comments_raise e bad more good : forall ids l w,
  string_ids good = Some ids ->
  Py.subscript bad "id" = Raise e ->
  exists w',
    add_comments (good ++ bad :: more) l (list_to_set l) w = Exc e w' /\
    net w' = net w.
Proof.
  induction good as [|c good IH]; intros ids l w H Hbad; simpl in H.
  - simpl. unfold bind at 1. unfold comment_id_of. unfold bind at 1.
    rewrite Hbad. simpl. by exists w.
  - destruct (Py.subscript c "id") as [[| | |s| |]|] eqn:Hc; try discriminate.
    destruct (string_ids good) as [ids'|] eqn:Hids; [|discriminate].
    injection H as <-. simpl.
    unfold bind at 1. unfold comment_id_of. unfold bind at 1. rewrite Hc. simpl.
    destruct (decide (s ∈ l)) as [Hin|Hnin].
    + rewrite (bool_decide_eq_true_2 (s ∈ (list_to_set l : gset string)))
        by (by apply elem_of_list_to_set).
      unfold bind, print, emit.
      destruct (IH ids' l
                  (set_trace (trace w ++ [EvPrint (MsgDuplicate s)]) w) eq_refl Hbad)
        as (w' & E & Hn).
      exists w'. by split.
    + rewrite (bool_decide_eq_false_2 (s ∈ (list_to_set l : gset string)))
        by (by rewrite elem_of_list_to_set).
      replace ({[s]} ∪ list_to_set l : gset string)
        with (list_to_set (l ++ [s]) : gset string)
        by (rewrite list_to_set_app_L; set_solver).
      by apply (IH ids').
Qed.

Lemma add_comments_plain_raise e bad more good : forall ids (s : gset string) w,
  string_ids good = Some ids ->
  Py.subscript bad "id" = Raise e ->
  exists w',
    add_comments_plain (good ++ bad :: more) s w = Exc e w' /\
    net w' = net w.
Proof.
  induction good as [|c good IH]; intros ids s w H Hbad; simpl in H.
  - simpl. unfold bind at 1. unfold comment_id_of. unfold bind at 1.
    rewrite Hbad. simpl. by exists w.
  - destruct (Py.subscript c "id") as [[| | |x| |]|] eqn:Hc; try discriminate.
    destruct (string_ids good) as [ids'|] eqn:Hids; [|discriminate].
    injection H as <-. simpl.
    unfold bind at 1. unfold comment_id_of. unfold bind at 1. rewrite Hc. simpl.
    destruct (decide (x ∈ s)) as [Hin|Hnin].
    + rewrite (bool_decide_eq_true_2 _ Hin). unfold bind, print, emit.
      destruct (IH ids' s
                  (set_trace (trace w ++ [EvPrint (MsgDuplicate x)]) w) eq_refl Hbad)
        as (w' & E & Hn).
      exists w'. by split.
    + rewrite (bool_decide_eq_false_2 _ Hnin). by apply (IH ids').
Qed.

(** X8.  An item of a listing page that has no [id] is not handled as a malformed
    page: the lookup is outside the [try], so the [KeyError] (a [TypeError]
    when the item is not an object) leaves [get_comment_ids] in both scripts,
    and the identifiers found so far are lost to the caller. *)
Theorem listing_item_without_id_aborts_discovery
    page_size w pages r rest acc good bad more has_next_page ids e :
  page_size_ok page_size = true ->
  net w = (AResp <$> pages) ++ AResp r :: rest ->
  discovered pages [] = Some acc ->
  is_success r = true ->
  page_try r = Val (JArr (good ++ bad :: more), has_next_page) ->
  string_ids good = Some ids ->
  Py.subscript bad "id" = Raise e ->
  (exists w', get_comment_ids page_size w = Exc e w' /\ net w' = rest) /\
  (exists w', get_comment_ids_plain page_size w = Exc e w' /\ net w' = rest).
Proof.
  intros Hps Hnet Hd Hs Hp Hgood Hbad.
  assert (Hlen : length pages < S (length (net w))).
  { rewrite Hnet, length_app, length_fmap. lia. }
  split.
  - unfold get_comment_ids. rewrite Hps. change (negb true) with false. cbv iota.
    unfold bind at 1. unfold print at 1, emit at 1. unfold bind at 1.
    set (w1 := set_trace (trace w ++ [EvPrint MsgGettingIds]) w).
    destruct (pages_loop_full_pages (AResp r :: rest) pages (S (length (net w1)))
                1 [] w1 acc Hlen Hnet Hd) as (w2 & pn & fuel & E & Hn).
    change (list_to_set [] : gset string) with (∅ : gset string) in E.
    rewrite E. cbn [pages_loop]. unfold bind at 1. unfold print at 1, emit at 1.
    unfold bind at 1.
    rewrite (get_requests_response_success Checkpointed API_COMMENTS_URL true 3 r rest)
      by (done || lia).
    rewrite (is_success_response_ok r Hs), Hp. simpl py_iter.
    unfold bind at 1. unfold lift at 1, ret at 1. unfold bind at 1.
    match goal with
    | |- context [add_comments _ acc (list_to_set acc) ?w3] =>
        destruct (add_comments_raise e bad more good ids acc w3 Hgood Hbad)
          as (w4 & E4 & Hn4)
    end.
    rewrite E4. by exists w4.
  - unfold get_comment_ids_plain. rewrite Hps. change (negb true) with false.
    cbv iota.
    unfold bind at 1. unfold print at 1, emit at 1. unfold bind at 1.
    set (w1 := set_trace (trace w ++ [EvPrint MsgGettingIds]) w).
    destruct (pages_loop_plain_full_pages (AResp r :: rest) pages
                (S (length (net w1))) 1 ∅ w1 Hlen Hnet (discovered_full _ _ _ Hd))
      as (w2 & pn & fuel & s' & E & Hn).
    rewrite E. cbn [pages_loop_plain]. unfold bind at 1.
    unfold print at 1, emit at 1. unfold bind at 1.
    rewrite (get_requests_response_success Plain API_COMMENTS_URL true 2 r rest)
      by (done || lia).
    rewrite Hp. simpl py_iter.
    unfold bind at 1. unfold lift at 1, ret at 1. unfold bind at 1.
    match goal with
    | |- context [add_comments_plain _ s' ?w3] =>
        destruct (add_comments_plain_raise e bad more good ids s' w3 Hgood Hbad)
          as (w4 & E4 & Hn4)
    end.
    rewrite E4. by exists w4.
Qed.

(** A second page whose second item has no [id]. *)
Definition page_with_item_without_id : response :=
  Response 200
    (Some (JObj [("data", JArr [JObj [("id", JStr "C")];
                                JObj [("type", JStr "comments")];
                                JObj [("id", JStr "D")]]);
                 ("meta", JObj [("hasNextPage", JBool false)])])).

Lemma listing_item_without_id_aborts_discovery_witness :
  (exists w',
     get_comment_ids 250
       (set_net [AResp (listing_response ["A"; "B"] true);
                 AResp page_with_item_without_id] fresh) = Exc KeyError w' /\
     net w' = []) /\
  (exists w',
     get_comment_ids_plain 250
       (set_net [AResp (listing_response ["A"; "B"] true);
                 AResp page_with_item_without_id] fresh) = Exc KeyError w' /\
     net w' = []).
Proof.
  apply (listing_item_without_id_aborts_discovery 250
           (set_net [AResp (listing_response ["A"; "B"] true);
                     AResp page_with_item_without_id] fresh)
           [listing_response ["A"; "B"] true] page_with_item_without_id []
           ["A"; "B"] [JObj [("id", JStr "C")]]
           (JObj [("type", JStr "comments")]) [JObj [("id", JStr "D")]]
           (JBool false) ["C"] KeyError);
    reflexivity.
Defined.

(** ** The detail fetch: where a record comes from and what it holds *)

Lemma wp_save_processed_ids_any (P : Prop) w :
  P -> wp save_processed_ids (fun _ _ => P) (fun _ _ => True) w.
Proof.
  intros HP. eapply wp_conseq; [apply framed_save_processed_ids| |]; done.
Qed.

Lemma offline_loop_returns v url delay left : forall t resp w,
  wp (offline_loop v url delay left t resp)
    (fun o _ => o = resp) (fun _ _ => True) w.
Proof.
  induction left as [|left IH]; intros t resp w; [done|].
  simpl. apply wp_bind, wp_before_request, wp_bind, wp_emit. apply IH.
Qed.

(** A response the executor returns is one the network gave. *)
Lemma requests_loop_returns_received v url delay n script : forall t resp w,
  wp (requests_loop v url delay n script t resp)
    (fun o _ => o = resp \/ exists r, o = Some r /\ AResp r ∈ script)
    (fun _ _ => True) w.
Proof.
  induction script as [|a script IH]; intros t resp w.
  - simpl. eapply wp_conseq; [apply offline_loop_returns| |done].
    intros o w' ->. by left.
  - assert (Hstep : forall w1 resp1,
      (resp1 = resp \/ exists r, resp1 = Some r /\ AResp r ∈ a :: script) ->
      forall t1,
      wp (requests_loop v url delay n script t1 resp1)
        (fun o _ => o = resp \/ exists r, o = Some r /\ AResp r ∈ a :: script)
        (fun _ _ => True) w1).
    { intros w1 resp1 Hr1 t1.
      eapply wp_conseq; [by apply IH| |done].
      intros o w' [->|(r & -> & Hr)]; [exact Hr1|].
      right. exists r. split; [done|]. apply elem_of_cons. by right. }
    simpl. destruct (n <? t)%Z; [by left|].
    apply wp_bind, wp_before_request, wp_bind. unfold wp at 1.
    destruct a as [| | |r].
    + apply wp_bind, wp_emit, Hstep. by left.
    + apply wp_bind, wp_emit, Hstep. by left.
    + done.
    + assert (Hr : exists r0, Some r = Some r0 /\ AResp r0 ∈ AResp r :: script).
      { exists r. split; [done|]. apply elem_of_cons. by left. }
      destruct (status_in successful_http_status_codes (status_code r)).
      { by right. }
      destruct (status_in rate_limit_status_codes (status_code r)).
      * apply wp_bind, wp_emit, wp_bind.
        destruct v.
        -- eapply wp_conseq; [apply (wp_save_processed_ids_any True); done| |done].
           intros _ w1 _. simpl. apply wp_bind, wp_emit, Hstep. by right.
        -- apply wp_ret, wp_bind, wp_emit, Hstep. by right.
      * apply wp_bind, wp_emit, Hstep. by right.
Qed.

Lemma executor_returns_received v url delay n w r w' :
  get_requests_response v url delay n w = Ok (Some r) w' -> AResp r ∈ net w.
Proof.
  unfold get_requests_response. destruct (n <? 1)%Z; [discriminate|].
  intros H.
  pose proof (requests_loop_returns_received v url delay n (net w) 1 None w) as Hwp.
  unfold wp in Hwp. rewrite H in Hwp.
  destruct Hwp as [?|(r0 & [= ->] & Hr)]; [discriminate|done].
Qed.

Lemma detail_of_response_record repr comment_id r w row w' :
  detail_of_response repr comment_id r w = Ok (Some row) w' ->
  detail_try repr comment_id r = Val row.
Proof.
  unfold detail_of_response.
  destruct (detail_try repr comment_id r) as [rec|e].
  - unfold ret. by intros [= ->].
  - destruct (caught e); [|discriminate].
    unfold bind, print, emit, ret. discriminate.
Qed.

(** X9.  In the first script a record is always built from a response that the
    network gave to this fetch and whose status is no 4xx or 5xx: an error
    response never becomes a row. *)
Theorem record_comes_from_an_accepted_response repr comment_id w row w' :
  get_comment_detail_data repr Checkpointed comment_id w = Ok (Some row) w' ->
  exists r,
    AResp r ∈ net w /\
    response_ok r = true /\
    detail_try repr comment_id r = Val row.
Proof.
  unfold get_comment_detail_data. unfold bind at 1.
  unfold do_sleep_range at 1, emit at 1. unfold bind at 1.
  match goal with
  | |- context [get_requests_response ?a ?b ?c ?d ?w1] =>
      destruct (get_requests_response a b c d w1) as [[r|] w2|e w2|] eqn:E
  end; try discriminate.
  destruct (response_ok r) eqn:Hok.
  - intros H. exists r. split; [|split; [done|]].
    + by apply executor_returns_received in E.
    + by apply detail_of_response_record in H.
  - unfold bind, print, emit, ret. discriminate.
Qed.

Lemma record_comes_from_an_accepted_response_witness :
  exists r,
    AResp r ∈ [AError; AResp r500; AResp (detail_response [("title", JStr "t")])] /\
    response_ok r = true /\
    detail_try no_repr "X" r
    = Val (build_record no_repr "X" [("title", JStr "t")]).
Proof.
  eapply (record_comes_from_an_accepted_response no_repr "X"
            (set_net [AError; AResp r500;
                      AResp (detail_response [("title", JStr "t")])] fresh)).
  vm_compute. reflexivity.
Defined.

(** X10.  The second script does not test the response it gets: when both of its
    tries are used up and the last response, whatever its status, carries a
    body with [data] and [attributes], that body becomes a record. *)
Theorem plain_record_from_a_refused_response repr comment_id w a r rest row :
  faults w = [] ->
  net w = a :: AResp r :: rest ->
  consumes a = true ->
  consumes (AResp r) = true ->
  detail_try repr comment_id r = Val row ->
  exists w',
    get_comment_detail_data repr Plain comment_id w = Ok (Some row) w' /\
    net w' = rest.
Proof.
  intros Hf Hnet Ha Hr Hrow.
  unfold get_comment_detail_data. unfold bind at 1.
  unfold do_sleep_range at 1, emit at 1. unfold bind at 1.
  match goal with
  | |- context [get_requests_response Plain ?u false 2 ?w1] =>
      destruct (executor_outcome Plain u false 2 w1 [a] (AResp r) rest)
        as (w2 & evs & E & Hn & _)
  end; [lia|exact Hf|exact Hnet| | |].
  - simpl. apply andb_prop in Ha as [-> _]. done.
  - right. split; [exact Hr|]. simpl. rewrite Ha. simpl. lia.
  - rewrite E. simpl.
    replace (last_obtained None ([a] ++ [AResp r])) with (Some r)
      by (by destruct a).
    unfold detail_of_response. rewrite Hrow. by exists w2.
Qed.

(** A response refused with status 500 whose body has the shape of a
    comment. *)
Definition refused_with_body : response :=
  Response 500 (Some (JObj [("data", JObj [("attributes",
                                            JObj [("title", JStr "t")])])])).

Lemma plain_record_from_a_refused_response_witness :
  response_ok refused_with_body = false /\
  exists w',
    get_comment_detail_data no_repr Plain "X"
      (set_net [ATimeout; AResp refused_with_body] fresh)
    = Ok (Some (build_record no_repr "X" [("title", JStr "t")])) w' /\
    net w' = [].
Proof.
  split; [reflexivity|].
  apply (plain_record_from_a_refused_response no_repr "X"
           (set_net [ATimeout; AResp refused_with_body] fresh)
           ATimeout refused_with_body []); reflexivity.
Defined.

Fixpoint has_char (c : ascii) (s : string) : bool :=
  match s with
  | EmptyString => false
  | String c' s' => Ascii.eqb c' c || has_char c s'
  end.

Lemma partition_head_no_sep sep s : has_char sep (Py.partition_head sep s) = false.
Proof.
  induction s as [|c s IH]; [done|]. simpl.
  destruct (Ascii.eqb c sep) eqn:E; [done|]. simpl. by rewrite E.
Qed.

Lemma partition_head_app sep d t :
  has_char sep d = false -> Py.partition_head sep (d +:+ String sep t) = d.
Proof.
  induction d as [|c d IH]; intros H.
  - change (EmptyString +:+ String sep t) with (String sep t). simpl.
    by rewrite Ascii.eqb_refl.
  - simpl in H. apply orb_false_iff in H as [Hc Hd].
    change (String c d +:+ String sep t) with (String c (d +:+ String sep t)).
    simpl. rewrite Hc. f_equal. by apply IH.
Qed.

Lemma partition_head_all sep s :
  has_char sep s = false -> Py.partition_head sep s = s.
Proof.
  induction s as [|c s IH]; intros H; [done|].
  simpl in H. apply orb_false_iff in H as [Hc Hs]. simpl. rewrite Hc.
  f_equal. by apply IH.
Qed.

(** X11.  The [received_date] of a record is the text of [receiveDate] up to its
    first [T]: the date of a timestamp, a text without [T] as it is, the
    empty string when the attribute is absent; for a null attribute it is
    the text [None], the [str] of Python's [None]. *)
Theorem received_date_is_the_date_part repr v comment_id w row w' :
  get_comment_detail_data repr v comment_id w = Ok (Some row) w' ->
  exists attrs received_date,
    row = build_record repr comment_id attrs /\
    Py.assoc "received_date" row = Some (JStr received_date) /\
    has_char "T" received_date = false /\
    (forall d t,
       Py.assoc "receiveDate" attrs = Some (JStr (d +:+ String "T" t)) ->
       has_char "T" d = false -> received_date = d) /\
    (forall d,
       Py.assoc "receiveDate" attrs = Some (JStr d) ->
       has_char "T" d = false -> received_date = d) /\
    (Py.assoc "receiveDate" attrs = None -> received_date = "") /\
    (Py.assoc "receiveDate" attrs = Some JNull -> received_date = "None").
Proof.
  intros H. apply detail_fetch_returns_built_record in H as [attrs ->].
  exists attrs,
    (Py.partition_head "T" (Py.str repr (Py.get attrs "receiveDate"))).
  split; [reflexivity|]. split; [reflexivity|].
  split; [apply partition_head_no_sep|].
  unfold Py.get.
  split; [|split; [|split]].
  - intros d t -> Hd. simpl. by apply partition_head_app.
  - intros d -> Hd. simpl. by apply partition_head_all.
  - intros ->. reflexivity.
  - intros ->. reflexivity.
Qed.

Lemma received_date_is_the_date_part_witness :
  exists attrs received_date,
    build_record no_repr "X" [("receiveDate", JStr "2021-01-04T05:00:00Z")]
    = build_record no_repr "X" attrs /\
    Py.assoc "received_date"
      (build_record no_repr "X" [("receiveDate", JStr "2021-01-04T05:00:00Z")])
    = Some (JStr received_date) /\
    has_char "T" received_date = false.
Proof.
  destruct (received_date_is_the_date_part no_repr Checkpointed "X"
              (set_net [AResp (detail_response
                                 [("receiveDate", JStr "2021-01-04T05:00:00Z")])]
                 fresh)
              (build_record no_repr "X"
                 [("receiveDate", JStr "2021-01-04T05:00:00Z")])
              _ ltac:(vm_compute; reflexivity))
    as (attrs & d & H1 & H2 & H3 & _).
  exists attrs, d. split; [exact H1|]. split; [exact H2|exact H3].
Defined.

(** X12.  A record names the comment it was asked for, by its identifier and by
    the URL of its detail page, and a textual attribute that holds a
    non-empty value is copied as it is: the text of a comment is never
    altered on its way to the row. *)
Theorem record_copies_the_attributes repr v comment_id w row w' :
  get_comment_detail_data repr v comment_id w = Ok (Some row) w' ->
  exists attrs,
    row = build_record repr comment_id attrs /\
    Py.assoc "comment_id" row = Some (JStr comment_id) /\
    Py.assoc "url" row = Some (JStr (API_COMMENTS_URL +:+ "/" +:+ comment_id)) /\
    Forall (fun fa => forall x,
              Py.assoc fa.2 attrs = Some x -> Py.truthy x = true ->
              Py.assoc fa.1 row = Some x) textual_fields.
Proof.
  intros H. apply detail_fetch_returns_built_record in H as [attrs ->].
  exists attrs. split; [reflexivity|]. split; [reflexivity|].
  split; [reflexivity|].
  repeat constructor; simpl; intros x Hx Ht;
    unfold Py.get; rewrite Hx; unfold Py.or; rewrite Ht; reflexivity.
Qed.

Lemma record_copies_the_attributes_witness :
  exists row,
    Py.assoc "comment_id" row = Some (JStr "X") /\
    Py.assoc "comment" row = Some (JStr "I object.").
Proof.
  destruct (record_copies_the_attributes no_repr Plain "X"
              (set_net [AResp (detail_response [("comment", JStr "I object.")])]
                 fresh)
              (build_record no_repr "X" [("comment", JStr "I object.")])
              _ ltac:(vm_compute; reflexivity))
    as (attrs & _ & H1 & _).
  eexists. split; [exact H1|reflexivity].
Defined.

(** ** The numbers of the CSV files *)

(** The numbers of the files created so far, newest first. *)
Definition counters (w : world) : list Z := sink_counter <$> csv_files w.

(** The [i]-th file created has the number [first + i]. *)
Definition numbered (first : Z) (w : world) : Prop :=
  forall i c, reverse (counters w) !! i = Some c -> c = (first + Z.of_nat i)%Z.

Definition same_numbers (w w' : world) : Prop :=
  counters w' = counters w /\ file_counter w' = file_counter w.

(** A step that creates no file and leaves [file_counter] alone, with a file
    open. *)
Definition steady {A} (m : M A) : Prop :=
  forall w, csv_files w <> [] ->
    wp m (fun _ => same_numbers w) (fun _ => same_numbers w) w.

Lemma same_numbers_refl w : same_numbers w w.
Proof. by split. Qed.

Lemma same_numbers_trans w1 w2 w3 :
  same_numbers w1 w2 -> same_numbers w2 w3 -> same_numbers w1 w3.
Proof. unfold same_numbers. intuition congruence. Qed.

Lemma same_numbers_nonempty w w' :
  same_numbers w w' -> csv_files w <> [] -> csv_files w' <> [].
Proof.
  intros [Hc _] Hne Heq. apply Hne. unfold counters in Hc. rewrite Heq in Hc.
  simpl in Hc. symmetry in Hc. by apply fmap_nil_inv in Hc.
Qed.

Lemma keeps_same_numbers w w' : keeps w w' -> same_numbers w w'.
Proof. intros (_ & Hc & _ & Hf). split; [unfold counters; by rewrite Hc|done]. Qed.

Lemma steady_bind {A B} (m : M A) (k : A -> M B) :
  steady m -> (forall a, steady (k a)) -> steady (bind m k).
Proof.
  intros Hm Hk w Hne. apply wp_bind.
  eapply wp_conseq; [by apply Hm| |done].
  intros a w' Hw'. simpl.
  eapply wp_conseq;
    [apply (Hk a w'); exact (same_numbers_nonempty _ _ Hw' Hne)| |];
    intros ? w'' Hw''; exact (same_numbers_trans _ _ _ Hw' Hw'').
Qed.

Lemma steady_framed {A} (m : M A) : framed m -> steady m.
Proof.
  intros Hm w _. eapply wp_conseq; [apply Hm| |];
    intros ? w' Hk; by apply keeps_same_numbers.
Qed.

Lemma steady_modify f :
  (forall w, csv_files (f w) = csv_files w /\ file_counter (f w) = file_counter w) ->
  steady (modify f).
Proof.
  intros Hf w _. destruct (Hf w) as [Hc Hn].
  split; [unfold counters; by rewrite Hc|done].
Qed.

Lemma steady_close_file : steady close_file.
Proof.
  intros w Hne. unfold wp, close_file.
  destruct (csv_files w) as [|f older] eqn:Hcsv; [done|].
  destruct (sink_closed f); [apply same_numbers_refl|].
  unfold file_op. destruct (faults w) as [|[e|] fs]; simpl;
    (split; [unfold counters; simpl; by rewrite Hcsv|done]).
Qed.

Lemma steady_writerow row : steady (writerow row).
Proof.
  intros w Hne. unfold wp, writerow.
  destruct (csv_files w) as [|f older] eqn:Hcsv; [done|].
  destruct (sink_closed f); [apply same_numbers_refl|].
  unfold bind, file_op, modify. destruct (faults w) as [|[e|] fs]; simpl;
    (split; [unfold counters; simpl; by rewrite Hcsv|done]).
Qed.

Lemma steady_flush_file : steady flush_file.
Proof.
  intros w Hne. unfold wp, flush_file.
  destruct (csv_files w) as [|f older] eqn:Hcsv; [done|].
  destruct (sink_closed f); [apply same_numbers_refl|].
  unfold bind, file_op, modify. destruct (faults w) as [|[e|] fs]; simpl;
    (split; [unfold counters; simpl; by rewrite Hcsv|done]).
Qed.

Lemma framed_get_state : framed get_state.
Proof. intros w. apply keeps_refl. Qed.

Lemma steady_record_row comment_id row : steady (record_row comment_id row).
Proof.
  unfold record_row.
  apply steady_bind; [apply steady_writerow|]. intros _.
  apply steady_bind; [apply steady_flush_file|]. intros _.
  apply steady_bind; [by apply steady_modify|]. intros _.
  apply steady_bind; [by apply steady_modify|]. intros _.
  apply steady_framed.
  apply framed_bind; [apply framed_get_state|]. intros w.
  apply framed_when.
  apply framed_bind; [apply framed_save_processed_ids|]. intros _.
  apply framed_bind; [apply framed_get_state|]. intros ?. apply framed_emit.
Qed.

Lemma steady_drain : steady drain.
Proof.
  unfold drain.
  apply steady_bind; [apply steady_close_file|]. intros _.
  apply steady_framed.
  apply framed_bind; [apply framed_save_processed_ids|]. intros _.
  apply framed_bind; [apply framed_get_state|]. intros w.
  apply framed_bind; [apply framed_emit|]. intros _.
  apply framed_bind; [apply framed_emit|]. intros _. apply framed_emit.
Qed.

(** Between two iterations: the files are numbered from [first] and
    [file_counter] is the number of the newest. *)
Definition numbers_between (first : Z) (w : world) : Prop :=
  csv_files w <> [] /\ numbered first w /\
  file_counter w = (first + Z.of_nat (length (counters w)) - 1)%Z.

Definition numbers_at_exit (first : Z) (w : world) : Prop :=
  csv_files w <> [] /\ numbered first w.

Lemma numbers_between_same first w w' :
  same_numbers w w' -> numbers_between first w -> numbers_between first w'.
Proof.
  intros Hs (Hne & Hn & Hf). split; [by eapply same_numbers_nonempty|].
  destruct Hs as [Hc Hfc]. unfold numbered. by rewrite Hc, Hfc.
Qed.

Lemma numbers_between_at_exit first w :
  numbers_between first w -> numbers_at_exit first w.
Proof. intros (? & ? & _). by split. Qed.

Lemma wp_steady {A} (m : M A) first w :
  steady m ->
  numbers_between first w ->
  wp m (fun _ => numbers_between first) (fun _ => numbers_at_exit first) w.
Proof.
  intros Hm HI. pose proof HI as (Hne & _).
  eapply wp_conseq; [by apply Hm| |]; intros ? w' Hs.
  - exact (numbers_between_same _ _ _ Hs HI).
  - apply numbers_between_at_exit. exact (numbers_between_same _ _ _ Hs HI).
Qed.

Lemma numbered_push first cs c :
  (forall i x, reverse cs !! i = Some x -> x = (first + Z.of_nat i)%Z) ->
  c = (first + Z.of_nat (length cs))%Z ->
  forall i x, reverse (c :: cs) !! i = Some x -> x = (first + Z.of_nat i)%Z.
Proof.
  intros H Hc i x. rewrite reverse_cons. intros Hl.
  apply lookup_app_Some in Hl as [Hl|[Hlen Hl]]; [by apply H|].
  rewrite length_reverse in Hlen, Hl.
  apply list_lookup_singleton_Some in Hl as [Hi <-].
  replace i with (length cs) by lia. exact Hc.
Qed.

Lemma wp_create_new_csv_numbers first w :
  numbered first w ->
  file_counter w = (first + Z.of_nat (length (counters w)))%Z ->
  wp (create_new_csv (file_counter w))
    (fun _ => numbers_between first)
    (fun _ w' => same_numbers w w') w.
Proof.
  intros Hn Hf.
  assert (Hnew : forall w1,
    csv_files w1 = csv_files w -> file_counter w1 = file_counter w ->
    numbers_between first
      (set_csv (Sink (file_counter w) [] 0 false :: csv_files w1) w1)).
  { intros w1 Hc Hfc. split; [done|]. unfold numbered, counters. simpl.
    rewrite Hc. fold (counters w). split.
    - by apply numbered_push.
    - rewrite Hfc, Hf. unfold counters. rewrite !length_fmap. lia. }
  unfold create_new_csv. apply wp_bind, wp_emit, wp_bind, wp_file_op.
  - intros fs. apply wp_modify. by apply Hnew.
  - intros e fs. by split.
  - apply wp_modify. by apply Hnew.
Qed.

Lemma wp_rotate_numbers first w :
  numbers_between first w ->
  wp rotate (fun _ => numbers_between first) (fun _ => numbers_at_exit first) w.
Proof.
  intros HI. unfold rotate. apply wp_bind.
  eapply wp_conseq; [apply wp_steady; [apply steady_close_file|exact HI]| |done].
  intros _ w1 (Hne1 & Hn1 & Hf1). simpl.
  apply wp_bind, wp_bind, wp_get_state, wp_emit, wp_bind, wp_modify, wp_bind,
    wp_modify, wp_bind, wp_get_state.
  match goal with
  | |- wp (create_new_csv (file_counter ?w2)) _ _ _ =>
      eapply wp_conseq; [apply (wp_create_new_csv_numbers first w2)| |]
  end.
  - exact Hn1.
  - simpl. rewrite Hf1. change (counters _) with (counters w1). lia.
  - done.
  - intros e w' Hs. split.
    + eapply same_numbers_nonempty; [exact Hs|done].
    + destruct Hs as [Hc _]. unfold numbered. rewrite Hc. exact Hn1.
Qed.

Lemma wp_process_comment_numbers repr N first idx n comment_id w :
  numbers_between first w ->
  wp (process_comment repr N idx n comment_id)
    (fun _ => numbers_between first) (fun _ => numbers_at_exit first) w.
Proof.
  intros HI. unfold process_comment. apply wp_bind, wp_get_state.
  destruct (bool_decide _); [exact HI|].
  apply wp_bind, wp_emit, wp_bind.
  assert (HI1 : numbers_between first
    (set_trace (trace w ++ [EvPrint (MsgGettingData comment_id idx n)]) w))
    by exact HI.
  assert (Hfetch : forall w1, numbers_between first w1 ->
    wp (let* comment_detail_data :=
          get_comment_detail_data repr Checkpointed comment_id in
        match comment_detail_data with
        | Some ((_ :: _) as row) => record_row comment_id row
        | _ => ret tt
        end)
      (fun _ => numbers_between first) (fun _ => numbers_at_exit first) w1).
  { intros w1 Hw1. apply wp_steady; [|exact Hw1].
    apply steady_bind; [apply steady_framed, framed_get_comment_detail_data|].
    intros [[|kv row]|]; try apply steady_framed, framed_ret.
    apply steady_record_row. }
  apply wp_when; intros _.
  - eapply wp_conseq; [by apply wp_rotate_numbers| |done].
    intros [] w1 Hw1. simpl. by apply Hfetch.
  - by apply Hfetch.
Qed.

Lemma wp_for_loop_numbers repr N first n ids : forall idx w,
  numbers_between first w ->
  wp (for_loop repr N idx n ids)
    (fun _ => numbers_between first) (fun _ => numbers_at_exit first) w.
Proof.
  induction ids as [|x ids IH]; intros idx w HI; [exact HI|].
  simpl. apply wp_bind.
  eapply wp_conseq; [by apply wp_process_comment_numbers| |done].
  intros [] w1 Hw1. simpl. by apply IH.
Qed.

Lemma wp_drain_numbers first w :
  numbers_at_exit first w ->
  wp drain (fun _ => numbered first) (fun _ => numbered first) w.
Proof.
  intros [Hne Hn].
  eapply wp_conseq; [by apply steady_drain| |];
    intros ? w' [Hc _]; unfold numbered; by rewrite Hc.
Qed.

Lemma wp_try_except_finally body finalizer (I Q : world -> Prop) w :
  wp body (fun _ => I) (fun _ => I) w ->
  (forall w1, I w1 -> wp finalizer (fun _ => Q) (fun _ => Q) w1) ->
  (forall w1 ev, I w1 -> I (set_trace (trace w1 ++ [ev]) w1)) ->
  wp (try_except_finally body finalizer) (fun _ => Q) (fun _ => Q) w.
Proof.
  intros Hb Hf Hprint. unfold wp in Hb. unfold wp at 1, try_except_finally.
  destruct (body w) as [[] w1|e w1|]; [by apply Hf| |done].
  assert (Hh : forall m,
    match (print m >> finalizer) w1 with
    | Ok _ w' | Exc _ w' => Q w'
    | Unmodelled => False
    end).
  { intros m. unfold bind, print, emit.
    apply (Hf (set_trace (trace w1 ++ [EvPrint m]) w1)). by apply Hprint. }
  destruct e; simpl; try apply Hh.
Qed.

(** The files of a run are numbered without a gap and without a repetition
    from the value of [file_counter] at the first [create_new_csv], however
    the loop ends. *)
Lemma fetching_numbers repr N ids w :
  csv_files w = [] ->
  wp (fetching repr N ids)
    (fun _ => numbered (file_counter w)) (fun _ => numbered (file_counter w)) w.
Proof.
  intros Hcsv. unfold fetching. apply wp_bind, wp_bind, wp_get_state.
  assert (Hempty : numbered (file_counter w) w).
  { intros i c. unfold counters. rewrite Hcsv. simpl. by destruct i. }
  eapply wp_conseq;
    [apply (wp_create_new_csv_numbers (file_counter w) w Hempty)| |].
  - unfold counters. rewrite Hcsv. simpl. lia.
  - intros [] w1 HI. simpl.
    apply (wp_try_except_finally _ _ (numbers_at_exit (file_counter w))).
    + eapply wp_conseq; [by apply wp_for_loop_numbers| |done].
      intros ? w2. apply numbers_between_at_exit.
    + intros w2. apply wp_drain_numbers.
    + intros w2 ev H. exact H.
  - intros e w1 [Hc _]. simpl. unfold numbered. rewrite Hc. exact Hempty.
Qed.

Lemma numbered_bounds first w :
  numbered first w ->
  Forall (fun f => (first <= sink_counter f)%Z) (csv_files w) /\
  NoDup (counters w).
Proof.
  intros Hn. split.
  - apply Forall_forall. intros f Hf.
    assert (Hc : sink_counter f ∈ reverse (counters w)).
    { apply elem_of_reverse. unfold counters. by apply list_elem_of_fmap_2. }
    apply list_elem_of_lookup_1 in Hc as [i Hi]. apply Hn in Hi. lia.
  - rewrite <- (reverse_Permutation (counters w)).
    apply NoDup_alt. intros i j c Hi Hj. apply Hn in Hi, Hj. lia.
Qed.

Lemma no_files_numbered first w : csv_files w = [] -> numbered first w.
Proof. intros Hcsv i c. unfold counters. rewrite Hcsv. simpl. by destruct i. Qed.

(** From the test of the discovered list on, [main] numbers its files from
    the [file_counter] it starts with. *)
Lemma process_discovered_numbers repr N comment_ids w :
  csv_files w = [] ->
  wp (process_discovered repr N comment_ids)
    (fun _ => numbered (file_counter w)) (fun _ => numbered (file_counter w)) w.
Proof.
  intros Hcsv. unfold process_discovered.
  destruct comment_ids as [|c0 ids]; [by apply no_files_numbered|].
  apply wp_bind, wp_get_state.
  destruct (to_process (c0 :: ids) (processed_comment_ids w)) as [|x xs].
  - by apply no_files_numbered.
  - apply wp_bind, wp_emit.
    apply (fetching_numbers repr N (x :: xs)
             (set_trace (trace w ++ [EvPrint (MsgToProcess (length (x :: xs))
                                                (length (c0 :: ids)))]) w)).
    exact Hcsv.
Qed.

(** A step that touches neither the CSV files nor [file_counter], whenever
    it stays inside the model. *)
Definition leaves_files {A} (m : M A) : Prop :=
  forall w,
    match m w with
    | Ok _ w' | Exc _ w' =>
        csv_files w' = csv_files w /\ file_counter w' = file_counter w
    | Unmodelled => True
    end.

Lemma leaves_files_bind {A B} (m : M A) (k : A -> M B) :
  leaves_files m -> (forall a, leaves_files (k a)) -> leaves_files (bind m k).
Proof.
  intros Hm Hk w. unfold bind. specialize (Hm w).
  destruct (m w) as [a w1|e w1|]; [|done|done].
  specialize (Hk a w1). destruct (k a w1) as [b w2|e w2|]; [| |done];
    destruct Hm as [<- <-]; exact Hk.
Qed.

Lemma leaves_files_framed {A} (m : M A) : framed m -> leaves_files m.
Proof.
  intros Hm w. specialize (Hm w). unfold wp in Hm.
  destruct (m w) as [a w1|e w1|]; [| |done]; by destruct Hm as (_ & ? & _ & ?).
Qed.

Lemma leaves_files_comment_id_of comment : leaves_files (comment_id_of comment).
Proof.
  intros w. unfold comment_id_of, bind, lift.
  destruct (Py.subscript comment "id") as [[| | |s| |]|e]; simpl; done.
Qed.

Lemma leaves_files_add_comments comments : forall l s,
  leaves_files (add_comments comments l s).
Proof.
  induction comments as [|c comments IH]; intros l s;
    [apply leaves_files_framed, framed_ret|].
  simpl. apply leaves_files_bind; [apply leaves_files_comment_id_of|].
  intros comment_id. destruct (bool_decide _); [|apply IH].
  apply leaves_files_bind; [apply leaves_files_framed, framed_emit|].
  intros _. apply IH.
Qed.

Lemma leaves_files_pages_loop : forall fuel page_num l s,
  leaves_files (pages_loop fuel page_num l s).
Proof.
  induction fuel as [|fuel IH]; intros page_num l s; [by intros w|].
  cbn [pages_loop].
  apply leaves_files_bind; [apply leaves_files_framed, framed_emit|]. intros _.
  apply leaves_files_bind;
    [apply leaves_files_framed, framed_get_requests_response|].
  assert (Hstop : leaves_files (print (MsgFailedPage page_num) >> ret l)).
  { apply leaves_files_framed, framed_bind; [apply framed_emit|].
    intros _. apply framed_ret. }
  intros [r|]; [|exact Hstop].
  destruct (response_ok r); [|exact Hstop].
  destruct (page_try r) as [[response_data has_next_page]|e].
  - apply leaves_files_bind.
    { destruct (py_iter response_data);
        apply leaves_files_framed; [apply framed_ret|apply framed_raise]. }
    intros comments.
    apply leaves_files_bind; [apply leaves_files_add_comments|]. intros acc.
    destruct (Py.truthy has_next_page); [apply IH|].
    apply leaves_files_framed, framed_ret.
  - destruct (caught e); [|apply leaves_files_framed, framed_raise].
    apply leaves_files_framed, framed_bind; [apply framed_emit|].
    intros _. apply framed_ret.
Qed.

Lemma leaves_files_get_comment_ids page_size :
  leaves_files (get_comment_ids page_size).
Proof.
  unfold get_comment_ids. destruct (negb (page_size_ok page_size)).
  - apply leaves_files_framed, framed_bind; [apply framed_emit|].
    intros _. apply framed_ret.
  - apply leaves_files_bind; [apply leaves_files_framed, framed_emit|]. intros _.
    apply leaves_files_bind; [intros w; apply leaves_files_pages_loop|].
    intros ids. apply leaves_files_framed, framed_bind; [apply framed_emit|].
    intros _. apply framed_ret.
Qed.

Lemma leaves_files_load_processed_ids : leaves_files load_processed_ids.
Proof.
  intros w. unfold load_processed_ids.
  destruct (checkpoint_file w); [|done].
  unfold bind, file_op, print, emit. destruct (faults w) as [|[e|] fs]; done.
Qed.

Lemma scan_above (existing : list Z) : forall fc,
  (fc <= foldl (fun fc counter => Z.max fc (counter + 1)) fc existing)%Z /\
  forall c, c ∈ existing ->
    (c < foldl (fun fc counter => Z.max fc (counter + 1)) fc existing)%Z.
Proof.
  induction existing as [|x existing IH]; intros fc; simpl.
  - split; [lia|]. intros c Hc. by apply elem_of_nil in Hc.
  - destruct (IH (Z.max fc (x + 1))) as [H1 H2]. split; [lia|].
    intros c Hc. apply elem_of_cons in Hc as [->|Hc]; [lia|by apply H2].
Qed.

(** X13.  A run never writes into a CSV file that was there before.  Whatever the
    network and the file system do, the files [main] creates are numbered
    without a gap from a number that is at least the initial [file_counter]
    and above every number found in the directory: no number is used twice,
    and none is the number of an existing file. *)
Theorem main_never_reuses_a_file_number repr N existing w :
  csv_files w = [] ->
  match main repr N existing w with
  | Ok _ w' | Exc _ w' =>
      exists first,
        (file_counter w <= first)%Z /\
        (forall c, c ∈ existing -> (c < first)%Z) /\
        numbered first w' /\
        Forall (fun f => (first <= sink_counter f)%Z /\
                         sink_counter f ∉ existing) (csv_files w') /\
        NoDup (counters w')
  | Unmodelled => True
  end.
Proof.
  intros Hcsv.
  set (first := foldl (fun fc counter => Z.max fc (counter + 1))
                  (file_counter w) existing).
  destruct (scan_above existing (file_counter w)) as [Hge Habove].
  fold first in Hge, Habove.
  assert (Hdone : forall w', numbered first w' ->
    exists first0,
      (file_counter w <= first0)%Z /\
      (forall c, c ∈ existing -> (c < first0)%Z) /\
      numbered first0 w' /\
      Forall (fun f => (first0 <= sink_counter f)%Z /\
                       sink_counter f ∉ existing) (csv_files w') /\
      NoDup (counters w')).
  { intros w' Hn. exists first. split; [done|]. split; [done|]. split; [done|].
    destruct (numbered_bounds first w' Hn) as [Hb Hnd]. split; [|done].
    eapply Forall_impl; [exact Hb|]. intros f Hf. simpl in Hf. split; [done|].
    intros Hin. apply Habove in Hin. clear -Hf Hin. lia. }
  unfold main. unfold bind at 1. unfold print at 1, emit at 1.
  set (w1 := set_trace (trace w ++ [EvPrint MsgBanner]) w).
  unfold bind at 1.
  pose proof (leaves_files_load_processed_ids w1) as Hload.
  destruct (load_processed_ids w1) as [[] w2|e w2|]; [| |done].
  2:{ destruct Hload as [Hc2 _]. apply Hdone, no_files_numbered.
      by rewrite Hc2. }
  destruct Hload as [Hc2 Hf2].
  unfold bind at 1. unfold modify at 1.
  match goal with
  | |- context [set_file_counter ?c w2] => set (w3 := set_file_counter c w2)
  end.
  assert (Hc3 : csv_files w3 = []) by (subst w3; simpl; by rewrite Hc2).
  assert (Hf3 : file_counter w3 = first) by (subst w3 first; simpl; by rewrite Hf2).
  unfold bind at 1.
  pose proof (leaves_files_get_comment_ids 250 w3) as Hids.
  destruct (get_comment_ids 250 w3) as [ids w4|e w4|]; [| |done].
  2:{ destruct Hids as [Hc4 _]. apply Hdone, no_files_numbered.
      by rewrite Hc4. }
  destruct Hids as [Hc4 Hf4].
  assert (Hc4' : csv_files w4 = []) by (by rewrite Hc4).
  pose proof (process_discovered_numbers repr N ids w4 Hc4') as Hp.
  unfold wp in Hp. rewrite Hf4, Hf3 in Hp.
  destruct (process_discovered repr N ids w4) as [[] w5|e w5|];
    [by apply Hdone|by apply Hdone|done].
Qed.

Lemma main_never_reuses_a_file_number_witness :
  csv_files (set_net [AResp (listing_response ["A"; "B"; "C"] false)] fresh) = [] /\
  match main no_repr 2 [3; 1; 7]%Z
          (set_net [AResp (listing_response ["A"; "B"; "C"] false)] fresh) with
  | Ok _ w' | Exc _ w' =>
      exists first,
        (1 <= first)%Z /\
        (forall c, c ∈ [3; 1; 7]%Z -> (c < first)%Z) /\
        numbered first w' /\
        Forall (fun f => (first <= sink_counter f)%Z /\
                         sink_counter f ∉ [3; 1; 7]%Z) (csv_files w') /\
        NoDup (counters w')
  | Unmodelled => True
  end.
Proof.
  split; [reflexivity|].
  apply (main_never_reuses_a_file_number no_repr 2 [3; 1; 7]%Z
           (set_net [AResp (listing_response ["A"; "B"; "C"] false)] fresh)).
  reflexivity.
Defined.

(** ** The two executors side by side *)

(** What a caller sees of a call: the value or the exception, and what is
    left of the network's script. *)
Definition answer {A} (r : result A) : option ((A + exn) * list attempt) :=
  match r with
  | Ok a w => Some (inl a, net w)
  | Exc e w => Some (inr e, net w)
  | Unmodelled => None
  end.

Lemma offline_loop_answer v url delay left : forall t resp w,
  answer (offline_loop v url delay left t resp w) = Some (inl resp, net w).
Proof.
  induction left as [|left IH]; intros t resp w; [done|].
  simpl. unfold bind at 1. rewrite before_request_ok. unfold bind at 1.
  unfold print at 1, emit at 1. by rewrite IH.
Qed.

Lemma requests_loop_agree url delay n script : forall t resp w1 w2,
  faults w1 = [] -> faults w2 = [] -> net w1 = net w2 ->
  answer (requests_loop Checkpointed url delay n script t resp w1)
  = answer (requests_loop Plain url delay n script t resp w2).
Proof.
  induction script as [|a script IH]; intros t resp w1 w2 Hf1 Hf2 Hnet.
  - simpl. by rewrite !offline_loop_answer, Hnet.
  - destruct (n <? t)%Z eqn:Hlt.
    { cbn [requests_loop]. rewrite Hlt. simpl. by rewrite Hnet. }
    apply Z.ltb_ge in Hlt.
    destruct (retriable a) eqn:Ha.
    + destruct (requests_loop_step Checkpointed url delay n a script t resp w1
                  Hf1 Ha Hlt) as (w1' & evs1 & E1 & Hn1 & Hs1 & _).
      destruct (requests_loop_step Plain url delay n a script t resp w2
                  Hf2 Ha Hlt) as (w2' & evs2 & E2 & Hn2 & Hs2 & _).
      rewrite E1, E2. apply IH.
      * destruct Hs1 as [-> _]. exact Hf1.
      * destruct Hs2 as [-> _]. exact Hf2.
      * by rewrite Hn1, Hn2.
    + destruct a as [| | |r]; try discriminate.
      * apply Z.ltb_ge in Hlt. cbn [requests_loop]. rewrite Hlt.
        unfold bind. rewrite !before_request_ok. reflexivity.
      * simpl in Ha. apply negb_false_iff in Ha.
        rewrite !requests_loop_success by done. reflexivity.
Qed.

(** X14.  The executor of the first script answers as the executor of the second
    does: started on the same network with working file operations, both
    return the same response (or both are interrupted) after the same number
    of requests.  The flush before the wait on a rate limit changes nothing
    a caller sees. *)
Theorem executors_agree url delay n w :
  faults w = [] ->
  answer (get_requests_response Checkpointed url delay n w)
  = answer (get_requests_response Plain url delay n w).
Proof.
  intros Hf. unfold get_requests_response.
  destruct (n <? 1)%Z; [reflexivity|].
  by apply requests_loop_agree.
Qed.

Lemma executors_agree_witness :
  answer (get_requests_response Checkpointed "u" true 2
            (set_net [AResp r429; ATimeout; AResp r500; AResp r200] fresh))
  = Some (inl (Some r500), [AResp r200]) /\
  answer (get_requests_response Plain "u" true 2
            (set_net [AResp r429; ATimeout; AResp r500; AResp r200] fresh))
  = Some (inl (Some r500), [AResp r200]).
Proof.
  rewrite <- (executors_agree "u" true 2
                (set_net [AResp r429; ATimeout; AResp r500; AResp r200] fresh)
                eq_refl).
  split; vm_compute; reflexivity.
Defined.

(** ** A whole run of the first script *)

(** The set [main] works with once [load_processed_ids] has run: the lines of
    the checkpoint file when there is one, the set as it stands otherwise. *)
Definition loaded (w : world) : gset string :=
  match checkpoint_file w with
  | Some text => list_to_set (strip <$> file_lines text)
  | None => processed_comment_ids w
  end.

Lemma load_processed_ids_ok w :
  faults w = [] ->
  exists w',
    load_processed_ids w = Ok tt w' /\
    processed_comment_ids w' = loaded w /\
    net w' = net w /\ faults w' = [] /\
    csv_files w' = csv_files w /\
    current_file_comment_count w' = current_file_comment_count w /\
    file_counter w' = file_counter w.
Proof.
  intros Hf. unfold load_processed_ids, loaded.
  destruct (checkpoint_file w) as [text|]; [|by exists w].
  unfold bind, file_op. rewrite Hf. simpl. eexists. split; [reflexivity|].
  by repeat split.
Qed.

Lemma discovered_NoDup pages : forall l acc,
  NoDup l -> discovered pages l = Some acc -> NoDup acc.
Proof.
  induction pages as [|g pages IH]; intros l acc Hl Hd.
  - simpl in Hd. by injection Hd as <-.
  - simpl in Hd. destruct (full_page g) as [gids|]; [|discriminate].
    eapply IH; [|exact Hd]. by apply NoDup_add_new.
Qed.

(** X15.  A whole run on a working file system.  [main] loads the checkpoint,
    walks the listing pages, and fetches the comments discovered that the
    checkpoint does not hold, in the order of their discovery: the rows of
    the run are the records of these fetches, the set ends as the loaded
    identifiers with those of the rows, the checkpoint file holds that set,
    every file is closed, and the files are numbered from the first number
    above those in the directory. *)
Theorem main_fetches_what_the_checkpoint_lacks
    repr N existing w pages r ids acc (p : plan) rest :
  1 <= N ->
  csv_files w = [] ->
  current_file_comment_count w = 0 ->
  faults w = [] ->
  net w = (AResp <$> pages) ++ AResp r :: plan_net p ++ rest ->
  discovered pages [] = Some acc ->
  last_page r = Some ids ->
  plan_ids p = to_process (add_new acc ids) (loaded w) ->
  p <> [] ->
  scripted repr p ->
  exists w',
    main repr N existing w = Ok tt w' /\
    net w' = rest /\
    out_rows w' = plan_rows p /\
    processed_comment_ids w' = list_to_set (plan_written p) ∪ loaded w /\
    checkpoint_file w' = Some (ids_text (elements (processed_comment_ids w'))) /\
    all_closed w' /\
    numbered (foldl (fun fc counter => Z.max fc (counter + 1))
                (file_counter w) existing) w'.
Proof.
  intros HN Hcsv Hcount Hf Hnet Hd Hlast Hplan Hp Hscripted.
  assert (Hids : plan_ids p <> []).
  { intros H. apply Hp. unfold plan_ids in H. by apply fmap_nil_inv in H. }
  assert (HndD : NoDup (add_new acc ids)).
  { apply NoDup_add_new. eapply discovered_NoDup; [|exact Hd]. constructor. }
  unfold main. unfold bind at 1. unfold print at 1, emit at 1.
  set (w1 := set_trace (trace w ++ [EvPrint MsgBanner]) w).
  destruct (load_processed_ids_ok w1 Hf)
    as (w2 & E2 & Hp2 & Hn2 & Hf2 & Hc2 & Hk2 & Hfc2).
  unfold bind at 1. rewrite E2. unfold bind at 1. unfold modify at 1.
  match goal with
  | |- context [set_file_counter ?c w2] => set (w3 := set_file_counter c w2)
  end.
  destruct (get_comment_ids_complete 250 w3 pages r ids (plan_net p ++ rest) acc)
    as (w4 & E4 & Hn4 & Hf4 & Hp4 & Hfc4 & Hk4 & Hc4);
    [reflexivity|subst w3; simpl; by rewrite Hn2|exact Hd|exact Hlast|].
  unfold bind at 1. rewrite E4.
  assert (Hloaded : processed_comment_ids w4 = loaded w).
  { rewrite Hp4. subst w3. simpl. rewrite Hp2. reflexivity. }
  unfold process_discovered.
  destruct (add_new acc ids) as [|d0 D0] eqn:HD.
  { exfalso. apply Hids. by rewrite Hplan. }
  unfold bind at 1. unfold get_state at 1.
  rewrite Hloaded, <- Hplan.
  destruct (plan_ids p) as [|x xs] eqn:Hx; [done|].
  unfold bind at 1. unfold print at 1, emit at 1. rewrite <- Hx.
  match goal with
  | |- context [fetching repr N (plan_ids p) ?w0] => set (w5 := w0)
  end.
  assert (Hc5 : csv_files w5 = []).
  { subst w5. simpl. rewrite Hc4. subst w3. simpl. by rewrite Hc2. }
  destruct (fetching_plan repr N p w5 rest HN Hc5)
    as (w' & f & older & E & Hn' & Hp' & Hck' & Hrows & Hfiles & Hcl & _ & _ & Hold).
  - subst w5. simpl. rewrite Hk4. subst w3. simpl. by rewrite Hk2.
  - subst w5. simpl. rewrite Hf4. subst w3. simpl. exact Hf2.
  - exact Hn4.
  - exact Hscripted.
  - rewrite Hx, Hplan. unfold to_process. by apply NoDup_filter.
  - intros comment_id Hin. rewrite Hx, Hplan in Hin.
    apply to_process_spec in Hin as [_ Hnot].
    subst w5. simpl. by rewrite Hloaded.
  - exists w'. split; [exact E|]. split; [exact Hn'|]. split; [exact Hrows|].
    split; [rewrite Hp'; subst w5; simpl; by rewrite Hloaded|].
    split; [exact Hck'|]. split.
    + unfold all_closed. rewrite Hfiles. constructor; [exact Hcl|].
      eapply Forall_impl; [exact Hold|]. by intros g [? _].
    + pose proof (fetching_numbers repr N (plan_ids p) w5 Hc5) as Hnum.
      unfold wp in Hnum. rewrite E in Hnum.
      replace (file_counter w5) with
        (foldl (fun fc counter => Z.max fc (counter + 1)) (file_counter w) existing)
        in Hnum; [exact Hnum|].
      subst w5. simpl. rewrite Hfc4. subst w3. simpl. by rewrite Hfc2.
Qed.

(** The checkpoint of an earlier run holds A and B; the listing names A, B,
    C and D; a file numbered 3 is in the directory. *)
Definition second_run : world :=
  set_checkpoint (Some (ids_text ["A"; "B"]))
    (set_net (AResp (listing_response ["A"; "B"; "C"; "D"] false)
              :: plan_net [good_fetch "C"; good_fetch "D"]) fresh).

Lemma main_fetches_what_the_checkpoint_lacks_witness :
  exists w',
    main no_repr 500 [3%Z] second_run = Ok tt w' /\
    net w' = [] /\
    out_rows w' = plan_rows [good_fetch "C"; good_fetch "D"] /\
    processed_comment_ids w'
    = list_to_set (plan_written [good_fetch "C"; good_fetch "D"])
      ∪ loaded second_run /\
    checkpoint_file w' = Some (ids_text (elements (processed_comment_ids w'))) /\
    all_closed w' /\
    numbered 4 w'.
Proof.
  apply (main_fetches_what_the_checkpoint_lacks no_repr 500 [3%Z] second_run []
           (listing_response ["A"; "B"; "C"; "D"] false) ["A"; "B"; "C"; "D"] []
           [good_fetch "C"; good_fetch "D"] []).
  - lia.
  - reflexivity.
  - reflexivity.
  - reflexivity.
  - reflexivity.
  - reflexivity.
  - reflexivity.
  - vm_compute. reflexivity.
  - discriminate.
  - repeat constructor; apply good_fetch_scripted.
Defined.

(** ** How far the checkpoint file can fall behind *)

(** An identifier that survives a round trip through the checkpoint file: no
    line terminator in it, no white space at either end. *)
Definition clean (s : string) : Prop := no_newline s = true /\ strip s = s.

(** The set a restarted process would load from the file as it is now. *)
Definition on_disk (w : world) : gset string :=
  match checkpoint_file w with
  | Some text => list_to_set (strip <$> file_lines text)
  | None => ∅
  end.

(** The file holds nothing but processed identifiers, and lacks no more of
    them than were added since the last multiple of 50. *)
Definition lagging (w : world) : Prop :=
  faults w = [] /\
  (forall x, x ∈ processed_comment_ids w -> clean x) /\
  on_disk w ⊆ processed_comment_ids w /\
  size (processed_comment_ids w ∖ on_disk w)
  <= size (processed_comment_ids w) mod 50.

Definition paced {A} (m : M A) : Prop :=
  forall w, lagging w ->
    match m w with
    | Ok _ w' | Exc _ w' => lagging w'
    | Unmodelled => True
    end.

Lemma on_disk_flushed w :
  (forall x, x ∈ processed_comment_ids w -> clean x) ->
  on_disk (flushed w) = processed_comment_ids w.
Proof.
  intros Hclean. unfold on_disk, flushed. cbn [checkpoint_file].
  rewrite file_lines_ids_text.
  - rewrite <- (list_to_set_elements_L (processed_comment_ids w)) at 2.
    f_equal. apply list_eq_Forall2, Forall2_fmap_l, Forall_Forall2_diag.
    apply Forall_forall. intros x Hx. apply Hclean. by apply elem_of_elements.
  - apply Forall_forall. intros x Hx. apply Hclean. by apply elem_of_elements.
Qed.

Lemma flushed_lagging w :
  faults w = [] ->
  (forall x, x ∈ processed_comment_ids w -> clean x) ->
  lagging (flushed w).
Proof.
  intros Hf Hclean. split; [exact Hf|]. split; [exact Hclean|].
  rewrite (on_disk_flushed w Hclean). cbn [processed_comment_ids flushed].
  split; [done|]. rewrite difference_diag_L, size_empty. lia.
Qed.

Lemma paced_ret {A} (a : A) : paced (ret a).
Proof. by intros w H. Qed.

Lemma paced_raise {A} e : paced (@raise A e).
Proof. by intros w H. Qed.

Lemma paced_bind {A B} (m : M A) (k : A -> M B) :
  paced m -> (forall a, paced (k a)) -> paced (bind m k).
Proof.
  intros Hm Hk w H. unfold bind. specialize (Hm w H).
  destruct (m w) as [a w1|e w1|]; [|done|done]. by apply Hk.
Qed.

Lemma paced_emit ev : paced (emit ev).
Proof. intros w H. exact H. Qed.

Lemma paced_when b m : paced m -> paced (when b m).
Proof. destruct b; [done|]. intros _. apply paced_ret. Qed.

Lemma paced_get_state : paced get_state.
Proof. by intros w H. Qed.

Lemma paced_file_op : paced file_op.
Proof. intros w H. unfold file_op. destruct H as [Hf H]. by rewrite Hf. Qed.

Lemma paced_save_processed_ids : paced save_processed_ids.
Proof.
  intros w (Hf & Hclean & _). rewrite save_processed_ids_ok by exact Hf.
  by apply flushed_lagging.
Qed.

Lemma paced_before_request v url delay t : paced (before_request v url delay t).
Proof. intros w H. rewrite before_request_ok. exact H. Qed.

Lemma paced_offline_loop v url delay left : forall t resp,
  paced (offline_loop v url delay left t resp).
Proof.
  induction left as [|left IH]; intros t resp; [apply paced_ret|].
  simpl. apply paced_bind; [apply paced_before_request|]. intros _.
  apply paced_bind; [apply paced_emit|]. intros _. apply IH.
Qed.

Lemma paced_requests_loop v url delay n script : forall t resp,
  paced (requests_loop v url delay n script t resp).
Proof.
  induction script as [|a script IH]; intros t resp.
  - apply paced_offline_loop.
  - simpl. destruct (n <? t)%Z; [apply paced_ret|].
    apply paced_bind; [apply paced_before_request|]. intros _.
    apply paced_bind; [by intros w H|]. intros _.
    destruct a as [| | |r].
    + apply paced_bind; [apply paced_emit|]. intros _. apply IH.
    + apply paced_bind; [apply paced_emit|]. intros _. apply IH.
    + apply paced_raise.
    + destruct (status_in successful_http_status_codes (status_code r));
        [apply paced_ret|].
      destruct (status_in rate_limit_status_codes (status_code r)).
      * apply paced_bind; [apply paced_emit|]. intros _.
        apply paced_bind;
          [destruct v; [apply paced_save_processed_ids|apply paced_ret]|].
        intros _. apply paced_bind; [apply paced_emit|]. intros _. apply IH.
      * apply paced_bind; [apply paced_emit|]. intros _. apply IH.
Qed.

Lemma paced_get_requests_response v url delay n :
  paced (get_requests_response v url delay n).
Proof.
  unfold get_requests_response. destruct (n <? 1)%Z; [apply paced_raise|].
  intros w. apply paced_requests_loop.
Qed.

Lemma paced_get_comment_detail_data repr comment_id :
  paced (get_comment_detail_data repr Checkpointed comment_id).
Proof.
  unfold get_comment_detail_data.
  apply paced_bind; [apply paced_emit|]. intros _.
  apply paced_bind; [apply paced_get_requests_response|].
  assert (Hfail : paced (print (MsgFailedDetails comment_id) >> ret (@None record))).
  { apply paced_bind; [apply paced_emit|]. intros _. apply paced_ret. }
  intros [r|]; [|exact Hfail].
  destruct (response_ok r); [|exact Hfail].
  unfold detail_of_response. destruct (detail_try repr comment_id r) as [rec|e].
  - apply paced_ret.
  - destruct (caught e); [|apply paced_raise].
    apply paced_bind; [apply paced_emit|]. intros _. apply paced_ret.
Qed.

Lemma paced_close_file : paced close_file.
Proof.
  intros w H. unfold close_file.
  destruct (csv_files w) as [|f older]; [done|].
  destruct (sink_closed f); [exact H|].
  unfold file_op. destruct H as [Hf H]. rewrite Hf. by split.
Qed.

Lemma paced_writerow row : paced (writerow row).
Proof.
  intros w H. unfold writerow.
  destruct (csv_files w) as [|f older]; [done|].
  destruct (sink_closed f); [exact H|].
  unfold bind, file_op, modify. destruct H as [Hf H]. rewrite Hf. by split.
Qed.

Lemma paced_flush_file : paced flush_file.
Proof.
  intros w H. unfold flush_file.
  destruct (csv_files w) as [|f older]; [done|].
  destruct (sink_closed f); [exact H|].
  unfold bind, file_op, modify. destruct H as [Hf H]. rewrite Hf. by split.
Qed.

Lemma paced_create_new_csv counter : paced (create_new_csv counter).
Proof.
  unfold create_new_csv.
  apply paced_bind; [apply paced_emit|]. intros _.
  apply paced_bind; [apply paced_file_op|]. intros _. by intros w H.
Qed.

Lemma paced_rotate : paced rotate.
Proof.
  unfold rotate.
  apply paced_bind; [apply paced_close_file|]. intros _.
  apply paced_bind.
  { apply paced_bind; [apply paced_get_state|]. intros w. apply paced_emit. }
  intros _. apply paced_bind; [by intros w H|]. intros _.
  apply paced_bind; [by intros w H|]. intros _.
  apply paced_bind; [apply paced_get_state|]. intros w.
  apply paced_create_new_csv.
Qed.

Lemma mod_50_succ s :
  (S s) mod 50 <> 0 -> (S s) mod 50 = S (s mod 50).
Proof.
  intros H.
  pose proof (Nat.div_mod_eq s 50) as Hs.
  pose proof (Nat.mod_upper_bound s 50 ltac:(lia)) as Hr.
  destruct (decide (S (s mod 50) = 50)) as [E|E].
  - exfalso. apply H. symmetry.
    apply (Nat.mod_unique (S s) 50 (S (s / 50)) 0); lia.
  - symmetry. apply (Nat.mod_unique (S s) 50 (s / 50) (S (s mod 50))); lia.
Qed.

(** The end of [record_row]: the identifier joins the set, and the set is
    flushed when its size reaches a multiple of 50. *)
Lemma paced_add_and_save comment_id :
  clean comment_id ->
  paced (modify (fun w => set_processed ({[comment_id]} ∪ processed_comment_ids w) w) >>
         let* w := get_state in
         when (size (processed_comment_ids w) mod 50 =? 0)%nat
           (save_processed_ids >>
            let* w := get_state in
            print (MsgProgressSaved (size (processed_comment_ids w))))).
Proof.
  intros Hc w (Hf & Hclean & Hsub & Hlag).
  unfold bind at 1. unfold modify at 1. unfold bind at 1. unfold get_state at 1.
  set (w1 := set_processed ({[comment_id]} ∪ processed_comment_ids w) w).
  assert (Hclean1 : forall x, x ∈ processed_comment_ids w1 -> clean x).
  { intros x Hx. subst w1. simpl in Hx.
    apply elem_of_union in Hx as [Hx|Hx]; [|by apply Hclean].
    apply elem_of_singleton in Hx as ->. exact Hc. }
  destruct (size (processed_comment_ids w1) mod 50 =? 0)%nat eqn:E; cbn [when].
  - unfold bind at 1. rewrite save_processed_ids_ok by exact Hf.
    unfold bind, get_state, print, emit.
    exact (flushed_lagging w1 Hf Hclean1).
  - apply Nat.eqb_neq in E. unfold ret.
    split; [exact Hf|]. split; [exact Hclean1|].
    change (on_disk w1) with (on_disk w).
    change (processed_comment_ids w1)
      with ({[comment_id]} ∪ processed_comment_ids w) in *.
    split; [set_solver|].
    destruct (decide (comment_id ∈ processed_comment_ids w)) as [Hin|Hnin].
    + replace ({[comment_id]} ∪ processed_comment_ids w)
        with (processed_comment_ids w) by set_solver.
      exact Hlag.
    + assert (Hsize : size ({[comment_id]} ∪ processed_comment_ids w)
                      = S (size (processed_comment_ids w))).
      { rewrite size_union by set_solver. by rewrite size_singleton. }
      assert (Hdiff : size (({[comment_id]} ∪ processed_comment_ids w) ∖ on_disk w)
                      = S (size (processed_comment_ids w ∖ on_disk w))).
      { replace (({[comment_id]} ∪ processed_comment_ids w) ∖ on_disk w)
          with ({[comment_id]} ∪ (processed_comment_ids w ∖ on_disk w))
          by set_solver.
        rewrite size_union by set_solver. by rewrite size_singleton. }
      rewrite Hsize in E. rewrite Hdiff, Hsize, (mod_50_succ _ E). lia.
Qed.

Lemma paced_record_row comment_id row :
  clean comment_id -> paced (record_row comment_id row).
Proof.
  intros Hc. unfold record_row.
  apply paced_bind; [apply paced_writerow|]. intros _.
  apply paced_bind; [apply paced_flush_file|]. intros _.
  apply paced_bind; [by intros w H|]. intros _.
  by apply paced_add_and_save.
Qed.

Lemma paced_process_comment repr N idx n comment_id :
  clean comment_id -> paced (process_comment repr N idx n comment_id).
Proof.
  intros Hc. unfold process_comment.
  apply paced_bind; [apply paced_get_state|]. intros w.
  destruct (bool_decide _); [apply paced_ret|].
  apply paced_bind; [apply paced_emit|]. intros _.
  apply paced_bind; [apply paced_when, paced_rotate|]. intros _.
  apply paced_bind; [apply paced_get_comment_detail_data|].
  intros [[|kv row]|]; try apply paced_ret.
  by apply paced_record_row.
Qed.

Lemma paced_for_loop repr N n ids : forall idx,
  Forall clean ids -> paced (for_loop repr N idx n ids).
Proof.
  induction ids as [|x ids IH]; intros idx Hids; [apply paced_ret|].
  apply Forall_cons in Hids as [Hx Hids]. simpl.
  apply paced_bind; [by apply paced_process_comment|]. intros _. by apply IH.
Qed.

(** X16.  The checkpoint file is never far behind.  In a run that starts with the
    file and the set in agreement (as right after [load_processed_ids]) and
    meets no file error, after any number of iterations of the loop, and
    however the loop is left, the file holds only processed identifiers and
    lacks fewer than 50 of them: a process killed between two comments
    fetches at most 49 comments again. *)
Theorem checkpoint_is_never_far_behind repr N ids k w :
  first_file_open w ->
  faults w = [] ->
  (forall x, x ∈ processed_comment_ids w -> clean x) ->
  Forall clean ids ->
  on_disk w = processed_comment_ids w ->
  match for_loop repr N 1 (length ids) (take k ids) w with
  | Ok _ w' | Exc _ w' =>
      on_disk w' ⊆ processed_comment_ids w' /\
      size (processed_comment_ids w' ∖ on_disk w') < 50
  | Unmodelled => False
  end.
Proof.
  intros Hopen Hf Hclean Hids Hsync.
  assert (Hlag : lagging w).
  { split; [exact Hf|]. split; [exact Hclean|]. rewrite Hsync.
    split; [done|]. rewrite difference_diag_L, size_empty. lia. }
  assert (Htake : Forall clean (take k ids)) by (by apply Forall_take).
  pose proof (paced_for_loop repr N (length ids) (take k ids) 1 Htake w Hlag)
    as Hp.
  pose proof (wp_for_loop repr N (processed_comment_ids w) (length ids)
                (take k ids) 1 w
                (first_file_open_between_iterations w Hopen)) as Hwp.
  unfold wp in Hwp.
  assert (Hdone : forall w', lagging w' ->
    on_disk w' ⊆ processed_comment_ids w' /\
    size (processed_comment_ids w' ∖ on_disk w') < 50).
  { intros w' (_ & _ & Hsub & Hle). split; [exact Hsub|].
    pose proof (Nat.mod_upper_bound (size (processed_comment_ids w')) 50
                  ltac:(lia)). lia. }
  destruct (for_loop repr N 1 (length ids) (take k ids) w) as [[] w'|e w'|];
    [by apply Hdone|by apply Hdone|done].
Qed.

(** The loop about to start on C and D, with its first file open. *)
Definition loop_entered : world :=
  set_csv [Sink 1 [] 0 false]
    (set_net (plan_net [good_fetch "C"; good_fetch "D"]) fresh).

Lemma checkpoint_is_never_far_behind_witness :
  match for_loop no_repr 500 1 (length ["C"; "D"]) (take 1 ["C"; "D"])
          loop_entered with
  | Ok _ w' | Exc _ w' =>
      on_disk w' ⊆ processed_comment_ids w' /\
      size (processed_comment_ids w' ∖ on_disk w') < 50
  | Unmodelled => False
  end.
Proof.
  apply (checkpoint_is_never_far_behind no_repr 500 ["C"; "D"] 1 loop_entered).
  - by exists 1%Z.
  - reflexivity.
  - intros x Hx. by apply elem_of_empty in Hx.
  - repeat constructor.
  - reflexivity.
Defined.
